(** * next-plugin-llms: route model, content pipeline and document assembly

    A shallow embedding of the plugin's scanner, content processor,
    metadata accessors, document generator and per-page generator, with the
    properties of the specification stated and proved over it.

    Conventions of the embedding.
    - A JavaScript string is a [string]; one [ascii] stands for one code
      unit, so the strings of the embedding are those whose code units are
      below 256 (ASCII and Latin-1).  White space ([\s], [trim]) and
      [toUpperCase] are what JavaScript makes of these code units: the
      no-break space (160) is white space, and the Latin-1 letters have
      their capitals.
    - A [number] that counts characters is a [Z].
    - [undefined] is [None]; an optional field is an [option].
    - A [Map] is an insertion-ordered association list.
    - The libraries the sources call ([minimatch], the Babel parser,
      [String.prototype.localeCompare], the file system, [process.cwd()])
      are variables of the sections that use them. *)

From Stdlib Require Import String Ascii List ZArith Lia Bool Arith.
From Stdlib Require Import Sorting.Sorted Sorting.Permutation.
Import ListNotations.

Set Warnings "-register-all".
Local Open Scope list_scope.
Local Open Scope string_scope.

(* ================================================================== *)
(** * JavaScript strings *)
(* ================================================================== *)

Module Js.

Definition ch (c d : ascii) : bool := Ascii.eqb c d.
Arguments ch : simpl never.

(** What follows the literal text [p] at the start of [s], if [s] starts
    with it. *)
Fixpoint stripPrefix (p s : string) : option string :=
  match p with
  | EmptyString => Some s
  | String a p' =>
      match s with
      | EmptyString => None
      | String b s' => if ch a b then stripPrefix p' s' else None
      end
  end.

(** [s.startsWith(p)] *)
Definition startsWith (s p : string) : bool :=
  match stripPrefix p s with
  | Some _ => true
  | None => false
  end.

(** [s.endsWith("/")] and friends, for a one-character suffix. *)
Fixpoint endsWithChar (s : string) (c : ascii) : bool :=
  match s with
  | EmptyString => false
  | String d EmptyString => ch d c
  | String _ rest => endsWithChar rest c
  end.

(** [s.slice(0, -1)] *)
Fixpoint dropLast (s : string) : string :=
  match s with
  | EmptyString => EmptyString
  | String _ EmptyString => EmptyString
  | String c rest => String c (dropLast rest)
  end.

(** [s.slice(1)] *)
Definition dropFirst (s : string) : string :=
  match s with
  | EmptyString => EmptyString
  | String _ rest => rest
  end.

(** [s.substring(0, n)]: a negative [n] counts as 0, an [n] past the end
    as the length. *)
Fixpoint take (n : nat) (s : string) : string :=
  match n, s with
  | O, _ => EmptyString
  | _, EmptyString => EmptyString
  | S k, String c rest => String c (take k rest)
  end.

Fixpoint drop (n : nat) (s : string) : string :=
  match n, s with
  | O, _ => s
  | _, EmptyString => EmptyString
  | S k, String _ rest => drop k rest
  end.

Definition substring0 (n : Z) (s : string) : string := take (Z.to_nat n) s.

(** [s.length] *)
Definition len (s : string) : Z := Z.of_nat (String.length s).

(** [s.includes(sub)] *)
Fixpoint includes (s sub : string) : bool :=
  startsWith s sub ||
  match s with
  | EmptyString => false
  | String _ rest => includes rest sub
  end.

(** [s.replace(pat, "")] for a string pattern: the first occurrence goes. *)
Fixpoint removeFirst (s pat : string) : string :=
  match stripPrefix pat s with
  | Some rest => rest
  | None =>
      match s with
      | EmptyString => EmptyString
      | String c rest => String c (removeFirst rest pat)
      end
  end.

(** [s.split(sep)] for a one-character separator. *)
Fixpoint split (sep : ascii) (s : string) : list string :=
  match s with
  | EmptyString => [EmptyString]
  | String c rest =>
      if ch c sep then EmptyString :: split sep rest
      else match split sep rest with
           | [] => [String c EmptyString]
           | w :: ws => String c w :: ws
           end
  end.

(** [l.join(sep)] *)
Definition join (sep : string) (l : list string) : string := String.concat sep l.

(** [c.repeat(n)] for a one-character string. *)
Fixpoint repeat (c : ascii) (n : nat) : string :=
  match n with
  | O => EmptyString
  | S k => String c (repeat c k)
  end.

(** Character classes of the regular expressions. *)
Definition isLower (c : ascii) : bool :=
  let n := nat_of_ascii c in (97 <=? n)%nat && (n <=? 122)%nat.
Definition isUpper (c : ascii) : bool :=
  let n := nat_of_ascii c in (65 <=? n)%nat && (n <=? 90)%nat.
Definition isDigit (c : ascii) : bool :=
  let n := nat_of_ascii c in (48 <=? n)%nat && (n <=? 57)%nat.
(** [\w] *)
Definition isWord (c : ascii) : bool :=
  isLower c || isUpper c || isDigit c || ch c "_".
(** [\s], and what [trim] takes off: tab to carriage return, the space and
    the no-break space. *)
Definition isSpace (c : ascii) : bool :=
  let n := nat_of_ascii c in
  ((9 <=? n)%nat && (n <=? 13)%nat) || (n =? 32)%nat || (n =? 160)%nat.
(** What [.] refuses and what [^]/[$] look at under the [m] flag. *)
Definition isLineTerminator (c : ascii) : bool :=
  let n := nat_of_ascii c in (n =? 10)%nat || (n =? 13)%nat.

(** The capital of a character where it is one character: the letters a
    to z, and the Latin-1 letters 224 to 254 less the division sign (247),
    are 32 above their capitals; the other characters are their own. *)
Definition toUpper (c : ascii) : ascii :=
  let n := nat_of_ascii c in
  if isLower c
     || ((224 <=? n)%nat && (n <=? 254)%nat && negb (n =? 247)%nat)
  then ascii_of_nat (n - 32) else c.

(** [c.toUpperCase()] for a one-character string: the sharp s (223) becomes
    two letters. *)
Definition toUpperCase (c : ascii) : string :=
  if (nat_of_ascii c =? 223)%nat then "SS" else String (toUpper c) "".

(** The capital of the character is a code unit of the embedding: those of
    the micro sign (181) and of the y with diaeresis (255) are above 255,
    and [toUpperCase] is not modelled for the two. *)
Definition upperInRange (c : ascii) : bool :=
  let n := nat_of_ascii c in negb (n =? 181)%nat && negb (n =? 255)%nat.

(** The characters other than [d]. *)
Definition isNot (d : ascii) (c : ascii) : bool := negb (ch c d).

(** Every character of the text satisfies [p]. *)
Fixpoint all (p : ascii -> bool) (s : string) : bool :=
  match s with
  | EmptyString => true
  | String c rest => p c && all p rest
  end.

(** The longest prefix whose characters satisfy [p], and what follows. *)
Fixpoint span (p : ascii -> bool) (s : string) : string * string :=
  match s with
  | EmptyString => (EmptyString, EmptyString)
  | String c rest =>
      if p c then let '(a, b) := span p rest in (String c a, b)
      else (EmptyString, s)
  end.

Definition trimStart (s : string) : string := snd (span isSpace s).

Fixpoint trimEnd (s : string) : string :=
  match s with
  | EmptyString => EmptyString
  | String c rest => if all isSpace s then EmptyString else String c (trimEnd rest)
  end.

(** [s.trim()] *)
Definition trim (s : string) : string := trimEnd (trimStart s).

(** The comparison of two strings by their code units: negative, zero or
    positive.  It stands for [localeCompare] where a concrete comparison is
    needed. *)
Fixpoint compareCodeUnits (a b : string) : Z :=
  match a, b with
  | EmptyString, EmptyString => 0
  | EmptyString, String _ _ => -1
  | String _ _, EmptyString => 1
  | String c a', String d b' =>
      match Nat.compare (nat_of_ascii c) (nat_of_ascii d) with
      | Lt => -1
      | Gt => 1
      | Eq => compareCodeUnits a' b'
      end
  end%Z.

(** ** Global replacement by a regular expression

    A [matcher] is a regular expression tried at one position: given the
    character before the position (for [^]) and the text from the position
    on, it answers with the replacement text and the length of the match.
    All the expressions of the sources match at least one character.
    [replaceG] is [s.replace(/re/g, ...)]: the text is scanned from the left,
    a match is replaced and the scan resumes after it. *)

Definition matcher := option ascii -> string -> option (string * nat).

Fixpoint replaceG (m : matcher) (prev : option ascii) (skip : nat) (s : string)
  : string :=
  match s with
  | EmptyString => EmptyString
  | String c rest =>
      match skip with
      | S k => replaceG m (Some c) k rest
      | O =>
          match m prev s with
          | Some (repl, n) => repl ++ replaceG m (Some c) (pred n) rest
          | None => String c (replaceG m (Some c) 0 rest)
          end
      end
  end.

Definition replaceAll (m : matcher) (s : string) : string := replaceG m None 0 s.

(** [s.match(/re/g)]: the matched texts, in order. *)
Fixpoint matchG (m : string -> option nat) (skip : nat) (s : string)
  : list string :=
  match s with
  | EmptyString => []
  | String c rest =>
      match skip with
      | S k => matchG m k rest
      | O =>
          match m s with
          | Some n => take n s :: matchG m (pred n) rest
          | None => matchG m 0 rest
          end
      end
  end.

End Js.

(* ================================================================== *)
(** * JavaScript maps and arrays *)
(* ================================================================== *)

Module JsMap.
Section Map.
Context {V : Type}.

(** A [Map<string, V>]: the entries in the order the keys were first set. *)
Definition t := list (string * V).

Fixpoint get (k : string) (m : t) : option V :=
  match m with
  | [] => None
  | (k', v) :: rest => if String.eqb k' k then Some v else get k rest
  end.

Definition has (k : string) (m : t) : bool :=
  match get k m with Some _ => true | None => false end.

(** [m.set(k, v)]: a key already there keeps its place. *)
Fixpoint set (k : string) (v : V) (m : t) : t :=
  match m with
  | [] => [(k, v)]
  | (k', v') :: rest =>
      if String.eqb k' k then (k, v) :: rest else (k', v') :: set k v rest
  end.

Fixpoint delete (k : string) (m : t) : t :=
  match m with
  | [] => []
  | (k', v') :: rest =>
      if String.eqb k' k then rest else (k', v') :: delete k rest
  end.

End Map.
Arguments t : clear implicits.
End JsMap.

Module JsArray.

(** [Array.prototype.sort(compare)]: the elements in an order the comparison
    function agrees with, elements it ranks equal staying in their order.
    The engine is free in how it gets there; this is the insertion sort. *)
Fixpoint insert {A} (compare : A -> A -> Z) (x : A) (l : list A) : list A :=
  match l with
  | [] => [x]
  | y :: rest =>
      if (compare x y <=? 0)%Z then x :: y :: rest
      else y :: insert compare x rest
  end.

Definition sort {A} (compare : A -> A -> Z) (l : list A) : list A :=
  fold_right (insert compare) [] l.

End JsArray.

(* ================================================================== *)
(** * Node's [path] (POSIX) and [fs] *)
(* ================================================================== *)

Module Path.

(** [path.sep] *)
Definition sep : ascii := "/"%char.

Definition isAbsolute (p : string) : bool := Js.startsWith p "/".

(** The segments of a path with [.] and empty segments dropped and [..]
    resolved against what precedes it. *)
Fixpoint normalizeSegments (absolute : bool) (stack segs : list string)
  : list string :=
  match segs with
  | [] => rev stack
  | seg :: rest =>
      if String.eqb seg "" || String.eqb seg "." then
        normalizeSegments absolute stack rest
      else if String.eqb seg ".." then
        match stack with
        | top :: below =>
            if String.eqb top ".." then
              normalizeSegments absolute (seg :: stack) rest
            else normalizeSegments absolute below rest
        | [] =>
            if absolute then normalizeSegments absolute [] rest
            else normalizeSegments absolute [seg] rest
        end
      else normalizeSegments absolute (seg :: stack) rest
  end.

(** [path.normalize(p)] *)
Definition normalize (p : string) : string :=
  if String.eqb p "" then "."
  else
    let absolute := isAbsolute p in
    let trailing := Js.endsWithChar p "/" in
    let body := Js.join "/" (normalizeSegments absolute [] (Js.split "/" p)) in
    if String.eqb body "" then
      if absolute then "/" else if trailing then "./" else "."
    else
      (if absolute then "/" else "") ++ body ++ (if trailing then "/" else "").

(** [path.join(...parts)] *)
Definition join (parts : list string) : string :=
  match filter (fun s => negb (String.eqb s "")) parts with
  | [] => "."
  | parts' => normalize (Js.join "/" parts')
  end.

(** [path.resolve(cwd, p)], with [cwd] absolute. *)
Definition resolve (cwd p : string) : string :=
  let full := if isAbsolute p then p else cwd ++ "/" ++ p in
  "/" ++ Js.join "/" (normalizeSegments true [] (Js.split "/" full)).

Fixpoint revOnto (s acc : string) : string :=
  match s with
  | EmptyString => acc
  | String c rest => revOnto rest (String c acc)
  end.

Definition reverse (s : string) : string := revOnto s "".

(** [path.dirname(p)]: the path up to the last slash that has a name behind
    it; a slash at the very start is not looked at. *)
Definition dirname (p : string) : string :=
  let isSlash := fun c => Js.ch c "/" in
  let hasRoot := Js.startsWith p "/" in
  let r := snd (Js.span isSlash (reverse p)) in
  let r := snd (Js.span (fun c => negb (isSlash c)) r) in
  (* [r] is the text up to and with that slash, reversed *)
  match r with
  | EmptyString => if hasRoot then "/" else "."
  | String _ EmptyString => if hasRoot then "/" else "."
  | String _ before =>
      if hasRoot && (String.length r =? 2)%nat then "//" else reverse before
  end.

Fixpoint dropCommon (a b : list string) : list string * list string :=
  match a, b with
  | x :: a', y :: b' => if String.eqb x y then dropCommon a' b' else (a, b)
  | _, _ => (a, b)
  end.

(** [path.relative(from, to)], both absolute. *)
Definition relative (from to : string) : string :=
  let fromSegs := normalizeSegments true [] (Js.split "/" from) in
  let toSegs := normalizeSegments true [] (Js.split "/" to) in
  let '(up, down) := dropCommon fromSegs toSegs in
  Js.join "/" (map (fun _ => "..") up ++ down)%list.

End Path.

(** What a function returns, or the exception it throws. *)
Inductive result (A : Type) :=
  | Ok (a : A)
  | Throw (error : string).
Arguments Ok {A} a.
Arguments Throw {A} error.

Definition bind {A B} (r : result A) (k : A -> result B) : result B :=
  match r with
  | Ok a => k a
  | Throw e => Throw e
  end.

Notation "'do' x <- r ; k" := (bind r (fun x => k))
  (at level 10, x name, r at level 100, k at level 200).

Module Fs.

(** An entry of a directory listing, with the listing behind it when it is
    a directory.  A directory that cannot be listed ([readdirSync] on it
    throws, for want of permission say) has the error instead. *)
Inductive Dirent :=
  | File (name : string)
  | Directory (name : string) (entries : list Dirent)
  | Other (name : string)
  | Unreadable (name : string) (error : string).

(** The file system: the directories and the files by absolute path. *)
Record FileSystem := {
  directories : string -> option (list Dirent);
  files : string -> option string
}.

Definition existsSync (fs : FileSystem) (p : string) : bool :=
  match directories fs p, files fs p with
  | None, None => false
  | _, _ => true
  end.

Definition readFileSync (fs : FileSystem) (p : string) : result string :=
  match files fs p with
  | Some text => Ok text
  | None => Throw "ENOENT or EISDIR"
  end.

Definition readdirSync (fs : FileSystem) (p : string) : result (list Dirent) :=
  match directories fs p with
  | Some entries => Ok entries
  | None => Throw "ENOENT or ENOTDIR"
  end.

End Fs.

(* ================================================================== *)
(** * types.ts *)
(* ================================================================== *)

(** The interfaces of the plugin, with the fields the modelled functions
    read.  A field whose name another record has already taken carries a
    prefix: [og_] for the Open Graph block, [item_] and [cs_] for custom
    sections, [pp_] for the per-page options, [cf_] for custom files and
    [opt_] for the plugin options. *)

Inductive Priority := high | medium | low.

Record ContentSource := {
  section : string;
  pattern : string;
  priority : option Priority
}.

Inductive RouteType := page | layout | route.

Record OpenGraph := {
  og_title : option string;
  og_description : option string;
  og_url : option string;
  og_type : option string
}.

Record RouteMetadata := {
  title : option string;
  description : option string;
  keywords : option (list string);
  openGraph : option OpenGraph
}.

Record Heading := {
  level : nat;
  text : string
}.

Record RouteInfo := {
  filePath : string;
  urlPath : string;
  type : RouteType;
  metadata : option RouteMetadata;
  content : option string;
  headings : option (list Heading)
}.

Record CustomSectionItem := {
  item_title : string;
  item_url : string;
  item_description : option string
}.

Record CustomSection := {
  cs_title : string;
  cs_items : list CustomSectionItem;
  cs_description : option string
}.

Record PerPageOptions := {
  pp_includeMetadata : option bool;
  pp_includePatterns : option (list string);
  pp_excludePatterns : option (list string)
}.

Record ContentOptions := {
  maxContentLength : option Z
}.

Record CustomLLMFile := {
  filename : string;
  cf_title : string;
  cf_description : string;
  cf_includePatterns : list string;
  fullContent : option bool;
  cf_excludePatterns : option (list string)
}.

Record PluginOptions := {
  generatePerPageMarkdown : option bool;
  perPageOptions : option PerPageOptions;
  opt_title : option string;
  opt_description : option string;
  siteUrl : option string;
  appDir : option string;
  excludePatterns : option (list string);
  sources : option (list ContentSource);
  customSections : option (list CustomSection);
  contentOptions : option ContentOptions;
  customFiles : option (list CustomLLMFile)
}.

(** The options object [{}]. *)
Definition noOptions : PluginOptions :=
  {| generatePerPageMarkdown := None; perPageOptions := None;
     opt_title := None; opt_description := None; siteUrl := None;
     appDir := None; excludePatterns := None; sources := None;
     customSections := None; contentOptions := None; customFiles := None |}.

(** A route as discovery creates it. *)
Definition mkRoute (f u : string) (t : RouteType) : RouteInfo :=
  {| filePath := f; urlPath := u; type := t;
     metadata := None; content := None; headings := None |}.

(* ================================================================== *)
(** * scanner.ts *)
(* ================================================================== *)

Module Scanner.

(** [/\\/g], replaced by ["/"]. *)
Definition reBackslash : Js.matcher := fun _ s =>
  match Js.stripPrefix "\" s with
  | Some _ => Some ("/", 1)
  | None => None
  end.

(** [/\([^)]+\)\/?/g], replaced by [""]: an opening parenthesis, the
    longest run of characters other than [)], which must not be empty and
    must be followed by [)], and a slash if one follows. *)
Definition reRouteGroup : Js.matcher := fun _ s =>
  match Js.stripPrefix "(" s with
  | Some rest =>
      let '(inner, after) := Js.span (fun c => negb (Js.ch c ")")) rest in
      if String.eqb inner "" then None
      else match Js.stripPrefix ")" after with
           | Some after' =>
               let n := 2 + String.length inner in
               if Js.startsWith after' "/" then Some ("", S n) else Some ("", n)
           | None => None
           end
  | None => None
  end.

(** [/\[\[\.\.\.([\w]+)\]\]/g], replaced by [":$1"]. *)
Definition reOptionalCatchAll : Js.matcher := fun _ s =>
  match Js.stripPrefix "[[..." s with
  | Some rest =>
      let '(name, after) := Js.span Js.isWord rest in
      if String.eqb name "" then None
      else match Js.stripPrefix "]]" after with
           | Some _ => Some (":" ++ name, 7 + String.length name)
           | None => None
           end
  | None => None
  end.

(** [/\[\.\.\.([\w]+)\]/g], replaced by ["*"]. *)
Definition reCatchAll : Js.matcher := fun _ s =>
  match Js.stripPrefix "[..." s with
  | Some rest =>
      let '(name, after) := Js.span Js.isWord rest in
      if String.eqb name "" then None
      else match Js.stripPrefix "]" after with
           | Some _ => Some ("*", 5 + String.length name)
           | None => None
           end
  | None => None
  end.

(** [/\[([^\]]+)\]/g], replaced by [":$1"]. *)
Definition reDynamic : Js.matcher := fun _ s =>
  match Js.stripPrefix "[" s with
  | Some rest =>
      let '(name, after) := Js.span (fun c => negb (Js.ch c "]")) rest in
      if String.eqb name "" then None
      else match Js.stripPrefix "]" after with
           | Some _ => Some (":" ++ name, 2 + String.length name)
           | None => None
           end
  | None => None
  end.

Definition filePathToUrlPath (filePath : string) : string :=
  let urlPath := Js.replaceAll reBackslash filePath in
  let urlPath := Js.replaceAll reRouteGroup urlPath in
  let urlPath := Js.replaceAll reOptionalCatchAll urlPath in
  let urlPath := Js.replaceAll reCatchAll urlPath in
  let urlPath := Js.replaceAll reDynamic urlPath in
  let urlPath :=
    if negb (Js.startsWith urlPath "/") then "/" ++ urlPath else urlPath in
  if String.eqb urlPath "/" || String.eqb urlPath "" then "/" else urlPath.

Section WithEnvironment.
(** [minimatch(path, pattern)] *)
Variable minimatch : string -> string -> bool.
(** [process.cwd()] *)
Variable cwd : string.

(** [s.replace(/^\//, '')] *)
Definition stripLeadingSlash (s : string) : string :=
  match Js.stripPrefix "/" s with
  | Some rest => rest
  | None => s
  end.

(** [route.filePath.replace(process.cwd(), '').replace(/^\//, '')] *)
Definition relativePath (filePath : string) : string :=
  stripLeadingSlash (Js.removeFirst filePath cwd).

(** [minimatch(relativePath, source.pattern) ||
     minimatch(relativePath, `**/${source.pattern}`)] *)
Definition matchesPattern (relPath pat : string) : bool :=
  minimatch relPath pat || minimatch relPath ("**/" ++ pat).

(** [sections.get(k)?.push(route)] *)
Definition pushTo (k : string) (r : RouteInfo)
  (sections : JsMap.t (list RouteInfo)) : JsMap.t (list RouteInfo) :=
  match JsMap.get k sections with
  | Some l => JsMap.set k (l ++ [r])%list sections
  | None => sections
  end.

(** The loop over the sources for one route: the sections after it, and
    whether the route was assigned. *)
Fixpoint assignRoute (r : RouteInfo) (srcs : list ContentSource)
  (sections : JsMap.t (list RouteInfo)) : JsMap.t (list RouteInfo) * bool :=
  match srcs with
  | [] => (sections, false)
  | source :: rest =>
      let relPath := relativePath (filePath r) in
      if matchesPattern relPath (pattern source)
      then (pushTo (section source) r sections, true)
      else assignRoute r rest sections
  end.

(** The loop that removes the empty sections. *)
Definition removeEmpty (sections : JsMap.t (list RouteInfo))
  : JsMap.t (list RouteInfo) :=
  fold_left
    (fun m entry =>
       if (List.length (snd entry) =? 0)%nat then JsMap.delete (fst entry) m
       else m)
    sections sections.

Definition groupRoutesBySection (routes : list RouteInfo)
  (options : PluginOptions) : JsMap.t (list RouteInfo) :=
  let sections := JsMap.set "Pages" [] [] in
  let sections :=
    match sources options with
    | Some srcs =>
        fold_left (fun m source => JsMap.set (section source) [] m) srcs sections
    | None => sections
    end in
  let sections :=
    fold_left
      (fun m r =>
         let '(m', assigned) :=
           match sources options with
           | Some srcs => assignRoute r srcs m
           | None => (m, false)
           end in
         if negb assigned then pushTo "Pages" r m' else m')
      routes sections in
  removeEmpty sections.

(** [a.localeCompare(b)] *)
Variable localeCompare : string -> string -> Z.

Definition priorityMap (p : Priority) : Z :=
  match p with
  | high => 3
  | medium => 2
  | low => 1
  end.

(** [priorityMap[source.priority || 'medium']] *)
Definition sourceRank (source : ContentSource) : Z :=
  priorityMap match priority source with Some p => p | None => medium end.

(** The comparison function handed to [sort]. *)
Definition compareRoutes (options : PluginOptions) (a b : RouteInfo) : Z :=
  let '(aPriority, bPriority) :=
    match sources options with
    | Some srcs =>
        fold_left
          (fun '(aP, bP) source =>
             let aRelPath := relativePath (filePath a) in
             let bRelPath := relativePath (filePath b) in
             let aP' := if matchesPattern aRelPath (pattern source)
                        then sourceRank source else aP in
             let bP' := if matchesPattern bRelPath (pattern source)
                        then sourceRank source else bP in
             (aP', bP'))
          srcs (2, 2)%Z
    | None => (2, 2)%Z
    end in
  if negb (aPriority =? bPriority)%Z then (bPriority - aPriority)%Z
  else localeCompare (urlPath a) (urlPath b).

Definition sortRoutesByPriority (routes : list RouteInfo)
  (options : PluginOptions) : list RouteInfo :=
  JsArray.sort (compareRoutes options) routes.

End WithEnvironment.

Section Discovery.
Variable minimatch : string -> string -> bool.
Variable cwd : string.
Variable fs : Fs.FileSystem.

Definition defaultExclusions : list string :=
  [ "**/api/**"; "**/_*/**"; "**/_*.tsx"; "**/_*.ts"; "**/route.ts";
    "**/.*"; "**/node_modules/**" ].

Definition shouldExclude (relPath : string) (excludePatterns : list string)
  : bool :=
  let allPatterns := (defaultExclusions ++ excludePatterns)%list in
  existsb (fun pat => minimatch relPath pat) allPatterns.

Definition createRouteInfo (filePath appDir fileName : string) : RouteInfo :=
  let relPath := Path.relative appDir (Path.dirname filePath) in
  let urlPath := filePathToUrlPath relPath in
  let type :=
    if Js.startsWith fileName "page" then page
    else if Js.startsWith fileName "layout" then layout
    else route in
  mkRoute filePath urlPath type.

Definition isRouteFile (name : string) : bool :=
  String.eqb name "page.tsx" || String.eqb name "page.ts"
  || String.eqb name "layout.tsx" || String.eqb name "layout.ts"
  || String.eqb name "route.ts".

(** The loop of [scanDirectory]: the turns one after the other, up to the
    first that throws. *)
Section Loop.
Context {A : Type}.
Variable turn : A -> result (list RouteInfo).

Fixpoint scanEntries (entries : list A) : result (list RouteInfo) :=
  match entries with
  | [] => Ok []
  | entry :: later =>
      do found <- turn entry;
      do more <- scanEntries later;
      Ok (found ++ more)%list
  end.

End Loop.

(** One turn of the loop of [scanDirectory] over the entries of [dir]: the
    routes the entry adds.  A directory is scanned through the listing the
    file system holds for it, and the turn throws when that listing cannot
    be read. *)
Fixpoint scanEntry (options : PluginOptions) (appDir dir : string)
  (entry : Fs.Dirent) : result (list RouteInfo) :=
  let excludes :=
    match excludePatterns options with Some l => l | None => [] end in
  match entry with
  | Fs.Directory name entries =>
      let fullPath := Path.join [dir; name] in
      let relPath := Path.relative appDir fullPath in
      if shouldExclude relPath excludes then Ok []
      else scanEntries (scanEntry options appDir fullPath) entries
  | Fs.Unreadable name error =>
      let fullPath := Path.join [dir; name] in
      let relPath := Path.relative appDir fullPath in
      if shouldExclude relPath excludes then Ok []
      else Throw error
  | Fs.File name =>
      let fullPath := Path.join [dir; name] in
      let relPath := Path.relative appDir fullPath in
      if shouldExclude relPath excludes then Ok []
      else if isRouteFile name then
        let routeInfo := createRouteInfo fullPath appDir name in
        if Js.startsWith name "page." then Ok [routeInfo] else Ok []
      else Ok []
  | Fs.Other name => Ok []
  end.

Definition scanDirectory (options : PluginOptions) (dir appDir : string)
  : result (list RouteInfo) :=
  do entries <- Fs.readdirSync fs dir;
  scanEntries (scanEntry options appDir dir) entries.

Definition scanAppDirectory (appDir : string) (options : PluginOptions)
  : result (list RouteInfo) :=
  let routes := [] in
  let absoluteAppDir := Path.resolve cwd appDir in
  if negb (Fs.existsSync fs absoluteAppDir) then Ok routes
  else
    do found <- scanDirectory options absoluteAppDir absoluteAppDir;
    Ok (routes ++ found)%list.

End Discovery.

End Scanner.


(* ================================================================== *)
(** * metadata-extractor.ts: the accessors *)
(* ================================================================== *)

Module MetadataExtractor.

(** A JavaScript truthy test on an optional string. *)
Definition truthy (o : option string) : option string :=
  match o with
  | Some s => if String.eqb s "" then None else Some s
  | None => None
  end.

(** [/\s*\|.*$/] tried at the start of [s]: white space, a bar, and no line
    break up to the end of the text. *)
Definition reTemplateSuffix (s : string) : bool :=
  let '(_, after) := Js.span Js.isSpace s in
  match Js.stripPrefix "|" after with
  | Some tail => Js.all (fun c => negb (Js.isLineTerminator c)) tail
  | None => false
  end.

(** [t.replace(/\s*\|.*$/, '')]: the first match goes, and it reaches the
    end of the text. *)
Fixpoint removeTemplateSuffix (t : string) : string :=
  if reTemplateSuffix t then ""
  else match t with
       | EmptyString => EmptyString
       | String c rest => String c (removeTemplateSuffix rest)
       end.

(** [word.charAt(0).toUpperCase() + word.slice(1)] *)
Definition capitalize (word : string) : string :=
  match word with
  | EmptyString => EmptyString
  | String c rest => Js.toUpperCase c ++ rest
  end.

Definition getBestTitle (r : RouteInfo) : string :=
  match truthy (match metadata r with Some m => title m | None => None end) with
  | Some t => Js.trim (removeTemplateSuffix t)
  | None =>
      match truthy (match metadata r with
                    | Some m =>
                        match openGraph m with
                        | Some og => og_title og
                        | None => None
                        end
                    | None => None
                    end) with
      | Some t => t
      | None =>
          let segments :=
            filter (fun seg => negb (String.eqb seg ""))
                   (Js.split "/" (urlPath r)) in
          match segments with
          | [] => "Home"
          | _ =>
              let lastSegment := last segments "" in
              Js.join " " (map capitalize (Js.split "-" lastSegment))
          end
      end
  end.

Definition getBestDescription (r : RouteInfo) : option string :=
  match truthy (match metadata r with
                | Some m => description m
                | None => None
                end) with
  | Some d => Some d
  | None =>
      truthy (match metadata r with
              | Some m =>
                  match openGraph m with
                  | Some og => og_description og
                  | None => None
                  end
              | None => None
              end)
  end.

(** ** Reading the metadata of a layout file *)

(** The class of the two quote characters, single and double. *)
Definition isQuote (c : ascii) : bool := Js.ch c "'" || Js.ch c "034".

(** A quoted value at the start of [s], as the expressions of the parser
    all end: a quote of either kind, the shortest text [(.*?)] without a
    line break, and a quote of either kind.  The captured text. *)
Definition quoted (s : string) : option string :=
  match s with
  | EmptyString => None
  | String q rest =>
      if isQuote q then
        let '(inner, after) :=
          Js.span (fun c => negb (isQuote c) && negb (Js.isLineTerminator c))
                  rest in
        match after with
        | EmptyString => None
        | String c _ => if isQuote c then Some inner else None
        end
      else None
  end.

(** [key\s*] and a quoted value at the start of [s], for a literal [key]
    such as [title:]. *)
Definition fieldAt (key : string) (s : string) : option string :=
  match Js.stripPrefix key s with
  | Some rest => quoted (snd (Js.span Js.isSpace rest))
  | None => None
  end.

(** [content.match(re)] for an expression without the [g] flag: the match
    at the leftmost position that has one. *)
Fixpoint search {A : Type} (m : string -> option A) (s : string) : option A :=
  match m s with
  | Some a => Some a
  | None =>
      match s with
      | EmptyString => None
      | String _ rest => search m rest
      end
  end.

(** [/keywords:\s*\[([\s\S]*?)\]/] at the start of [s]. *)
Definition keywordsAt (s : string) : option string :=
  match Js.stripPrefix "keywords:" s with
  | Some rest =>
      match Js.stripPrefix "[" (snd (Js.span Js.isSpace rest)) with
      | Some body =>
          let '(inner, after) := Js.span (fun c => negb (Js.ch c "]")) body in
          match after with
          | EmptyString => None
          | String _ _ => Some inner
          end
      | None => None
      end
  | None => None
  end.

(** [k.replace(re, '')], with the class of the quotes and the [g] flag. *)
Fixpoint removeQuotes (k : string) : string :=
  match k with
  | EmptyString => EmptyString
  | String c rest =>
      if isQuote c then removeQuotes rest else String c (removeQuotes rest)
  end.

Definition splitKeywords (keywordsStr : string) : list string :=
  filter (fun k => negb (String.eqb k ""))
         (map (fun k => removeQuotes (Js.trim k)) (Js.split "," keywordsStr)).

(** [openGraph:\s*{[\s\S]*?key\s*] and a quoted value, at the start of
    [s]. *)
Definition openGraphFieldAt (key : string) (s : string) : option string :=
  match Js.stripPrefix "openGraph:" s with
  | Some rest =>
      match Js.stripPrefix "{" (snd (Js.span Js.isSpace rest)) with
      | Some body => search (fieldAt key) body
      | None => None
      end
  | None => None
  end.

Definition parseMetadataFromContent (content : string) : RouteMetadata :=
  let title :=
    match search (fieldAt "title:") content with
    | Some t => Some t
    | None => search (fieldAt "default:") content
    end in
  let description := search (fieldAt "description:") content in
  let keywords := option_map splitKeywords (search keywordsAt content) in
  let ogTitle := search (openGraphFieldAt "title:") content in
  let ogDesc := search (openGraphFieldAt "description:") content in
  let ogUrl := search (openGraphFieldAt "url:") content in
  let ogType := search (openGraphFieldAt "type:") content in
  let openGraph :=
    match ogTitle, ogDesc, ogUrl, ogType with
    | None, None, None, None => None
    | _, _, _, _ =>
        Some {| og_title := ogTitle; og_description := ogDesc;
                og_url := ogUrl; og_type := ogType |}
    end in
  {| title := title; description := description; keywords := keywords;
     openGraph := openGraph |}.

Section WithFileSystem.
Variable fs : Fs.FileSystem.

Definition findLayoutFile (pagePath : string) : option string :=
  let dir := Path.dirname pagePath in
  let layoutTsx := Path.join [dir; "layout.tsx"] in
  if Fs.existsSync fs layoutTsx then Some layoutTsx
  else
    let layoutTs := Path.join [dir; "layout.ts"] in
    if Fs.existsSync fs layoutTs then Some layoutTs else None.

Definition extractMetadata (routeInfo : RouteInfo)
  : result (option RouteMetadata) :=
  match findLayoutFile (filePath routeInfo) with
  | None => Ok None
  | Some layoutPath =>
      if negb (Fs.existsSync fs layoutPath) then Ok None
      else
        do content <- Fs.readFileSync fs layoutPath;
        Ok (Some (parseMetadataFromContent content))
  end.

Fixpoint enrichRoutesWithMetadata (routes : list RouteInfo)
  : result (list RouteInfo) :=
  match routes with
  | [] => Ok []
  | r :: rest =>
      do metadata <- extractMetadata r;
      do enriched <- enrichRoutesWithMetadata rest;
      Ok ({| filePath := filePath r; urlPath := urlPath r; type := type r;
             metadata := metadata; content := content r;
             headings := headings r |} :: enriched)
  end.

End WithFileSystem.

End MetadataExtractor.

(* ================================================================== *)
(** * content-processor.ts *)
(* ================================================================== *)

Module ContentProcessor.

(** The name of a JSX element. *)
Inductive JSXName :=
  | JSXIdentifier (name : string)
  | JSXOtherName.

(** The syntax tree of a page, as far as the visitors look at it.  The
    children of a node are in the order the traversal visits them. *)
Inductive Node :=
  | StringLiteral (value : string)
  | TemplateLiteral (quasis : list (option string)) (expressions : list Node)
  | JSXText (value : string)
  | JSXElement (name : JSXName) (attributes : list Node) (children : list Node)
  | OtherNode (children : list Node).

Definition LF : ascii := "010"%char.
Definition blankLine : string := String LF (String LF "").

(** [value && value.trim().length > 0], then [value.trim()] *)
Definition trimmed (value : string) : list string :=
  let v := Js.trim value in
  if String.eqb v "" then [] else [v].

(** The texts the three visitors of [processContent] push, in order. *)
Fixpoint extractText (n : Node) : list string :=
  match n with
  | StringLiteral value => trimmed value
  | TemplateLiteral quasis expressions =>
      let cooked :=
        map (fun q => match MetadataExtractor.truthy q with
                      | Some c => c
                      | None => ""
                      end) quasis in
      (trimmed (Js.join " " cooked) ++ flat_map extractText expressions)%list
  | JSXText value => trimmed value
  | JSXElement _ attributes children =>
      (flat_map extractText attributes ++ flat_map extractText children)%list
  | OtherNode children => flat_map extractText children
  end.

(** [/\n{3,}/g], replaced by two line feeds. *)
Definition reBlankLines : Js.matcher := fun _ s =>
  let '(run, _) := Js.span (fun c => Js.ch c LF) s in
  if (3 <=? String.length run)%nat then Some (blankLine, String.length run)
  else None.

(** [/\s{2,}/g], replaced by one space. *)
Definition reSpaces : Js.matcher := fun _ s =>
  let '(run, _) := Js.span Js.isSpace s in
  if (2 <=? String.length run)%nat then Some (" ", String.length run)
  else None.

(** [maxContentLength = 50000] *)
Definition maxLength (options : ContentOptions) : Z :=
  match maxContentLength options with
  | Some n => n
  | None => 50000%Z
  end.

(** The truncation both extraction paths end with. *)
Definition truncate (max : Z) (s : string) : string :=
  if (Js.len s >? max)%Z then Js.substring0 max s ++ "..." else s.

(** The text of the primary path before it is truncated. *)
Definition processedContent (ast : Node) : string :=
  let processedContent := Js.join blankLine (extractText ast) in
  let processedContent := Js.replaceAll reBlankLines processedContent in
  Js.replaceAll reSpaces processedContent.

(** [/^import\s+.*$/gm] *)
Definition reImport : Js.matcher := fun prev s =>
  let atLineStart :=
    match prev with
    | None => true
    | Some c => Js.isLineTerminator c
    end in
  if atLineStart then
    match Js.stripPrefix "import" s with
    | Some rest =>
        let '(spaces, after) := Js.span Js.isSpace rest in
        if String.eqb spaces "" then None
        else
          let '(line, _) :=
            Js.span (fun c => negb (Js.isLineTerminator c)) after in
          Some ("", 6 + String.length spaces + String.length line)
    | None => None
    end
  else None.

(** The number of characters in front of the first [*/]. *)
Fixpoint untilCommentEnd (s : string) : option nat :=
  if Js.startsWith s "*/" then Some 0
  else match s with
       | EmptyString => None
       | String _ rest => option_map S (untilCommentEnd rest)
       end.

(** [/\/\*[\s\S]*?\*\//g] *)
Definition reBlockComment : Js.matcher := fun _ s =>
  match Js.stripPrefix "/*" s with
  | Some rest =>
      match untilCommentEnd rest with
      | Some n => Some ("", 4 + n)
      | None => None
      end
  | None => None
  end.

(** [/\/\/.*/g] *)
Definition reLineComment : Js.matcher := fun _ s =>
  match Js.stripPrefix "//" s with
  | Some rest =>
      let '(line, _) := Js.span (fun c => negb (Js.isLineTerminator c)) rest in
      Some ("", 2 + String.length line)
  | None => None
  end.

(** The expression of the three quoted forms, between single quotes, double
    quotes or backticks, with no such quote inside: the length of a match. *)
Definition reQuoted (s : string) : option nat :=
  match s with
  | EmptyString => None
  | String q rest =>
      if Js.ch q "'" || Js.ch q "034" || Js.ch q "`" then
        let '(inner, after) := Js.span (fun c => negb (Js.ch c q)) rest in
        match after with
        | EmptyString => None
        | String _ _ => Some (2 + String.length inner)
        end
      else None
  end.

(** The text of the fallback path before it is truncated. *)
Definition fallbackText (content : string) : string :=
  let processed := Js.replaceAll reImport content in
  let processed := Js.replaceAll reBlockComment processed in
  let processed := Js.replaceAll reLineComment processed in
  let strings := Js.matchG reQuoted 0 processed in
  Js.join blankLine
    (filter (fun s => negb (String.eqb (Js.trim s) ""))
            (map (fun s => Js.dropLast (Js.dropFirst s)) strings)).

Definition fallbackContentExtraction (content : string)
  (options : ContentOptions) : string :=
  truncate (maxLength options) (fallbackText content).

Section WithParser.
(** [parse(content, {sourceType: 'module', plugins: ['typescript', 'jsx']})]:
    the tree, or [None] when the parser throws. *)
Variable parse : string -> option Node.
Variable fs : Fs.FileSystem.
(** Whether the global scope binds an object to the name [routeInfo].  The
    handler of a parse failure builds its warning from [routeInfo.filePath],
    and [processContent] itself has no [routeInfo] in scope: where the name
    is not bound, evaluating the message raises a [ReferenceError] and the
    fallback behind it is not reached. *)
Variable routeInfoBound : bool.

Definition processContent (content : string) (options : ContentOptions)
  : result string :=
  match parse content with
  | Some ast => Ok (truncate (maxLength options) (processedContent ast))
  | None =>
      if routeInfoBound then Ok (fallbackContentExtraction content options)
      else Throw "ReferenceError: routeInfo is not defined"
  end.

Definition extractPageContent (routeInfo : RouteInfo)
  (options : ContentOptions) : result (option string) :=
  if negb (Fs.existsSync fs (filePath routeInfo)) then Ok None
  else
    do content <- Fs.readFileSync fs (filePath routeInfo);
    do text <- processContent content options;
    Ok (Some text).

(** [tag.match(/^h([1-6])$/)], then [parseInt(match[1])] *)
Definition headingLevel (tag : string) : option nat :=
  match tag with
  | String h (String d EmptyString) =>
      let n := nat_of_ascii d in
      if Js.ch h "h" && (49 <=? n)%nat && (n <=? 54)%nat then Some (n - 48)%nat
      else None
  | _ => None
  end.

Definition jsxTextOf (child : Node) : list string :=
  match child with
  | JSXText value => [Js.trim value]
  | _ => []
  end.

(** The headings the [JSXElement] visitor pushes, in order. *)
Fixpoint collectHeadings (n : Node) : list Heading :=
  match n with
  | JSXElement name attributes children =>
      let here :=
        match name with
        | JSXIdentifier tag =>
            match headingLevel tag with
            | Some lvl =>
                let text := Js.join " " (flat_map jsxTextOf children) in
                if String.eqb text "" then []
                else [{| level := lvl; text := text |}]
            | None => []
            end
        | JSXOtherName => []
        end in
      (here ++ flat_map collectHeadings attributes
            ++ flat_map collectHeadings children)%list
  | TemplateLiteral _ expressions => flat_map collectHeadings expressions
  | OtherNode children => flat_map collectHeadings children
  | StringLiteral _ | JSXText _ => []
  end.

Definition parseHeadings (content : string) : list Heading :=
  match parse content with
  | Some ast => collectHeadings ast
  | None => []
  end.

Definition extractHeadings (routeInfo : RouteInfo) : result (list Heading) :=
  if negb (Fs.existsSync fs (filePath routeInfo)) then Ok []
  else
    do content <- Fs.readFileSync fs (filePath routeInfo);
    Ok (parseHeadings content).

Fixpoint enrichRoutesWithContent (routes : list RouteInfo)
  (options : ContentOptions) : result (list RouteInfo) :=
  match routes with
  | [] => Ok []
  | r :: rest =>
      do content <- extractPageContent r options;
      do headings <- extractHeadings r;
      do enriched <- enrichRoutesWithContent rest options;
      Ok ({| filePath := filePath r; urlPath := urlPath r; type := type r;
             metadata := metadata r; content := content;
             headings := Some headings |} :: enriched)
  end.

End WithParser.

Definition formatContentForLLM (r : RouteInfo) : string :=
  let parts :=
    match headings r with
    | Some hs =>
        map (fun heading =>
               Js.repeat "#" (level heading) ++ " " ++ text heading) hs
    | None => []
    end in
  let parts :=
    match MetadataExtractor.truthy (content r) with
    | Some c => (parts ++ [c])%list
    | None => parts
    end in
  Js.join blankLine parts.

End ContentProcessor.

(* ================================================================== *)
(** * generator.ts *)
(* ================================================================== *)

Module Generator.
Import MetadataExtractor.

Definition newline : string := String ContentProcessor.LF "".

(** [source.pattern.replace('**', '')] inside [filePath.includes(...)] *)
Definition includesPattern (filePath pat : string) : bool :=
  Js.includes filePath (Js.removeFirst pat "**").

(** [const l = sections.get(k) || []; l.push(route); sections.set(k, l)] *)
Definition pushOrCreate (k : string) (r : RouteInfo)
  (sections : JsMap.t (list RouteInfo)) : JsMap.t (list RouteInfo) :=
  let l := match JsMap.get k sections with Some l => l | None => [] end in
  JsMap.set k (l ++ [r])%list sections.

Fixpoint assignByInclusion (r : RouteInfo) (srcs : list ContentSource)
  (sections : JsMap.t (list RouteInfo)) : JsMap.t (list RouteInfo) * bool :=
  match srcs with
  | [] => (sections, false)
  | source :: rest =>
      if includesPattern (filePath r) (pattern source)
      then (pushOrCreate (section source) r sections, true)
      else assignByInclusion r rest sections
  end.

Definition removeEmptySections (sections : JsMap.t (list RouteInfo))
  : JsMap.t (list RouteInfo) :=
  fold_left
    (fun m entry =>
       if (List.length (snd entry) =? 0)%nat then JsMap.delete (fst entry) m
       else m)
    sections sections.

Definition groupBySection (routes : list RouteInfo) (options : PluginOptions)
  : JsMap.t (list RouteInfo) :=
  let sections : JsMap.t (list RouteInfo) := [] in
  let sections :=
    match sources options with
    | Some srcs =>
        fold_left (fun m source => JsMap.set (section source) [] m) srcs sections
    | None => sections
    end in
  let sections :=
    if negb (JsMap.has "Pages" sections) then JsMap.set "Pages" [] sections
    else sections in
  let sections :=
    fold_left
      (fun m r =>
         let '(m', assigned) :=
           match sources options with
           | Some srcs => assignByInclusion r srcs m
           | None => (m, false)
           end in
         if negb assigned then pushOrCreate "Pages" r m' else m')
      routes sections in
  removeEmptySections sections.

(** [siteUrl.replace(/\/$/, '')] *)
Definition removeTrailingSlash (s : string) : string :=
  if Js.endsWithChar s "/" then Js.dropLast s else s.

Definition buildUrl (urlPath : string) (siteUrl : option string) : string :=
  match truthy siteUrl with
  | None => urlPath
  | Some siteUrl =>
      let baseUrl := removeTrailingSlash siteUrl in
      let path := if Js.startsWith urlPath "/" then urlPath else "/" ++ urlPath in
      baseUrl ++ path
  end.

(** [/`/g], replaced by a backslash and the backtick. *)
Definition reBacktick : Js.matcher := fun _ s =>
  match Js.stripPrefix "`" s with
  | Some _ => Some ("\`", 1)
  | None => None
  end.

(** The text put between the backticks of the handler. *)
Definition handlerBody (content : string) : string :=
  Js.replaceAll reBacktick content.

Definition generateRouteHandlerFile (content : string) : string :=
  "export const dynamic = 'force-static';

export function GET() {
  const markdown = `" ++ handlerBody content ++ "`;

  return new Response(markdown, {
    headers: {
      'Content-Type': 'text/plain; charset=utf-8',
    },
  });
}
".

Definition filterRoutesForCustomFile (routes : list RouteInfo)
  (customFile : CustomLLMFile) : list RouteInfo :=
  filter
    (fun r =>
       existsb (fun pat => Js.includes (filePath r) (Js.removeFirst pat "**"))
               (cf_includePatterns customFile))
    routes.

(** The lines [generateLLMsFullTxt] pushes for one route. *)
Definition fullRouteParts (options : PluginOptions) (r : RouteInfo)
  : list string :=
  let title := getBestTitle r in
  let url := buildUrl (urlPath r) (siteUrl options) in
  let parts := ["### " ++ title; ""; "URL: " ++ url; ""] in
  let parts :=
    match getBestDescription r with
    | Some d => (parts ++ [d; ""])%list
    | None => parts
    end in
  let parts :=
    match truthy (content r) with
    | Some _ => (parts ++ [ContentProcessor.formatContentForLLM r; ""])%list
    | None => parts
    end in
  (parts ++ ["---"; ""])%list.

Definition fullSectionParts (options : PluginOptions)
  (entry : string * list RouteInfo) : list string :=
  (["## " ++ fst entry; ""]%string ++ flat_map (fullRouteParts options) (snd entry))%list.

Definition fullItemParts (item : CustomSectionItem) : list string :=
  let parts := ["### " ++ item_title item; ""; "URL: " ++ item_url item; ""] in
  let parts :=
    match truthy (item_description item) with
    | Some d => (parts ++ [d; ""])%list
    | None => parts
    end in
  (parts ++ ["---"; ""])%list.

Definition fullCustomSectionParts (cs : CustomSection) : list string :=
  let parts := ["## " ++ cs_title cs; ""] in
  let parts :=
    match truthy (cs_description cs) with
    | Some d => (parts ++ [d; ""])%list
    | None => parts
    end in
  (parts ++ flat_map fullItemParts (cs_items cs))%list.

Definition generateLLMsFullTxt (routes : list RouteInfo)
  (options : PluginOptions) : string :=
  let parts :=
    ["# " ++ match truthy (opt_title options) with
             | Some t => t
             | None => "Documentation"
             end; ""] in
  let parts :=
    match truthy (opt_description options) with
    | Some d => (parts ++ ["> " ++ d; ""]%string)%list
    | None => parts
    end in
  let parts :=
    (parts ++
     ["This file contains all documentation content in a single document following the llmstxt.org standard.";
      ""; "---"; ""])%list in
  let sections := groupBySection routes options in
  let parts := (parts ++ flat_map (fullSectionParts options) sections)%list in
  let parts :=
    match customSections options with
    | Some css => (parts ++ flat_map fullCustomSectionParts css)%list
    | None => parts
    end in
  Js.join newline parts.

(** The line of a link: [- [title](url)], with [: description] behind it
    when there is one. *)
Definition linkLine (title url : string) (description : option string)
  : string :=
  match description with
  | Some d => "- [" ++ title ++ "](" ++ url ++ "): " ++ d
  | None => "- [" ++ title ++ "](" ++ url ++ ")"
  end.

Definition indexRouteLine (options : PluginOptions) (r : RouteInfo) : string :=
  let title := getBestTitle r in
  let description := getBestDescription r in
  let url := buildUrl (urlPath r) (siteUrl options) in
  linkLine title url description.

Definition indexSectionParts (options : PluginOptions)
  (entry : string * list RouteInfo) : list string :=
  (["## " ++ fst entry; ""]%string
   ++ map (indexRouteLine options) (snd entry) ++ [""])%list.

Definition indexCustomSectionParts (cs : CustomSection) : list string :=
  let parts := ["## " ++ cs_title cs; ""] in
  let parts :=
    match truthy (cs_description cs) with
    | Some d => (parts ++ [d; ""])%list
    | None => parts
    end in
  (parts
   ++ map (fun item =>
             linkLine (item_title item) (item_url item)
                      (truthy (item_description item)))
          (cs_items cs)
   ++ [""])%list.

Definition generateLLMsTxt (routes : list RouteInfo) (options : PluginOptions)
  : string :=
  let parts :=
    ["# " ++ match truthy (opt_title options) with
             | Some t => t
             | None => "Documentation"
             end; ""] in
  let parts :=
    match truthy (opt_description options) with
    | Some d => (parts ++ ["> " ++ d; ""]%string)%list
    | None => parts
    end in
  let sections := groupBySection routes options in
  let parts := (parts ++ flat_map (indexSectionParts options) sections)%list in
  let parts :=
    match customSections options with
    | Some css => (parts ++ flat_map indexCustomSectionParts css)%list
    | None => parts
    end in
  Js.join newline parts.

End Generator.

(* ================================================================== *)
(** * per-page-generator.ts *)
(* ================================================================== *)

Module PerPage.
Import MetadataExtractor.

Section PerPageEnvironment.
Variable minimatch : string -> string -> bool.
Variable cwd : string.

Definition matchesAny (relPath : string) (patterns : list string) : bool :=
  existsb
    (fun pat => minimatch relPath pat || minimatch relPath ("**/" ++ pat))
    patterns.

Definition filterRoutes (routes : list RouteInfo) (options : PluginOptions)
  : list RouteInfo :=
  let includePatterns :=
    match perPageOptions options with
    | Some pp => match pp_includePatterns pp with Some l => l | None => [] end
    | None => []
    end in
  let excludePatterns :=
    match perPageOptions options with
    | Some pp => match pp_excludePatterns pp with Some l => l | None => [] end
    | None => []
    end in
  filter
    (fun r =>
       let relPath := Scanner.relativePath cwd (filePath r) in
       if (0 <? List.length includePatterns)%nat
          && negb (matchesAny relPath includePatterns) then false
       else if (0 <? List.length excludePatterns)%nat
               && matchesAny relPath excludePatterns then false
       else true)
    routes.

End PerPageEnvironment.

(** [/\\/g], replaced by two backslashes. *)
Definition reEscapeBackslash : Js.matcher := fun _ s =>
  match Js.stripPrefix "\" s with
  | Some _ => Some ("\\", 1)
  | None => None
  end.

(** [/`/g], replaced by a backslash and the backtick. *)
Definition reEscapeBacktick : Js.matcher := fun _ s =>
  match Js.stripPrefix "`" s with
  | Some _ => Some ("\`", 1)
  | None => None
  end.

(** [/\$/g], replaced by a backslash and the dollar sign. *)
Definition reEscapeDollar : Js.matcher := fun _ s =>
  match Js.stripPrefix "$" s with
  | Some _ => Some ("\$", 1)
  | None => None
  end.

Definition escapedContent (markdownContent : string) : string :=
  Js.replaceAll reEscapeDollar
    (Js.replaceAll reEscapeBacktick
       (Js.replaceAll reEscapeBackslash markdownContent)).

Definition createRouteHandlerContent (markdownContent : string) : string :=
  "export const dynamic = 'force-static';

export function GET() {
  const markdown = `" ++ escapedContent markdownContent ++ "`;

  return new Response(markdown, {
    headers: {
      'Content-Type': 'text/markdown; charset=utf-8',
    },
  });
}
".

Definition getRouteHandlerPath (r : RouteInfo) (appDir : string) : string :=
  let routeDir := Path.dirname (filePath r) in
  let relativePath := Path.relative appDir routeDir in
  let pathWithoutGroups := Js.replaceAll Scanner.reRouteGroup relativePath in
  if String.eqb pathWithoutGroups "" || String.eqb pathWithoutGroups "." then
    Path.join [appDir; "index.html.md"; "route.ts"]
  else
    let segments := Js.split Path.sep pathWithoutGroups in
    let lastSegment := last segments "" in
    let segments := removelast segments in
    let parentPath :=
      if (0 <? List.length segments)%nat then Js.join "/" segments else "" in
    let htmlMdDir :=
      if negb (String.eqb parentPath "")
      then Path.join [appDir; parentPath; lastSegment ++ ".html.md"]
      else Path.join [appDir; lastSegment ++ ".html.md"] in
    Path.join [htmlMdDir; "route.ts"].

Definition buildUrl (urlPath : string) (siteUrl : option string) : string :=
  match truthy siteUrl with
  | None => urlPath
  | Some siteUrl =>
      let base :=
        if Js.endsWithChar siteUrl "/" then Js.dropLast siteUrl else siteUrl in
      let path := if Js.startsWith urlPath "/" then urlPath else "/" ++ urlPath in
      base ++ path
  end.

(** [options.perPageOptions?.includeMetadata !== false] *)
Definition includeMetadata (options : PluginOptions) : bool :=
  match perPageOptions options with
  | Some pp =>
      match pp_includeMetadata pp with
      | Some false => false
      | _ => true
      end
  | None => true
  end.

Definition createMarkdownContent (r : RouteInfo) (options : PluginOptions)
  : string :=
  let title := getBestTitle r in
  let description := getBestDescription r in
  let titled := negb (String.eqb title "") in
  let parts :=
    if includeMetadata options
       && (titled
           || match description with Some _ => true | None => false end
           || match truthy (siteUrl options) with
              | Some _ => true
              | None => false
              end)
    then
      (["---"]
       ++ (if titled then ["title: " ++ title]%string else [])
       ++ match description with
          | Some d => ["description: " ++ d]%string
          | None => []
          end
       ++ match truthy (siteUrl options) with
          | Some _ =>
              if negb (String.eqb (urlPath r) "")
              then ["url: " ++ buildUrl (urlPath r) (siteUrl options)]%string
              else []
          | None => []
          end
       ++ ["---"; ""])%list
    else [] in
  let parts := (parts ++ ["# " ++ title; ""]%string)%list in
  let parts :=
    match description with
    | Some d => (parts ++ ["> " ++ d; ""]%string)%list
    | None => parts
    end in
  let parts :=
    match truthy (content r) with
    | Some c => (parts ++ [Js.trim c])%list
    | None => parts
    end in
  Js.join Generator.newline parts.

End PerPage.

(** ** Reading a template literal back

    The text between the backticks of a template literal with no
    substitution, read the way the language reads it: a backslash gives the
    character behind it its plain meaning (of the escapes, the ones the
    generators write and the usual letters are covered); a backtick ends the
    literal and a dollar sign with a brace opens a substitution, so neither
    may stand there bare. *)

Module Template.

Definition escapeOf (c : ascii) : option ascii :=
  if Js.ch c "\" || Js.ch c "`" || Js.ch c "$" then Some c
  else if Js.ch c "n" then Some "010"%char
  else if Js.ch c "t" then Some "009"%char
  else if Js.ch c "r" then Some "013"%char
  else if Js.ch c "b" then Some "008"%char
  else if Js.ch c "f" then Some "012"%char
  else if Js.ch c "v" then Some "011"%char
  else None.

Fixpoint unescape (s : string) : option string :=
  match s with
  | EmptyString => Some EmptyString
  | String c rest =>
      if Js.ch c "\" then
        match rest with
        | EmptyString => None
        | String d rest' =>
            match escapeOf d, unescape rest' with
            | Some e, Some t => Some (String e t)
            | _, _ => None
            end
        end
      else if Js.ch c "`" then None
      else if Js.ch c "$" && Js.startsWith rest "{" then None
      else option_map (String c) (unescape rest)
  end.

End Template.

(* ================================================================== *)
(** * index.ts: the build hook *)
(* ================================================================== *)

Module Plugin.

(** What one call of the [beforeCompile] hook does, in order. *)
Inductive Event :=
  | SkippedInDevelopment   (* the log line of [skipInDevelopment] *)
  | Generated              (* [generateLLMFiles] ran to its end *)
  | GenerationFailed       (* it threw, and the hook logged the error *)
  | Callback.              (* [callback()] *)

(** The hook of [LLMsTxtWebpackPlugin.apply]: the state is the field
    [hasRun]; [generate] tells whether [generateLLMFiles] throws. *)
Definition beforeCompile (isDevelopment : bool) (skipInDevelopment : bool)
  (generate : result unit) (hasRun : bool) : bool * list Event :=
  if hasRun then (hasRun, [Callback])
  else if isDevelopment && skipInDevelopment then
    (true, [SkippedInDevelopment; Callback])
  else
    (true,
     [match generate with Ok _ => Generated | Throw _ => GenerationFailed end;
      Callback]).

(** The hook called once per compilation, with the outcome generation would
    have at each of them. *)
Fixpoint compilations (isDevelopment skipInDevelopment : bool)
  (outcomes : list (result unit)) (hasRun : bool) : bool * list Event :=
  match outcomes with
  | [] => (hasRun, [])
  | generate :: later =>
      let '(hasRun', events) :=
        beforeCompile isDevelopment skipInDevelopment generate hasRun in
      let '(final, events') :=
        compilations isDevelopment skipInDevelopment later hasRun' in
      (final, (events ++ events')%list)
  end.

Definition isAttempt (e : Event) : bool :=
  match e with
  | Generated | GenerationFailed => true
  | _ => false
  end.

Definition isCallback (e : Event) : bool :=
  match e with
  | Callback => true
  | _ => false
  end.

Section Pipeline.
Variable minimatch : string -> string -> bool.
Variable cwd : string.
Variable localeCompare : string -> string -> Z.
Variable fs : Fs.FileSystem.
Variable parse : string -> option ContentProcessor.Node.
Variable routeInfoBound : bool.

(** Steps 1 to 4 of [generateLLMFiles]: the routes that are handed to
    [writeGeneratedFiles], or nothing when no route is found and the
    generation is skipped. *)
Definition preparedRoutes (options : PluginOptions)
  : result (option (list RouteInfo)) :=
  let dir :=
    match MetadataExtractor.truthy (appDir options) with
    | Some d => d
    | None => "app"
    end in
  do routes <- Scanner.scanAppDirectory minimatch cwd fs dir options;
  if (List.length routes =? 0)%nat then Ok None
  else
    do routes <- MetadataExtractor.enrichRoutesWithMetadata fs routes;
    do routes <-
      ContentProcessor.enrichRoutesWithContent parse fs routeInfoBound routes
        match contentOptions options with
        | Some c => c
        | None => {| maxContentLength := None |}
        end;
    Ok (Some (Scanner.sortRoutesByPriority minimatch cwd localeCompare
                routes options)).

End Pipeline.

End Plugin.

(* ================================================================== *)
(** * Sections and ranks, as the specification words them *)
(* ================================================================== *)

Module Grouping.

(** The routes of section [k], in their order. *)
Definition bucket (sectionOf : RouteInfo -> string) (k : string)
  (routes : list RouteInfo) : list RouteInfo :=
  filter (fun r => String.eqb (sectionOf r) k) routes.

(** The map that holds, for each key of [keys], the routes of that section. *)
Definition table (sectionOf : RouteInfo -> string) (keys : list string)
  (routes : list RouteInfo) : JsMap.t (list RouteInfo) :=
  map (fun k => (k, bucket sectionOf k routes)) keys.

(** The keys after one more [set]. *)
Definition addKey (keys : list string) (k : string) : list string :=
  if existsb (String.eqb k) keys then keys else (keys ++ [k])%list.

(** The keys after the loop that creates the sections of the sources. *)
Definition keysAfter (keys : list string) (srcs : list ContentSource)
  : list string :=
  fold_left (fun ks source => addKey ks (section source)) srcs keys.

(** The keys of the sections, in the order the scanner and the generator
    create them. *)
Definition scannerKeys (options : PluginOptions) : list string :=
  match sources options with
  | Some srcs => keysAfter ["Pages"] srcs
  | None => ["Pages"]
  end.

Definition generatorKeys (options : PluginOptions) : list string :=
  addKey match sources options with
         | Some srcs => keysAfter [] srcs
         | None => []
         end "Pages".

Definition nonEmptyEntry (entry : string * list RouteInfo) : bool :=
  negb (List.length (snd entry) =? 0)%nat.

(** The section of a route: the section of the first source, in the order
    of declaration, whose pattern it matches, and ["Pages"] when there is
    none. *)
Definition sectionBy (matches : RouteInfo -> ContentSource -> bool)
  (options : PluginOptions) (r : RouteInfo) : string :=
  match sources options with
  | Some srcs =>
      match find (matches r) srcs with
      | Some source => section source
      | None => "Pages"
      end
  | None => "Pages"
  end.

Definition scannerMatches (minimatch : string -> string -> bool) (cwd : string)
  (r : RouteInfo) (source : ContentSource) : bool :=
  Scanner.matchesPattern minimatch (Scanner.relativePath cwd (filePath r))
                         (pattern source).

Definition generatorMatches (r : RouteInfo) (source : ContentSource) : bool :=
  Generator.includesPattern (filePath r) (pattern source).

(** The rank the comparison function of [sortRoutesByPriority] gives a
    route.  Its loop over the sources has no [break]: every source the
    route matches overwrites the rank, so the LAST matching source decides
    (medium when that source names no tier, and medium when the route
    matches none). *)
Definition rank (minimatch : string -> string -> bool) (cwd : string)
  (options : PluginOptions) (r : RouteInfo) : Z :=
  match sources options with
  | Some srcs =>
      match find (scannerMatches minimatch cwd r) (rev srcs) with
      | Some source =>
          match priority source with
          | Some high => 3
          | Some medium => 2
          | Some low => 1
          | None => 2
          end
      | None => 2
      end
  | None => 2
  end%Z.

(** The rank of a route as the specification has it: that of its matched
    tier, the tier of the FIRST source it matches, which is the source that
    gives the route its section (medium when that source names no tier, and
    medium when the route matches none). *)
Definition matchedRank (minimatch : string -> string -> bool) (cwd : string)
  (options : PluginOptions) (r : RouteInfo) : Z :=
  match sources options with
  | Some srcs =>
      match find (scannerMatches minimatch cwd r) srcs with
      | Some source =>
          match priority source with
          | Some high => 3
          | Some medium => 2
          | Some low => 1
          | None => 2
          end
      | None => 2
      end
  | None => 2
  end%Z.

(** [a] may stand before [b] for the comparison function: a higher [rank],
    or the same [rank] and a URL path that does not come later. *)
Definition inOrder (minimatch : string -> string -> bool) (cwd : string)
  (localeCompare : string -> string -> Z) (options : PluginOptions)
  (a b : RouteInfo) : Prop :=
  (rank minimatch cwd options a > rank minimatch cwd options b)%Z \/
  (rank minimatch cwd options a = rank minimatch cwd options b /\
   (localeCompare (urlPath a) (urlPath b) <= 0)%Z).

End Grouping.

(* ================================================================== *)
(** * Sample inputs *)
(* ================================================================== *)

Module Examples.

(** A stand-in for [minimatch], enough for patterns of the form [dir/**]
    and [**/dir/**]: the path has the directory [dir] in it. *)
Definition directoryGlob (path pat : string) : bool :=
  let dir := Js.removeFirst (Js.removeFirst pat "**/") "/**" in
  Js.includes ("/" ++ path) ("/" ++ dir ++ "/").

Definition pageAt (f u : string) : RouteInfo := mkRoute f u page.

Definition withSources (srcs : list ContentSource) : PluginOptions :=
  {| generatePerPageMarkdown := None; perPageOptions := None;
     opt_title := None; opt_description := None; siteUrl := None;
     appDir := None; excludePatterns := None; sources := Some srcs;
     customSections := None; contentOptions := None; customFiles := None |}.

(** The routes and sources of the priority test of the scanner. *)
Definition blog := pageAt "/app/blog/page.tsx" "/blog".
Definition products := pageAt "/app/products/page.tsx" "/products".
Definition docs := pageAt "/app/docs/page.tsx" "/docs".

Definition tiers : PluginOptions :=
  withSources
    [ {| section := "Products"; pattern := "products/**"; priority := Some high |};
      {| section := "Blog"; pattern := "blog/**"; priority := Some low |};
      {| section := "Docs"; pattern := "docs/**"; priority := Some medium |} ].

(** An app directory with a root page, a plain page, a page inside a route
    group next to its layout, and an API route. *)
Definition appTree : list Fs.Dirent :=
  [ Fs.File "page.tsx";
    Fs.Directory "about" [Fs.File "page.tsx"];
    Fs.Directory "(marketing)"
      [Fs.Directory "contact" [Fs.File "layout.tsx"; Fs.File "page.tsx"]];
    Fs.Directory "api" [Fs.Directory "hello" [Fs.File "route.ts"]] ].

Definition appFs : Fs.FileSystem :=
  {| Fs.directories :=
       fun p => if String.eqb p "/test-app/app" then Some appTree else None;
     Fs.files := fun _ => None |}.

(** The tree of [<div><h1>Our Products</h1><p>We offer amazing
    products.</p></div>] inside a component. *)
Definition productsTree : ContentProcessor.Node :=
  ContentProcessor.OtherNode
    [ ContentProcessor.JSXElement (ContentProcessor.JSXIdentifier "div") []
        [ ContentProcessor.JSXText "
  ";
          ContentProcessor.JSXElement (ContentProcessor.JSXIdentifier "h1") []
            [ContentProcessor.JSXText "Our Products"];
          ContentProcessor.JSXElement (ContentProcessor.JSXIdentifier "p") []
            [ContentProcessor.JSXText "We offer amazing   products."] ] ].

(** A page that matches two sources of different tiers, and a page that
    matches none. *)
Definition docsApi := pageAt "/app/docs/api/page.tsx" "/docs/api".
Definition about := pageAt "/app/about/page.tsx" "/about".

Definition overlapping : PluginOptions :=
  withSources
    [ {| section := "Docs"; pattern := "docs/**"; priority := Some high |};
      {| section := "API"; pattern := "docs/api/**"; priority := Some low |} ].

(** The source of a page that does not parse: its element is not
    closed. *)
Definition brokenPage : string :=
  "const title = 'Hello World'; export default () => <div>".

Definition withExcludes (patterns : list string) : PluginOptions :=
  {| generatePerPageMarkdown := None; perPageOptions := None;
     opt_title := None; opt_description := None; siteUrl := None;
     appDir := None; excludePatterns := Some patterns; sources := None;
     customSections := None; contentOptions := None; customFiles := None |}.

(** An app directory with a directory in it that cannot be read. *)
Definition lockedFs : Fs.FileSystem :=
  {| Fs.directories :=
       fun p =>
         if String.eqb p "/test-app/app"
         then Some [ Fs.File "page.tsx";
                     Fs.Directory "about" [Fs.File "page.tsx"];
                     Fs.Directory "private"
                       [Fs.Unreadable "vault" "EACCES: permission denied"] ]
         else None;
     Fs.files := fun _ => None |}.

(** A file system with nothing in it. *)
Definition emptyFs : Fs.FileSystem :=
  {| Fs.directories := fun _ => None; Fs.files := fun _ => None |}.

(** The sales file of the custom-files example of the repository. *)
Definition salesFile : CustomLLMFile :=
  {| filename := "llms-sales.txt";
     cf_title := "TurboDocx for Sales Teams";
     cf_description := "Solutions for sales professionals";
     cf_includePatterns := ["app/use-cases/sales-teams/**"; "app/products/**"];
     fullContent := Some true;
     cf_excludePatterns := Some ["**/developers/**"] |}.

Definition developersPage : RouteInfo :=
  pageAt "/site/app/products/developers/page.tsx" "/products/developers".

(** Per-page options with the patterns of the sales file. *)
Definition salesPerPage : PluginOptions :=
  {| generatePerPageMarkdown := Some true;
     perPageOptions :=
       Some {| pp_includeMetadata := None;
               pp_includePatterns := Some (cf_includePatterns salesFile);
               pp_excludePatterns := cf_excludePatterns salesFile |};
     opt_title := None; opt_description := None; siteUrl := None;
     appDir := None; excludePatterns := None; sources := None;
     customSections := None; contentOptions := None; customFiles := None |}.

(** The route of the formatter's test that has a heading and no content. *)
Definition headingsOnly : RouteInfo :=
  {| filePath := "/app/products/page.tsx"; urlPath := "/products";
     type := page; metadata := None; content := None;
     headings := Some [ {| level := 1; text := "Products" |} ] |}.

(** A document with a backslash and a dollar sign in it. *)
Definition priceNote : string := "C:\new costs ${price}".

Definition overviewPage : RouteInfo :=
  pageAt "/test-app/app/dashboard/(overview)/page.tsx" "/dashboard/".

(** A products page next to its layout. *)
Definition productsLayout : string :=
  "export const metadata = { title: 'Products | TurboDocx', description: 'All products' }".

Definition layoutFs : Fs.FileSystem :=
  {| Fs.directories :=
       fun p =>
         if String.eqb p "/app"
         then Some [Fs.Directory "products"
                      [Fs.File "layout.tsx"; Fs.File "page.tsx"]]
         else None;
     Fs.files :=
       fun p =>
         if String.eqb p "/app/products/layout.tsx" then Some productsLayout
         else if String.eqb p "/app/products/page.tsx"
              then Some "<div>...</div>"
              else None |}.

End Examples.

(* ================================================================== *)
(** * Words of the specification about URLs, escapes and headings *)
(* ================================================================== *)

Module Wording.

(** The base with a trailing slash stripped. *)
Definition stripTrailingSlash (base : string) : string :=
  if Js.endsWithChar base "/" then Js.dropLast base else base.

(** The path given a leading slash. *)
Definition withLeadingSlash (path : string) : string :=
  if Js.startsWith path "/" then path else "/" ++ path.

Definition endsWithTwoSlashes (s : string) : bool :=
  Js.endsWithChar s "/" && Js.endsWithChar (Js.dropLast s) "/".

(** The escape of one character: a backslash in front of a backslash, a
    backtick or a dollar sign. *)
Definition escapeChar (c : ascii) : string :=
  if Js.ch c "\" || Js.ch c "`" || Js.ch c "$"
  then String "\" (String c "")
  else String c "".

Fixpoint escape (s : string) : string :=
  match s with
  | EmptyString => EmptyString
  | String c rest => escapeChar c ++ escape rest
  end.

(** A route with other headings, when it has no content. *)
Definition replaceHeadings (h : RouteInfo -> option (list Heading))
  (r : RouteInfo) : RouteInfo :=
  match MetadataExtractor.truthy (content r) with
  | Some _ => r
  | None =>
      {| filePath := filePath r; urlPath := urlPath r; type := type r;
         metadata := metadata r; content := content r; headings := h r |}
  end.

(** A line of the heading block. *)
Definition headingLine (heading : Heading) : string :=
  Js.repeat "#" (level heading) ++ " " ++ text heading.

End Wording.

(* ================================================================== *)
(** * Paths as lists of routing segments

    The directory of a page, relative to the app directory, read the way
    the framework reads it: a list of segments.  [renderPath] is the path
    such a list stands for; the functions of [scanner.ts] only ever see the
    rendered text. *)
(* ================================================================== *)

Module Segments.

Inductive Segment :=
  | Static (name : string)             (* [name] *)
  | Group (name : string)              (* [(name)] *)
  | Dynamic (name : string)            (* [[name]] *)
  | CatchAll (name : string)           (* [[...name]] *)
  | OptionalCatchAll (name : string).  (* [[[...name]]] *)

Definition nonEmpty (s : string) : bool := negb (String.eqb s "").

(** A character of a plain directory name: none of the characters the
    routing conventions give a meaning to, and no separator. *)
Definition plainChar (c : ascii) : bool :=
  negb (Js.ch c "(") && negb (Js.ch c "[") && negb (Js.ch c "\")
  && negb (Js.ch c "/").

Definition groupChar (c : ascii) : bool :=
  negb (Js.ch c ")") && negb (Js.ch c "\").

(** A character of the name of a dynamic segment: a plain one other than
    the closing bracket. *)
Definition dynamicChar (c : ascii) : bool :=
  plainChar c && negb (Js.ch c "]").

(** The name is three dots and a word: between brackets it reads as a
    catch-all, not as a dynamic segment. *)
Definition isCatchAllName (n : string) : bool :=
  match Js.stripPrefix "..." n with
  | Some w => nonEmpty w && Js.all Js.isWord w
  | None => false
  end.

(** The directory names of the conventions.  The name of a dynamic segment
    is free but for the characters above (so [[user-id]] is one); the names
    of the two catch-alls are words, as the expressions ask. *)
Definition wfSegment (s : Segment) : bool :=
  match s with
  | Static n => nonEmpty n && Js.all plainChar n
  | Group n => nonEmpty n && Js.all groupChar n
  | Dynamic n =>
      nonEmpty n && (Js.all dynamicChar n && negb (isCatchAllName n))
  | CatchAll n | OptionalCatchAll n => nonEmpty n && Js.all Js.isWord n
  end.

Definition isGroup (s : Segment) : bool :=
  match s with Group _ => true | _ => false end.

(** The directory name of a segment. *)
Definition dirName (s : Segment) : string :=
  match s with
  | Static n => n
  | Group n => "(" ++ n ++ ")"
  | Dynamic n => "[" ++ n ++ "]"
  | CatchAll n => "[..." ++ n ++ "]"
  | OptionalCatchAll n => "[[..." ++ n ++ "]]"
  end.

(** The URL segment the conventions give it; a group gives none. *)
Definition urlSegment (s : Segment) : string :=
  match s with
  | Static n => n
  | Group _ => ""
  | Dynamic n => ":" ++ n
  | CatchAll _ => "*"
  | OptionalCatchAll n => ":" ++ n
  end.

Definition renderPath (segs : list Segment) : string :=
  Js.join "/" (map dirName segs).




(** The URL path of a list of segments: the URL segments of those that are
    not groups, joined by slashes. *)
Definition urlOfSegments (segs : list Segment) : string :=
  "/" ++ Js.join "/" (map urlSegment (filter (fun s => negb (isGroup s)) segs)).

(** The last segment of the path is a group, and some segment is not. *)
Definition endsWithGroup (segs : list Segment) : bool :=
  isGroup (last segs (Static "")) && existsb (fun s => negb (isGroup s)) segs.

(** The text the scanner has in hand once the groups are gone: a group
    goes with the slash that follows it, and the other segments are written
    by [f]. *)
Fixpoint renderNoGroups (f : Segment -> string) (segs : list Segment) : string :=
  match segs with
  | [] => ""
  | s :: rest =>
      if isGroup s then renderNoGroups f rest
      else f s ++ match rest with
                  | [] => ""
                  | _ => "/" ++ renderNoGroups f rest
                  end
  end.

(** The directory names after the optional catch-all pass, and after the
    catch-all pass. *)
Definition afterOptional (s : Segment) : string :=
  match s with
  | OptionalCatchAll n => ":" ++ n
  | _ => dirName s
  end.

Definition afterCatchAll (s : Segment) : string :=
  match s with
  | OptionalCatchAll n => ":" ++ n
  | CatchAll _ => "*"
  | _ => dirName s
  end.

End Segments.

(* ================================================================== *)
(** * Vocabulary of the further properties *)
(* ================================================================== *)

Module Properties.
Import Js.

(** The characters none of the five expressions of [filePathToUrlPath] can
    start a match at. *)
Definition urlChar (c : ascii) : bool :=
  isNot "\" c && isNot "(" c && isNot "[" c.

(** The exclusion patterns a configuration adds to the built-in ones. *)
Definition excludesOf (options : PluginOptions) : list string :=
  match excludePatterns options with Some l => l | None => [] end.

(** What holds of a route found under [appDir] with exclusions [options]. *)
Definition discovered (minimatch : string -> string -> bool)
  (options : PluginOptions) (appDir : string) (r : RouteInfo) : Prop :=
  (exists dir name,
      filePath r = Path.join [dir; name] /\
      (name = "page.tsx" \/ name = "page.ts")) /\
  type r = page /\
  urlPath r
  = Scanner.filePathToUrlPath
      (Path.relative appDir (Path.dirname (filePath r))) /\
  startsWith (urlPath r) "/" = true /\
  Scanner.shouldExclude minimatch (Path.relative appDir (filePath r))
    (excludesOf options)
  = false /\
  metadata r = None /\ content r = None /\ headings r = None.

(** The text starts with a white-space character. *)
Definition headSpace (s : string) : bool :=
  match s with
  | EmptyString => false
  | String c _ => isSpace c
  end.

(** No two white-space characters stand side by side. *)
Fixpoint noSpaceRun (s : string) : bool :=
  match s with
  | EmptyString => true
  | String c rest => negb (isSpace c && headSpace rest) && noSpaceRun rest
  end.

(** A heading as the formatter can render it: a level from 1 to 6 and a
    text that is not empty. *)
Definition wellFormedHeading (h : Heading) : Prop :=
  (1 <= level h <= 6)%nat /\ text h <> "".

(** Two routes that differ in their metadata at most. *)
Definition sameButMetadata (r e : RouteInfo) : Prop :=
  filePath e = filePath r /\ urlPath e = urlPath r /\ type e = type r /\
  content e = content r /\ headings e = headings r.

(** Two routes that differ in their content and headings at most. *)
Definition sameButContent (r e : RouteInfo) : Prop :=
  filePath e = filePath r /\ urlPath e = urlPath r /\ type e = type r /\
  metadata e = metadata r.

(** Two routes for the same page: the same file, URL path and type. *)
Definition samePage (r e : RouteInfo) : Prop :=
  filePath e = filePath r /\ urlPath e = urlPath r /\ type e = type r.

(** A value the parser of metadata can capture: no quote of either kind
    and no line break in it. *)
Definition plainValue (v : string) : bool :=
  all (fun c => negb (MetadataExtractor.isQuote c)
                && negb (isLineTerminator c)) v.

(** The first letter of the word, if it has one, has its capital among
    the code units of the embedding. *)
Definition capitalizable (word : string) : bool :=
  match word with
  | EmptyString => true
  | String c _ => upperInRange c
  end.

(** The pattern matches the path as it is written or behind any
    directories. *)
Definition matchesGlob (minimatch : string -> string -> bool)
  (relPath pat : string) : Prop :=
  minimatch relPath pat = true \/ minimatch relPath ("**/" ++ pat) = true.

(** A property of a value that may be missing. *)
Definition whenSet (P : string -> bool) (o : option string) : bool :=
  match o with
  | Some v => P v
  | None => true
  end.

(** A keyword as the parser can return it: not empty, and with no quote
    and no comma in it. *)
Definition cleanKeyword (k : string) : Prop :=
  k <> "" /\
  all (fun c => negb (MetadataExtractor.isQuote c)) k = true /\
  all (isNot ",") k = true.

End Properties.

(* ================================================================== *)
(** * Facts about strings and global replacement *)
(* ================================================================== *)

Module JsFacts.
Import Js.

Lemma app_assoc (a b c : string) : (a ++ b) ++ c = a ++ (b ++ c).
Proof. induction a as [|x a IH]; simpl; [reflexivity | now rewrite IH]. Qed.

Lemma app_nil_r (a : string) : a ++ "" = a.
Proof. induction a as [|x a IH]; simpl; [reflexivity | now rewrite IH]. Qed.

Lemma length_app (a b : string) :
  String.length (a ++ b) = (String.length a + String.length b)%nat.
Proof. induction a as [|x a IH]; simpl; [reflexivity | now rewrite IH]. Qed.

Lemma ch_refl c : ch c c = true.
Proof. apply Ascii.eqb_refl. Qed.

Lemma ch_eq c d : ch c d = true -> c = d.
Proof. apply Ascii.eqb_eq. Qed.

Lemma ch_neq c d : c <> d -> ch c d = false.
Proof. apply Ascii.eqb_neq. Qed.

Lemma all_app p a b : all p (a ++ b) = all p a && all p b.
Proof.
  induction a as [|x a IH]; simpl; [reflexivity|].
  now rewrite IH, andb_assoc.
Qed.

Lemma all_impl (p q : ascii -> bool) s :
  (forall c, p c = true -> q c = true) -> all p s = true -> all q s = true.
Proof.
  intros Hpq. induction s as [|x s IH]; simpl; [reflexivity|].
  intros H. apply andb_true_iff in H as [Hx Hs].
  now rewrite (Hpq _ Hx), IH.
Qed.

(** [span] stops at the first character that fails the test. *)
Lemma span_all p a c t :
  all p a = true -> p c = false -> span p (a ++ String c t) = (a, String c t).
Proof.
  intros Ha Hc. induction a as [|x a IH]; simpl in *.
  - now rewrite Hc.
  - apply andb_true_iff in Ha as [Hx Ha]. now rewrite Hx, (IH Ha).
Qed.

Lemma span_all_end p a : all p a = true -> span p a = (a, "").
Proof.
  intros Ha. induction a as [|x a IH]; simpl in *; [reflexivity|].
  apply andb_true_iff in Ha as [Hx Ha]. now rewrite Hx, (IH Ha).
Qed.

Lemma stripPrefix_app p t : stripPrefix p (p ++ t) = Some t.
Proof.
  induction p as [|x p IH]; simpl; [reflexivity|]. now rewrite ch_refl.
Qed.

Lemma startsWith_app p t : startsWith (p ++ t) p = true.
Proof. unfold startsWith. now rewrite stripPrefix_app. Qed.

(** Comparison of two character literals. *)
Ltac ch_lit :=
  repeat match goal with
  | |- context [ch (Ascii ?a0 ?a1 ?a2 ?a3 ?a4 ?a5 ?a6 ?a7)
                   (Ascii ?b0 ?b1 ?b2 ?b3 ?b4 ?b5 ?b6 ?b7)] =>
      let t := constr:(ch (Ascii a0 a1 a2 a3 a4 a5 a6 a7)
                          (Ascii b0 b1 b2 b3 b4 b5 b6 b7)) in
      let v := eval vm_compute in t in
      change t with v
  end.

Section ReplaceG.
Variable m : matcher.
(** The expression has no [^]: the character before is not looked at. *)
Hypothesis m_prev : forall p q s, m p s = m q s.

Lemma replaceG_prev p q k s : replaceG m p k s = replaceG m q k s.
Proof.
  destruct s as [|c s]; [reflexivity|].
  simpl. destruct k; [|reflexivity].
  now rewrite (m_prev p q).
Qed.

(** The characters of a match are passed over. *)
Lemma replaceG_skip u : forall p q s,
  replaceG m p (String.length u) (u ++ s) = replaceG m q 0 s.
Proof.
  induction u as [|c u IH]; intros p q s; simpl.
  - apply replaceG_prev.
  - apply IH.
Qed.

(** A match at the start of the text is replaced, and the scan goes on
    behind it. *)
Lemma replaceG_match c blk repl p q s :
  m p (String c blk ++ s) = Some (repl, S (String.length blk)) ->
  replaceG m p 0 (String c blk ++ s) = repl ++ replaceG m q 0 s.
Proof.
  intros H. simpl in *. rewrite H. simpl. f_equal. apply replaceG_skip.
Qed.

Lemma replaceG_none p c s :
  m p (String c s) = None ->
  replaceG m p 0 (String c s) = String c (replaceG m (Some c) 0 s).
Proof. intros H. simpl. now rewrite H. Qed.

(** Characters that start no match are copied. *)
Lemma replaceG_inert (P : ascii -> bool) u : 
  (forall c t p, P c = true -> m p (String c t) = None) ->
  all P u = true ->
  forall p q s, replaceG m p 0 (u ++ s) = u ++ replaceG m q 0 s.
Proof.
  intros HP. induction u as [|c u IH]; intros Hu p q s; simpl in *.
  - apply replaceG_prev.
  - apply andb_true_iff in Hu as [Hc Hu].
    rewrite (HP c (u ++ s) p Hc). f_equal. now apply IH.
Qed.

Lemma replaceG_inert_end (P : ascii -> bool) u :
  (forall c t p, P c = true -> m p (String c t) = None) ->
  all P u = true ->
  forall p, replaceG m p 0 u = u.
Proof.
  intros HP Hu p.
  rewrite <- (app_nil_r u) at 1.
  rewrite (replaceG_inert P u HP Hu p None ""). simpl. apply app_nil_r.
Qed.
End ReplaceG.

End JsFacts.

(* ================================================================== *)
(** * scanner.ts: URL derivation *)
(* ================================================================== *)

Module ScannerFacts.
Import Js JsFacts Segments Scanner.

Lemma nonEmpty_cons n :
  nonEmpty n = true -> exists c n', n = String c n'.
Proof. destruct n as [|c n']; [discriminate | now exists c, n']. Qed.

Lemma nonEmpty_eqb n : nonEmpty n = true -> String.eqb n "" = false.
Proof. unfold nonEmpty. now destruct (String.eqb n ""). Qed.

(** ** The five expressions never look behind, and only one character
    can start a match of each. *)

Lemma reBackslash_prev p q s : reBackslash p s = reBackslash q s.
Proof. reflexivity. Qed.
Lemma reRouteGroup_prev p q s : reRouteGroup p s = reRouteGroup q s.
Proof. reflexivity. Qed.
Lemma reOptionalCatchAll_prev p q s :
  reOptionalCatchAll p s = reOptionalCatchAll q s.
Proof. reflexivity. Qed.
Lemma reCatchAll_prev p q s : reCatchAll p s = reCatchAll q s.
Proof. reflexivity. Qed.
Lemma reDynamic_prev p q s : reDynamic p s = reDynamic q s.
Proof. reflexivity. Qed.

Lemma isNot_ch d c : isNot d c = true -> ch d c = false.
Proof.
  unfold isNot, ch. rewrite Ascii.eqb_sym. now destruct (Ascii.eqb d c).
Qed.

Lemma reBackslash_inert c t p : isNot "\" c = true -> reBackslash p (String c t) = None.
Proof. intros H. unfold reBackslash. simpl. now rewrite (isNot_ch _ _ H). Qed.

Lemma reRouteGroup_inert c t p : isNot "(" c = true -> reRouteGroup p (String c t) = None.
Proof. intros H. unfold reRouteGroup. simpl. now rewrite (isNot_ch _ _ H). Qed.

Lemma reOptionalCatchAll_inert c t p :
  isNot "[" c = true -> reOptionalCatchAll p (String c t) = None.
Proof. intros H. unfold reOptionalCatchAll. simpl. now rewrite (isNot_ch _ _ H). Qed.

Lemma reCatchAll_inert c t p : isNot "[" c = true -> reCatchAll p (String c t) = None.
Proof. intros H. unfold reCatchAll. simpl. now rewrite (isNot_ch _ _ H). Qed.

Lemma reDynamic_inert c t p : isNot "[" c = true -> reDynamic p (String c t) = None.
Proof. intros H. unfold reDynamic. simpl. now rewrite (isNot_ch _ _ H). Qed.

(** ** Characters of names *)

Lemma isWord_not c d : isWord d = false -> isWord c = true -> isNot d c = true.
Proof.
  intros Hd Hc. unfold isNot, ch.
  destruct (Ascii.eqb c d) eqn:E; [|reflexivity].
  apply Ascii.eqb_eq in E. subst. congruence.
Qed.

Lemma word_all_not d n :
  isWord d = false -> Js.all isWord n = true -> Js.all (isNot d) n = true.
Proof. intros Hd. apply all_impl. intros c. now apply isWord_not. Qed.

Lemma plain_not_paren c : plainChar c = true -> isNot "(" c = true.
Proof. unfold plainChar, isNot. intros H. now repeat (apply andb_true_iff in H as [H ?]). Qed.
Lemma plain_not_bracket c : plainChar c = true -> isNot "[" c = true.
Proof. unfold plainChar, isNot. intros H. now repeat (apply andb_true_iff in H as [H ?]). Qed.
Lemma plain_not_backslash c : plainChar c = true -> isNot "\" c = true.
Proof. unfold plainChar, isNot. intros H. now repeat (apply andb_true_iff in H as [H ?]). Qed.
Lemma plain_not_slash c : plainChar c = true -> isNot "/" c = true.
Proof. unfold plainChar, isNot. intros H. now repeat (apply andb_true_iff in H as [H ?]). Qed.
Lemma group_not_close c : groupChar c = true -> isNot ")" c = true.
Proof. unfold groupChar, isNot. intros H. now apply andb_true_iff in H as [H ?]. Qed.
Lemma group_not_backslash c : groupChar c = true -> isNot "\" c = true.
Proof. unfold groupChar, isNot. intros H. now apply andb_true_iff in H as [? H]. Qed.

Lemma all_concat P sep l :
  Js.all P sep = true ->
  Forall (fun x => Js.all P x = true) l ->
  Js.all P (String.concat sep l) = true.
Proof.
  intros Hsep. induction 1 as [|x l Hx Hl IH]; simpl; [reflexivity|].
  destruct l as [|y l]; [exact Hx|].
  now rewrite !all_app, Hx, Hsep, IH.
Qed.

Ltac split_wf H :=
  simpl in H; apply andb_true_iff in H as [?Hne ?Hall].

(** ** The names of dynamic segments *)

Lemma wf_dynamic n :
  wfSegment (Dynamic n) = true ->
  nonEmpty n = true /\ Js.all dynamicChar n = true /\ isCatchAllName n = false.
Proof.
  intros H. split_wf H. apply andb_true_iff in Hall as [Hall Hc].
  apply negb_true_iff in Hc. auto.
Qed.

Lemma dynamic_plain c : dynamicChar c = true -> plainChar c = true.
Proof. unfold dynamicChar. intros H. now apply andb_true_iff in H as [H _]. Qed.

Lemma dynamic_not_close c : dynamicChar c = true -> isNot "]" c = true.
Proof. unfold dynamicChar, isNot. intros H. now apply andb_true_iff in H as [_ H]. Qed.

Lemma dynamic_all_not (d : ascii) n :
  (forall c, plainChar c = true -> isNot d c = true) ->
  Js.all dynamicChar n = true -> Js.all (isNot d) n = true.
Proof.
  intros H. apply all_impl. intros c Hc. now apply H, dynamic_plain.
Qed.

Lemma stripPrefix_text pre s rest :
  stripPrefix pre s = Some rest -> s = pre ++ rest.
Proof.
  revert s. induction pre as [|a pre IH]; intros s; simpl.
  - now intros [= ->].
  - destruct s as [|b s]; [discriminate|].
    destruct (ch a b) eqn:E; [|discriminate].
    apply ch_eq in E. subst b. intros H. now rewrite (IH _ H).
Qed.

Lemma stripPrefix_more k n w r :
  stripPrefix k n = Some w -> stripPrefix k (n ++ r) = Some (w ++ r).
Proof.
  revert n. induction k as [|a k IH]; intros n; simpl.
  - now intros [= ->].
  - destruct n as [|b n]; [discriminate|]. simpl.
    destruct (ch a b); [apply IH | discriminate].
Qed.

Lemma stripPrefix_short k n d t :
  Js.all (isNot d) k = true ->
  stripPrefix k n = None -> stripPrefix k (n ++ String d t) = None.
Proof.
  revert n. induction k as [|a k IH]; intros n Hk; simpl; [discriminate|].
  simpl in Hk. apply andb_true_iff in Hk as [Ha Hk].
  destruct n as [|b n]; simpl.
  - intros _. unfold isNot in Ha. apply negb_true_iff in Ha. now rewrite Ha.
  - destruct (ch a b); [now apply IH | reflexivity].
Qed.

Lemma span_more p w c t :
  p c = false ->
  span p (w ++ String c t)
  = (fst (span p w), snd (span p w) ++ String c t).
Proof.
  intros Hc. induction w as [|x w IH]; simpl.
  - now rewrite Hc.
  - destruct (p x); [|reflexivity].
    rewrite IH. now destruct (span p w).
Qed.

Lemma span_whole p w : snd (span p w) = "" -> Js.all p w = true.
Proof.
  induction w as [|x w IH]; [reflexivity|]. simpl.
  destruct (p x); [|discriminate].
  destruct (span p w) as [a b]. simpl in *. exact IH.
Qed.

Lemma span_fst_whole p w : snd (span p w) = "" -> fst (span p w) = w.
Proof.
  induction w as [|x w IH]; [reflexivity|]. simpl.
  destruct (p x); [|discriminate].
  destruct (span p w) as [a b]. simpl in *. intros H. now rewrite IH.
Qed.

Lemma span_snd_all (P p : ascii -> bool) w :
  Js.all P w = true -> Js.all P (snd (span p w)) = true.
Proof.
  induction w as [|x w IH]; [reflexivity|]. simpl. intros H.
  destruct (p x); [|exact H].
  apply andb_true_iff in H as [_ H]. specialize (IH H).
  now destruct (span p w).
Qed.

(** The name of a dynamic segment between its brackets is no catch-all. *)
Lemma dynamic_no_catchAll n t p :
  Js.all dynamicChar n = true -> isCatchAllName n = false ->
  reCatchAll p (String "[" ((n ++ "]") ++ t)) = None.
Proof.
  intros Hall Hc. unfold reCatchAll.
  change (stripPrefix "[..." (String "[" ((n ++ "]") ++ t)))
    with (if ch "[" "[" then stripPrefix "..." ((n ++ "]") ++ t) else None).
  ch_lit. rewrite app_assoc. change ("]" ++ t) with (String "]" t).
  unfold isCatchAllName in Hc.
  destruct (stripPrefix "..." n) as [w|] eqn:E.
  - rewrite (stripPrefix_more _ _ _ (String "]" t) E).
    rewrite (span_more isWord w "]" t eq_refl).
    destruct (String.eqb (fst (span isWord w)) "") eqn:N; [reflexivity|].
    destruct (snd (span isWord w)) as [|c after] eqn:A.
    + pose proof (span_whole _ _ A) as W.
      pose proof (span_fst_whole _ _ A) as F. rewrite F in N.
      unfold nonEmpty in Hc. rewrite N, W in Hc. discriminate.
    + assert (D : Js.all dynamicChar w = true).
      { apply stripPrefix_text in E. subst n. rewrite all_app in Hall.
        now apply andb_true_iff in Hall as [_ Hall]. }
      pose proof (span_snd_all dynamicChar isWord w D) as S.
      rewrite A in S. simpl in S. apply andb_true_iff in S as [S _].
      apply dynamic_not_close, isNot_ch in S.
      cbn [append stripPrefix]. now rewrite S.
  - now rewrite (stripPrefix_short "..." n "]" t eq_refl E).
Qed.

(** ** Pass 1: a rendered path has no backslash to replace *)

Lemma dirName_no_backslash s :
  wfSegment s = true -> Js.all (isNot "\") (dirName s) = true.
Proof.
  intros H. destruct s as [n|n|n|n|n].
  - split_wf H. simpl. revert Hall. apply all_impl, plain_not_backslash.
  - split_wf H. simpl. rewrite all_app. simpl.
    rewrite (all_impl _ _ _ group_not_backslash Hall). reflexivity.
  - apply wf_dynamic in H as (_ & Hall & _). simpl. rewrite all_app. simpl.
    now rewrite (dynamic_all_not "\" n plain_not_backslash Hall).
  - split_wf H. simpl. rewrite ?all_app. simpl.
    now rewrite (word_all_not "\" n).
  - split_wf H. simpl. rewrite ?all_app. simpl.
    now rewrite (word_all_not "\" n).
Qed.

Lemma pass_backslash segs :
  Forall (fun s => wfSegment s = true) segs ->
  replaceAll reBackslash (renderPath segs) = renderPath segs.
Proof.
  intros H. unfold replaceAll.
  apply (replaceG_inert_end _ reBackslash_prev (isNot "\")).
  - intros c t p. apply reBackslash_inert.
  - apply all_concat; [reflexivity|].
    apply Forall_map. revert H. apply Forall_impl.
    intros s. apply dirName_no_backslash.
Qed.

(** ** Pass 2: groups go, each with the slash behind it *)

Lemma dirName_no_paren s :
  wfSegment s = true -> isGroup s = false ->
  Js.all (isNot "(") (dirName s) = true.
Proof.
  intros H G. destruct s as [n|n|n|n|n]; try discriminate.
  - split_wf H. simpl. revert Hall. apply all_impl, plain_not_paren.
  - apply wf_dynamic in H as (_ & Hall & _). simpl. rewrite all_app. simpl.
    now rewrite (dynamic_all_not "(" n plain_not_paren Hall).
  - split_wf H. simpl. rewrite ?all_app. simpl.
    now rewrite (word_all_not "(" n).
  - split_wf H. simpl. rewrite ?all_app. simpl.
    now rewrite (word_all_not "(" n).
Qed.

Lemma group_match_slash n t p :
  nonEmpty n = true -> Js.all groupChar n = true ->
  reRouteGroup p (String "(" (n ++ ")/") ++ t)
  = Some ("", S (String.length (n ++ ")/"))).
Proof.
  intros Hne Hall. unfold reRouteGroup. simpl. ch_lit.
  rewrite app_assoc. simpl.
  rewrite (span_all _ n ")" ("/" ++ t)).
  2:{ revert Hall. apply all_impl. intros c Hc.
      apply group_not_close in Hc. exact Hc. }
  2:{ reflexivity. }
  rewrite (nonEmpty_eqb _ Hne). simpl. ch_lit.
  unfold startsWith. simpl. ch_lit.
  rewrite length_app. simpl.
  repeat f_equal. lia.
Qed.

Lemma group_match_end n p :
  nonEmpty n = true -> Js.all groupChar n = true ->
  reRouteGroup p (String "(" (n ++ ")") ++ "")
  = Some ("", S (String.length (n ++ ")"))).
Proof.
  intros Hne Hall. unfold reRouteGroup. simpl. ch_lit.
  rewrite app_nil_r.
  rewrite (span_all _ n ")" "").
  2:{ revert Hall. apply all_impl. intros c Hc.
      apply group_not_close in Hc. exact Hc. }
  2:{ reflexivity. }
  rewrite (nonEmpty_eqb _ Hne). simpl. ch_lit.
  unfold startsWith. simpl.
  rewrite length_app. simpl.
  repeat f_equal. lia.
Qed.

Lemma concat_cons2 sep x y (l : list string) :
  String.concat sep (x :: y :: l) = x ++ sep ++ String.concat sep (y :: l).
Proof. reflexivity. Qed.

Lemma pass_groups segs :
  Forall (fun s => wfSegment s = true) segs ->
  forall p, replaceG reRouteGroup p 0 (renderPath segs)
            = renderNoGroups dirName segs.
Proof.
  unfold renderPath, join.
  induction 1 as [|s rest Hs Hrest IH]; intros p; [reflexivity|].
  destruct rest as [|s' rest'].
  - cbn [map String.concat renderNoGroups].
    destruct (isGroup s) eqn:G.
    + destruct s as [n|n|n|n|n]; try discriminate. split_wf Hs.
      change (dirName (Group n)) with (String "(" (n ++ ")")).
      rewrite <- (app_nil_r (String "(" (n ++ ")"))).
      rewrite (replaceG_match _ reRouteGroup_prev _ _ "" p None "").
      * reflexivity.
      * now apply group_match_end.
    + rewrite app_nil_r.
      apply (replaceG_inert_end _ reRouteGroup_prev (isNot "("));
        [|now apply dirName_no_paren].
      intros c t q. apply reRouteGroup_inert.
  - change (map dirName (s :: s' :: rest'))
      with (dirName s :: dirName s' :: map dirName rest').
    rewrite concat_cons2.
    change (dirName s' :: map dirName rest') with (map dirName (s' :: rest')).
    cbn [renderNoGroups].
    destruct (isGroup s) eqn:G.
    + destruct s as [n|n|n|n|n]; try discriminate. split_wf Hs.
      replace (dirName (Group n) ++ "/" ++ String.concat "/" (map dirName (s' :: rest')))
        with (String "(" (n ++ ")/") ++ String.concat "/" (map dirName (s' :: rest'))).
      2:{ simpl. now rewrite !app_assoc. }
      rewrite (replaceG_match _ reRouteGroup_prev _ _ "" p None _).
      * simpl ("" ++ _). apply IH.
      * now apply group_match_slash.
    + rewrite (replaceG_inert _ reRouteGroup_prev (isNot "(") _
                 (fun c t q => reRouteGroup_inert c t q)
                 (dirName_no_paren s Hs G) p None).
      f_equal. simpl ("/" ++ _).
      cbn [replaceG]. rewrite reRouteGroup_inert by reflexivity.
      f_equal. apply IH.
Qed.

(** ** Passes 3 to 5: one kind of bracketed segment is rewritten at a time *)

Section Pass.
Variable m : matcher.
Hypothesis m_inert : forall c t p, isNot "[" c = true -> m p (String c t) = None.
Variables f g : Segment -> string.
Hypothesis piece : forall s, wfSegment s = true -> isGroup s = false ->
  forall t p q, replaceG m p 0 (f s ++ t) = g s ++ replaceG m q 0 t.

Lemma pass_renderNoGroups segs :
  Forall (fun s => wfSegment s = true) segs ->
  forall p, replaceG m p 0 (renderNoGroups f segs) = renderNoGroups g segs.
Proof.
  induction 1 as [|s rest Hs Hrest IH]; intros p; [reflexivity|].
  cbn [renderNoGroups]. destruct (isGroup s) eqn:G; [apply IH|].
  rewrite (piece s Hs G _ p None). f_equal.
  destruct rest as [|s' rest']; [reflexivity|].
  simpl ("/" ++ _). cbn [replaceG].
  rewrite m_inert by reflexivity. f_equal. apply IH.
Qed.
End Pass.

Ltac inert_piece m_prev m_inert :=
  apply (replaceG_inert _ m_prev (isNot "[") _ m_inert).

Lemma word_head c n : Js.all isWord (String c n) = true -> isWord c = true.
Proof. simpl. intros H. now apply andb_true_iff in H as [H _]. Qed.

Lemma piece_optional s :
  wfSegment s = true -> isGroup s = false ->
  forall t p q,
    replaceG reOptionalCatchAll p 0 (dirName s ++ t)
    = afterOptional s ++ replaceG reOptionalCatchAll q 0 t.
Proof.
  intros H G t p q.
  destruct s as [n|n|n|n|n]; try discriminate;
    [split_wf H | apply wf_dynamic in H as (Hne & Hall & Hcatch)
     | split_wf H | split_wf H].
  - inert_piece reOptionalCatchAll_prev reOptionalCatchAll_inert.
    revert Hall. apply all_impl, plain_not_bracket.
  - destruct (nonEmpty_cons _ Hne) as (c & n' & ->).
    pose proof (dynamic_all_not "[" _ plain_not_bracket Hall) as Hb.
    assert (Hc : isNot "[" c = true).
    { simpl in Hb. now apply andb_true_iff in Hb as [Hb _]. }
    change (dirName (Dynamic (String c n')) ++ t)
      with (String "[" ((String c n' ++ "]") ++ t)).
    change (afterOptional (Dynamic (String c n')) ++ replaceG reOptionalCatchAll q 0 t)
      with (String "[" ((String c n' ++ "]") ++ replaceG reOptionalCatchAll q 0 t)).
    rewrite replaceG_none.
    2:{ unfold reOptionalCatchAll. simpl. ch_lit.
        now rewrite (isNot_ch "[" c Hc). }
    f_equal.
    inert_piece reOptionalCatchAll_prev reOptionalCatchAll_inert.
    rewrite all_app, Hb. reflexivity.
  - change (dirName (CatchAll n) ++ t)
      with (String "[" (("..." ++ n ++ "]") ++ t)).
    change (afterOptional (CatchAll n) ++ replaceG reOptionalCatchAll q 0 t)
      with (String "[" (("..." ++ n ++ "]") ++ replaceG reOptionalCatchAll q 0 t)).
    rewrite replaceG_none.
    2:{ unfold reOptionalCatchAll. simpl. ch_lit. reflexivity. }
    f_equal.
    inert_piece reOptionalCatchAll_prev reOptionalCatchAll_inert.
    rewrite !all_app, (word_all_not "[" _ eq_refl Hall). reflexivity.
  - change (dirName (OptionalCatchAll n) ++ t)
      with (String "[" ("[..." ++ n ++ "]]") ++ t).
    rewrite (replaceG_match _ reOptionalCatchAll_prev _ _ (":" ++ n) p q t).
    + reflexivity.
    + unfold reOptionalCatchAll. simpl. ch_lit.
      rewrite app_assoc. simpl.
      rewrite (span_all _ n "]" _ Hall eq_refl).
      rewrite (nonEmpty_eqb _ Hne). simpl. ch_lit.
      rewrite length_app. simpl. repeat f_equal. lia.
Qed.

Lemma piece_catchAll s :
  wfSegment s = true -> isGroup s = false ->
  forall t p q,
    replaceG reCatchAll p 0 (afterOptional s ++ t)
    = afterCatchAll s ++ replaceG reCatchAll q 0 t.
Proof.
  intros H G t p q.
  destruct s as [n|n|n|n|n]; try discriminate;
    [split_wf H | apply wf_dynamic in H as (Hne & Hall & Hcatch)
     | split_wf H | split_wf H].
  - inert_piece reCatchAll_prev reCatchAll_inert.
    revert Hall. apply all_impl, plain_not_bracket.
  - pose proof (dynamic_all_not "[" _ plain_not_bracket Hall) as Hb.
    change (afterOptional (Dynamic n) ++ t)
      with (String "[" ((n ++ "]") ++ t)).
    change (afterCatchAll (Dynamic n) ++ replaceG reCatchAll q 0 t)
      with (String "[" ((n ++ "]") ++ replaceG reCatchAll q 0 t)).
    rewrite replaceG_none by now apply dynamic_no_catchAll.
    f_equal.
    inert_piece reCatchAll_prev reCatchAll_inert.
    rewrite all_app, Hb. reflexivity.
  - change (afterOptional (CatchAll n) ++ t)
      with (String "[" ("..." ++ n ++ "]") ++ t).
    rewrite (replaceG_match _ reCatchAll_prev _ _ "*" p q t).
    + reflexivity.
    + unfold reCatchAll. simpl. ch_lit.
      rewrite app_assoc. simpl.
      rewrite (span_all _ n "]" _ Hall eq_refl).
      rewrite (nonEmpty_eqb _ Hne). simpl. ch_lit.
      rewrite length_app. simpl. repeat f_equal. lia.
  - cbn [afterOptional afterCatchAll].
    inert_piece reCatchAll_prev reCatchAll_inert.
    simpl. now rewrite (word_all_not "[" _ eq_refl Hall).
Qed.

Lemma piece_dynamic s :
  wfSegment s = true -> isGroup s = false ->
  forall t p q,
    replaceG reDynamic p 0 (afterCatchAll s ++ t)
    = urlSegment s ++ replaceG reDynamic q 0 t.
Proof.
  intros H G t p q.
  destruct s as [n|n|n|n|n]; try discriminate;
    [split_wf H | apply wf_dynamic in H as (Hne & Hall & Hcatch)
     | split_wf H | split_wf H].
  - inert_piece reDynamic_prev reDynamic_inert.
    revert Hall. apply all_impl, plain_not_bracket.
  - change (afterCatchAll (Dynamic n) ++ t) with (String "[" (n ++ "]") ++ t).
    rewrite (replaceG_match _ reDynamic_prev _ _ (":" ++ n) p q t).
    + reflexivity.
    + unfold reDynamic. simpl. ch_lit.
      rewrite app_assoc. simpl.
      rewrite (span_all _ n "]" _).
      2:{ revert Hall. apply all_impl. intros c Hc.
          apply dynamic_not_close in Hc. exact Hc. }
      2:{ reflexivity. }
      rewrite (nonEmpty_eqb _ Hne). simpl. ch_lit.
      rewrite length_app. simpl. repeat f_equal. lia.
  - cbn [afterCatchAll urlSegment].
    inert_piece reDynamic_prev reDynamic_inert. reflexivity.
  - cbn [afterCatchAll urlSegment].
    inert_piece reDynamic_prev reDynamic_inert.
    simpl. now rewrite (word_all_not "[" _ eq_refl Hall).
Qed.

(** The five passes on a rendered path. *)
Lemma passes_renderPath segs :
  Forall (fun s => wfSegment s = true) segs ->
  replaceAll reDynamic
    (replaceAll reCatchAll
       (replaceAll reOptionalCatchAll
          (replaceAll reRouteGroup
             (replaceAll reBackslash (renderPath segs)))))
  = renderNoGroups urlSegment segs.
Proof.
  intros H. rewrite (pass_backslash _ H).
  unfold replaceAll.
  rewrite (pass_groups _ H).
  rewrite (pass_renderNoGroups _ reOptionalCatchAll_inert _ _ piece_optional _ H).
  rewrite (pass_renderNoGroups _ reCatchAll_inert _ _ piece_catchAll _ H).
  now rewrite (pass_renderNoGroups _ reDynamic_inert _ _ piece_dynamic _ H).
Qed.

(** ** What is left once the groups are gone *)

Lemma renderNoGroups_all_groups f segs :
  existsb (fun s => negb (isGroup s)) segs = false ->
  renderNoGroups f segs = "".
Proof.
  induction segs as [|s rest IH]; [reflexivity|]. simpl.
  intros H. apply orb_false_iff in H as [Hs Hrest].
  destruct (isGroup s); [now apply IH | discriminate].
Qed.

Lemma filter_all_groups segs :
  existsb (fun s => negb (isGroup s)) segs = false ->
  filter (fun s => negb (isGroup s)) segs = [].
Proof.
  induction segs as [|s rest IH]; [reflexivity|]. simpl.
  intros H. apply orb_false_iff in H as [Hs Hrest].
  rewrite Hs. now apply IH.
Qed.

Lemma filter_some_page segs :
  existsb (fun s => negb (isGroup s)) segs = true ->
  filter (fun s => negb (isGroup s)) segs <> [].
Proof.
  induction segs as [|s rest IH]; [discriminate|]. simpl.
  destruct (negb (isGroup s)); [discriminate | exact IH].
Qed.

Lemma renderNoGroups_join segs :
  renderNoGroups urlSegment segs
  = join "/" (map urlSegment (filter (fun s => negb (isGroup s)) segs))
    ++ (if endsWithGroup segs then "/" else "").
Proof.
  unfold endsWithGroup, join.
  induction segs as [|s rest IH]; [reflexivity|].
  cbn [renderNoGroups filter existsb].
  destruct (isGroup s) eqn:G; cbn [negb orb].
  - rewrite IH. destruct rest as [|s' rest']; [| reflexivity].
    cbn [existsb]. now rewrite !andb_false_r.
  - destruct rest as [|s' rest'].
    + cbn [last filter map String.concat existsb]. rewrite G. reflexivity.
    + change (last (s :: s' :: rest') (Static "")) with (last (s' :: rest') (Static "")).
      rewrite andb_true_r, IH. cbn [map].
      destruct (existsb (fun s => negb (isGroup s)) (s' :: rest')) eqn:E.
      * rewrite andb_true_r.
        pose proof (filter_some_page _ E) as NE.
        destruct (filter (fun s => negb (isGroup s)) (s' :: rest')) as [|x l];
          [now elim NE|].
        cbn [map]. rewrite concat_cons2. now rewrite !app_assoc.
      * rewrite andb_false_r, (filter_all_groups _ E).
        cbn [map String.concat]. simpl ("" ++ _).
        assert (L : isGroup (last (s' :: rest') (Static "")) = true).
        { clear -E. induction rest' as [|y l IHl] in s', E |- *.
          - simpl in *. now destruct (isGroup s').
          - change (last (s' :: y :: l) (Static "")) with (last (y :: l) (Static "")).
            apply IHl. simpl in E. apply orb_false_iff in E as [_ E]. exact E. }
        now rewrite L.
Qed.

(** The URL segments of well-formed segments do not start with a slash. *)
Lemma urlSegment_no_slash s t :
  wfSegment s = true -> isGroup s = false ->
  startsWith (urlSegment s ++ t) "/" = false.
Proof.
  intros H G. destruct s as [n|n|n|n|n]; try discriminate; split_wf H;
    try reflexivity.
  destruct (nonEmpty_cons _ Hne) as (c & n' & ->).
  simpl in Hall. apply andb_true_iff in Hall as [Hc _].
  apply plain_not_slash, isNot_ch in Hc.
  unfold startsWith. simpl. now rewrite Hc.
Qed.

Lemma renderNoGroups_no_slash segs :
  Forall (fun s => wfSegment s = true) segs ->
  startsWith (renderNoGroups urlSegment segs) "/" = false.
Proof.
  induction 1 as [|s rest Hs Hrest IH]; [reflexivity|].
  cbn [renderNoGroups]. destruct (isGroup s) eqn:G; [exact IH|].
  now apply urlSegment_no_slash.
Qed.

(** The URL of a rendered path. *)
Lemma filePathToUrlPath_renderPath segs :
  Forall (fun s => wfSegment s = true) segs ->
  filePathToUrlPath (renderPath segs)
  = urlOfSegments segs ++ (if endsWithGroup segs then "/" else "").
Proof.
  intros H. unfold filePathToUrlPath.
  rewrite (passes_renderPath _ H).
  rewrite (renderNoGroups_no_slash _ H). cbn [negb].
  rewrite renderNoGroups_join. unfold urlOfSegments.
  set (body := join "/" _ ++ _).
  change (("/" ++ join "/" (map urlSegment (filter (fun s => negb (isGroup s)) segs)))
            ++ (if endsWithGroup segs then "/" else ""))
    with ("/" ++ body).
  destruct body as [|c b]; reflexivity.
Qed.

(** ** Properties of every derived URL *)

Lemma filePathToUrlPath_leading_slash p :
  startsWith (filePathToUrlPath p) "/" = true.
Proof.
  unfold filePathToUrlPath.
  set (u := replaceAll reDynamic _).
  destruct (startsWith u "/") eqn:E; cbn [negb].
  - destruct (String.eqb u "/" || String.eqb u ""); [reflexivity | exact E].
  - destruct (String.eqb ("/" ++ u) "/" || String.eqb ("/" ++ u) "");
      [reflexivity|].
    unfold startsWith. simpl. now destruct u.
Qed.



Section Preserve.
Variable P : ascii -> bool.
Variable m : matcher.
Hypothesis m_repl : forall p s repl n,
  Js.all P s = true -> m p s = Some (repl, n) -> Js.all P repl = true.

End Preserve.







(** Discovery on a small tree: the API directory is excluded, the group
    gives no URL segment, and only page files become routes. *)
Example scanAppDirectory_appTree :
  Scanner.scanAppDirectory Examples.directoryGlob "/" Examples.appFs
    "/test-app/app" noOptions
  = Ok [ mkRoute "/test-app/app/page.tsx" "/" page;
         mkRoute "/test-app/app/about/page.tsx" "/about" page;
         mkRoute "/test-app/app/(marketing)/contact/page.tsx" "/contact" page ].
Proof. reflexivity. Qed.

(** A trailing group leaves the slash in front of it. *)
Example filePathToUrlPath_trailing_group :
  filePathToUrlPath "dashboard/(overview)" = "/dashboard/".
Proof. reflexivity. Qed.

(** ** Either separator *)







(** A parenthesis inside a plain name is outside the conventions: the
    expression for groups is not tied to whole directory names. *)
Example filePathToUrlPath_inner_parentheses :
  filePathToUrlPath "a(b)c" = "/ac".
Proof. reflexivity. Qed.

(** ** The URL of a path of segments *)




End ScannerFacts.



(* ================================================================== *)
(** * Section grouping *)
(* ================================================================== *)

Module GroupingFacts.
Import Grouping.

Section Table.
Variable sectionOf : RouteInfo -> string.

Lemma get_table keys routes k :
  In k keys ->
  JsMap.get k (table sectionOf keys routes) = Some (bucket sectionOf k routes).
Proof.
  induction keys as [|k0 keys IH]; intros Hin; [contradiction|].
  simpl. destruct (String.eqb k0 k) eqn:E.
  - apply String.eqb_eq in E. now subst.
  - destruct Hin as [->|Hin]; [now rewrite String.eqb_refl in E | now apply IH].
Qed.

Lemma get_table_None keys routes k :
  ~ In k keys -> JsMap.get k (table sectionOf keys routes) = None.
Proof.
  induction keys as [|k0 keys IH]; intros Hin; [reflexivity|].
  simpl. destruct (String.eqb k0 k) eqn:E.
  - apply String.eqb_eq in E. subst. elim Hin. now left.
  - apply IH. intros H. apply Hin. now right.
Qed.

Lemma bucket_app k a b :
  bucket sectionOf k (a ++ b) = (bucket sectionOf k a ++ bucket sectionOf k b)%list.
Proof. apply filter_app. Qed.

Lemma bucket_other k r :
  String.eqb (sectionOf r) k = false -> bucket sectionOf k [r] = [].
Proof. intros H. unfold bucket. simpl. now rewrite H. Qed.

Lemma bucket_same r : bucket sectionOf (sectionOf r) [r] = [r].
Proof. unfold bucket. simpl. now rewrite String.eqb_refl. Qed.

(** Pushing a route onto its own section is the table of one more route. *)
Lemma set_table_push keys routes r :
  NoDup keys -> In (sectionOf r) keys ->
  JsMap.set (sectionOf r) (bucket sectionOf (sectionOf r) routes ++ [r])%list
            (table sectionOf keys routes)
  = table sectionOf keys (routes ++ [r]).
Proof.
  induction keys as [|k0 keys IH]; intros ND Hin; [contradiction|].
  inversion ND as [|? ? Hk0 ND']; subst.
  simpl. destruct (String.eqb k0 (sectionOf r)) eqn:E.
  - apply String.eqb_eq in E. subst k0.
    rewrite bucket_app, bucket_same. f_equal.
    unfold table. apply map_ext_in. intros k Hk.
    rewrite bucket_app, bucket_other, app_nil_r; [reflexivity|].
    apply String.eqb_neq. intros <-. contradiction.
  - rewrite bucket_app, bucket_other, app_nil_r.
    2:{ now rewrite String.eqb_sym. }
    f_equal. apply IH; [exact ND'|].
    destruct Hin as [->|Hin]; [now rewrite String.eqb_refl in E | exact Hin].
Qed.

(** Setting a key to the empty list on a table without routes. *)
Lemma set_table_empty keys k :
  JsMap.set k [] (table sectionOf keys []) = table sectionOf (addKey keys k) [].
Proof.
  unfold addKey. induction keys as [|k0 keys IH]; [reflexivity|].
  simpl. rewrite (String.eqb_sym k k0).
  destruct (String.eqb k0 k) eqn:E; simpl.
  - apply String.eqb_eq in E. now subst.
  - rewrite IH. now destruct (existsb (String.eqb k) keys).
Qed.

End Table.

Lemma existsb_eqb_In k keys : existsb (String.eqb k) keys = true <-> In k keys.
Proof.
  rewrite existsb_exists. split.
  - intros (x & Hx & E). apply String.eqb_eq in E. now subst.
  - intros H. exists k. split; [exact H | apply String.eqb_refl].
Qed.

Lemma addKey_NoDup keys k : NoDup keys -> NoDup (addKey keys k).
Proof.
  intros ND. unfold addKey.
  destruct (existsb (String.eqb k) keys) eqn:E; [exact ND|].
  apply NoDup_app; [exact ND | repeat constructor; intros [] |].
  intros x Hx [<-|[]].
  apply existsb_eqb_In in Hx. congruence.
Qed.

Lemma addKey_In keys k x : In x (addKey keys k) <-> In x keys \/ x = k.
Proof.
  unfold addKey. destruct (existsb (String.eqb k) keys) eqn:E.
  - apply existsb_eqb_In in E. split; [now left|]. intros [H| ->]; assumption.
  - rewrite in_app_iff. simpl. intuition.
Qed.

Lemma keysAfter_NoDup srcs : forall keys, NoDup keys -> NoDup (keysAfter keys srcs).
Proof.
  induction srcs as [|s srcs IH]; intros keys ND; [exact ND|].
  apply IH. now apply addKey_NoDup.
Qed.

Lemma keysAfter_In srcs : forall keys x,
  In x (keysAfter keys srcs) <-> In x keys \/ In x (map section srcs).
Proof.
  induction srcs as [|s srcs IH]; intros keys x; simpl.
  - intuition.
  - unfold keysAfter in *. simpl. rewrite IH, addKey_In. intuition.
Qed.

Lemma create_sections sectionOf srcs : forall keys,
  fold_left (fun m source => JsMap.set (section source) [] m) srcs
            (table sectionOf keys [])
  = table sectionOf (keysAfter keys srcs) [].
Proof.
  induction srcs as [|s srcs IH]; intros keys; [reflexivity|].
  simpl. rewrite set_table_empty. apply IH.
Qed.

(** ** Removing the empty sections *)

Lemma delete_filter {V} k (m : JsMap.t V) :
  NoDup (map fst m) ->
  JsMap.delete k m = filter (fun e => negb (String.eqb (fst e) k)) m.
Proof.
  induction m as [|[k0 v] m IH]; intros ND; [reflexivity|].
  inversion ND as [|? ? Hk0 ND']; subst. simpl.
  destruct (String.eqb k0 k) eqn:E; simpl.
  - apply String.eqb_eq in E. subst k0.
    symmetry. apply forallb_filter_id.
    apply forallb_forall. intros [k' v'] Hin. simpl.
    apply negb_true_iff, String.eqb_neq. intros ->.
    apply Hk0. now apply (in_map fst) in Hin.
  - now rewrite IH.
Qed.

Lemma NoDup_filter_keys {V} (p : string * V -> bool) (m : JsMap.t V) :
  NoDup (map fst m) -> NoDup (map fst (filter p m)).
Proof.
  induction m as [|e m IH]; intros ND; [constructor|].
  inversion ND as [|? ? He ND']; subst. simpl.
  destruct (p e); [|now apply IH].
  simpl. constructor; [|now apply IH].
  intros Hin. apply He.
  apply in_map_iff in Hin as (x & Hx & Hin).
  apply filter_In in Hin as [Hin _].
  rewrite <- Hx. now apply in_map.
Qed.

Lemma filter_twice {A} (p q : A -> bool) l :
  filter p (filter q l) = filter (fun x => q x && p x) l.
Proof.
  induction l as [|x l IH]; [reflexivity|]. simpl.
  destruct (q x); simpl; [destruct (p x); now rewrite IH | exact IH].
Qed.

Lemma remove_loop (entries : list (string * list RouteInfo)) :
  forall m : JsMap.t (list RouteInfo),
  NoDup (map fst m) ->
  fold_left
    (fun m entry =>
       if (List.length (snd entry) =? 0)%nat then JsMap.delete (fst entry) m
       else m)
    entries m
  = filter
      (fun e => negb (existsb (fun entry =>
                                 (List.length (snd entry) =? 0)%nat
                                 && String.eqb (fst e) (fst entry)) entries))
      m.
Proof.
  induction entries as [|entry entries IH]; intros m ND; simpl.
  - symmetry. apply forallb_filter_id. now apply forallb_forall.
  - destruct (List.length (snd entry) =? 0)%nat eqn:E; simpl.
    + rewrite IH, delete_filter by (try rewrite delete_filter; try apply NoDup_filter_keys; assumption).
      rewrite filter_twice. apply filter_ext. intros e.
      destruct (String.eqb (fst e) (fst entry)); reflexivity.
    + now rewrite IH.
Qed.

Lemma remove_empty_filter (m : JsMap.t (list RouteInfo)) :
  NoDup (map fst m) ->
  fold_left
    (fun m entry =>
       if (List.length (snd entry) =? 0)%nat then JsMap.delete (fst entry) m
       else m)
    m m
  = filter nonEmptyEntry m.
Proof.
  intros ND. rewrite remove_loop by exact ND.
  apply filter_ext_in. intros [k l] Hin. unfold nonEmptyEntry. simpl.
  f_equal.
  destruct (List.length l =? 0)%nat eqn:E.
  - apply existsb_exists. exists (k, l). simpl.
    now rewrite E, String.eqb_refl.
  - apply not_true_iff_false. intros H.
    apply existsb_exists in H as ([k' l'] & Hin' & H). simpl in H.
    apply andb_true_iff in H as [El' Ek]. apply String.eqb_eq in Ek. subst k'.
    assert (l = l').
    { clear -ND Hin Hin'. induction m as [|[k0 v0] m IH]; [contradiction|].
      inversion ND as [|? ? Hk0 ND']; subst. simpl in *.
      destruct Hin as [[= -> ->]|Hin], Hin' as [[= <-]|Hin'].
      - reflexivity.
      - elim Hk0. now apply (in_map fst) in Hin'.
      - elim Hk0. subst. now apply (in_map fst) in Hin.
      - now apply IH. }
    subst. congruence.
Qed.

Lemma table_keys sectionOf keys routes :
  map fst (table sectionOf keys routes) = keys.
Proof.
  unfold table. rewrite map_map. simpl. apply map_id.
Qed.

(** ** The two grouping functions *)

Section ScannerGrouping.
Variable minimatch : string -> string -> bool.
Variable cwd : string.
Variable options : PluginOptions.

Let sectionOf := sectionBy (scannerMatches minimatch cwd) options.

Lemma scannerKeys_NoDup : NoDup (scannerKeys options).
Proof.
  unfold scannerKeys. destruct (sources options).
  - apply keysAfter_NoDup. repeat constructor. intros [].
  - repeat constructor. intros [].
Qed.

Lemma scanner_sectionOf_key r : In (sectionOf r) (scannerKeys options).
Proof.
  unfold sectionOf, sectionBy, scannerKeys.
  destruct (sources options) as [srcs|]; [|now left].
  apply keysAfter_In.
  destruct (find _ srcs) as [source|] eqn:F; [|left; now left].
  right. apply find_some in F as [Hin _]. now apply in_map.
Qed.

Lemma scanner_pushTo keys routes r :
  NoDup keys -> In (sectionOf r) keys ->
  Scanner.pushTo (sectionOf r) r (table sectionOf keys routes)
  = table sectionOf keys (routes ++ [r]).
Proof.
  intros ND Hin. unfold Scanner.pushTo.
  rewrite get_table by exact Hin. now apply set_table_push.
Qed.

Lemma scanner_assignRoute r srcs m :
  Scanner.assignRoute minimatch cwd r srcs m
  = match find (scannerMatches minimatch cwd r) srcs with
    | Some source => (Scanner.pushTo (section source) r m, true)
    | None => (m, false)
    end.
Proof.
  induction srcs as [|s srcs IH]; [reflexivity|]. simpl.
  unfold scannerMatches at 1.
  destruct (Scanner.matchesPattern _ _ _); [reflexivity | exact IH].
Qed.

Lemma scanner_step keys routes r :
  NoDup keys -> In (sectionOf r) keys ->
  (let '(m', assigned) :=
     match sources options with
     | Some srcs =>
         Scanner.assignRoute minimatch cwd r srcs (table sectionOf keys routes)
     | None => (table sectionOf keys routes, false)
     end in
   if negb assigned then Scanner.pushTo "Pages" r m' else m')
  = table sectionOf keys (routes ++ [r]).
Proof.
  intros ND Hin. rewrite <- (scanner_pushTo keys routes r ND Hin).
  unfold sectionOf, sectionBy.
  destruct (sources options) as [srcs|]; [|reflexivity].
  rewrite scanner_assignRoute.
  now destruct (find _ srcs).
Qed.

Lemma scanner_assign_loop keys rs : forall routes,
  NoDup keys -> (forall r, In (sectionOf r) keys) ->
  fold_left
    (fun m r =>
       let '(m', assigned) :=
         match sources options with
         | Some srcs => Scanner.assignRoute minimatch cwd r srcs m
         | None => (m, false)
         end in
       if negb assigned then Scanner.pushTo "Pages" r m' else m')
    rs (table sectionOf keys routes)
  = table sectionOf keys (routes ++ rs).
Proof.
  induction rs as [|r rs IH]; intros routes ND Hin; simpl.
  - now rewrite app_nil_r.
  - rewrite (scanner_step keys routes r ND (Hin r)).
    rewrite IH by assumption. now rewrite <- app_assoc.
Qed.

(** What [groupRoutesBySection] returns: the sections in the order they
    were created, each with its routes, the empty ones left out. *)
Lemma groupRoutesBySection_table routes :
  Scanner.groupRoutesBySection minimatch cwd routes options
  = filter nonEmptyEntry (table sectionOf (scannerKeys options) routes).
Proof.
  unfold Scanner.groupRoutesBySection, Scanner.removeEmpty.
  change (JsMap.set "Pages" [] []) with (table sectionOf ["Pages"] []).
  assert (E : match sources options with
              | Some srcs =>
                  fold_left (fun m source => JsMap.set (section source) [] m)
                            srcs (table sectionOf ["Pages"] [])
              | None => table sectionOf ["Pages"] []
              end = table sectionOf (scannerKeys options) []).
  { unfold scannerKeys. destruct (sources options); [|reflexivity].
    apply create_sections. }
  rewrite E.
  rewrite (scanner_assign_loop (scannerKeys options) routes [] scannerKeys_NoDup
             scanner_sectionOf_key).
  simpl ([] ++ routes)%list.
  apply remove_empty_filter. rewrite table_keys. apply scannerKeys_NoDup.
Qed.

End ScannerGrouping.

Section GeneratorGrouping.
Variable options : PluginOptions.

Let sectionOf := sectionBy generatorMatches options.

Lemma generatorKeys_NoDup : NoDup (generatorKeys options).
Proof.
  unfold generatorKeys. apply addKey_NoDup.
  destruct (sources options); [|constructor].
  apply keysAfter_NoDup. constructor.
Qed.

Lemma generator_sectionOf_key r : In (sectionOf r) (generatorKeys options).
Proof.
  unfold sectionOf, sectionBy, generatorKeys. apply addKey_In.
  destruct (sources options) as [srcs|]; [|now right].
  destruct (find _ srcs) as [source|] eqn:F; [|now right].
  left. apply keysAfter_In. right.
  apply find_some in F as [Hin _]. now apply in_map.
Qed.

Lemma generator_pushOrCreate keys routes r :
  NoDup keys -> In (sectionOf r) keys ->
  Generator.pushOrCreate (sectionOf r) r (table sectionOf keys routes)
  = table sectionOf keys (routes ++ [r]).
Proof.
  intros ND Hin. unfold Generator.pushOrCreate.
  rewrite get_table by exact Hin. now apply set_table_push.
Qed.

Lemma generator_assignRoute r srcs m :
  Generator.assignByInclusion r srcs m
  = match find (generatorMatches r) srcs with
    | Some source => (Generator.pushOrCreate (section source) r m, true)
    | None => (m, false)
    end.
Proof.
  induction srcs as [|s srcs IH]; [reflexivity|]. simpl.
  unfold generatorMatches at 1.
  destruct (Generator.includesPattern _ _); [reflexivity | exact IH].
Qed.

Lemma generator_step keys routes r :
  NoDup keys -> In (sectionOf r) keys ->
  (let '(m', assigned) :=
     match sources options with
     | Some srcs => Generator.assignByInclusion r srcs (table sectionOf keys routes)
     | None => (table sectionOf keys routes, false)
     end in
   if negb assigned then Generator.pushOrCreate "Pages" r m' else m')
  = table sectionOf keys (routes ++ [r]).
Proof.
  intros ND Hin. rewrite <- (generator_pushOrCreate keys routes r ND Hin).
  unfold sectionOf, sectionBy.
  destruct (sources options) as [srcs|]; [|reflexivity].
  rewrite generator_assignRoute.
  now destruct (find _ srcs).
Qed.

Lemma generator_assign_loop keys rs : forall routes,
  NoDup keys -> (forall r, In (sectionOf r) keys) ->
  fold_left
    (fun m r =>
       let '(m', assigned) :=
         match sources options with
         | Some srcs => Generator.assignByInclusion r srcs m
         | None => (m, false)
         end in
       if negb assigned then Generator.pushOrCreate "Pages" r m' else m')
    rs (table sectionOf keys routes)
  = table sectionOf keys (routes ++ rs).
Proof.
  induction rs as [|r rs IH]; intros routes ND Hin; simpl.
  - now rewrite app_nil_r.
  - rewrite (generator_step keys routes r ND (Hin r)).
    rewrite IH by assumption. now rewrite <- app_assoc.
Qed.

Lemma has_table keys k :
  JsMap.has k (table sectionOf keys []) = existsb (String.eqb k) keys.
Proof.
  unfold JsMap.has.
  destruct (existsb (String.eqb k) keys) eqn:E.
  - apply existsb_eqb_In in E. now rewrite get_table.
  - rewrite get_table_None; [reflexivity|].
    intros H. apply existsb_eqb_In in H. congruence.
Qed.

Lemma groupBySection_table routes :
  Generator.groupBySection routes options
  = filter nonEmptyEntry (table sectionOf (generatorKeys options) routes).
Proof.
  unfold Generator.groupBySection, Generator.removeEmptySections.
  set (keys0 := match sources options with
                | Some srcs => keysAfter [] srcs
                | None => []
                end).
  assert (E : match sources options with
              | Some srcs =>
                  fold_left (fun m source => JsMap.set (section source) [] m)
                            srcs []
              | None => []
              end = table sectionOf keys0 []).
  { unfold keys0. destruct (sources options) as [srcs|]; [|reflexivity].
    apply (create_sections sectionOf srcs []). }
  rewrite E.
  assert (E' : (if negb (JsMap.has "Pages" (table sectionOf keys0 []))
                then JsMap.set "Pages" [] (table sectionOf keys0 [])
                else table sectionOf keys0 [])
               = table sectionOf (generatorKeys options) []).
  { rewrite has_table. unfold generatorKeys. fold keys0. unfold addKey.
    destruct (existsb (String.eqb "Pages") keys0) eqn:X; simpl.
    - reflexivity.
    - rewrite set_table_empty. unfold addKey. now rewrite X. }
  rewrite E'.
  rewrite (generator_assign_loop (generatorKeys options) routes [] generatorKeys_NoDup
             generator_sectionOf_key).
  simpl ([] ++ routes)%list.
  apply remove_empty_filter. rewrite table_keys. apply generatorKeys_NoDup.
Qed.

End GeneratorGrouping.

(** ** What the table says about routes and sections *)

Section Membership.
Variable sectionOf : RouteInfo -> string.
Variable keys : list string.
Hypothesis keys_NoDup : NoDup keys.
Hypothesis keys_all : forall r, In (sectionOf r) keys.
Variable routes : list RouteInfo.

Let result := filter nonEmptyEntry (table sectionOf keys routes).

Lemma result_NoDup : NoDup (map fst result).
Proof.
  apply NoDup_filter_keys. now rewrite table_keys.
Qed.

Lemma get_In {V} k (v : V) (m : JsMap.t V) :
  NoDup (map fst m) -> (JsMap.get k m = Some v <-> In (k, v) m).
Proof.
  induction m as [|[k0 v0] m IH]; intros ND; simpl.
  - split; [discriminate | contradiction].
  - inversion ND as [|? ? Hk0 ND']; subst.
    destruct (String.eqb k0 k) eqn:E.
    + apply String.eqb_eq in E. subst k0. split.
      * intros [= ->]. now left.
      * intros [[= ->]|Hin]; [reflexivity|].
        elim Hk0. now apply (in_map fst) in Hin.
    + rewrite (IH ND'). split; [now right|].
      intros [[= -> ->]|Hin]; [now rewrite String.eqb_refl in E | exact Hin].
Qed.

Lemma result_get k l :
  JsMap.get k result = Some l <->
  In k keys /\ l = bucket sectionOf k routes /\ l <> [].
Proof.
  rewrite (get_In k l result result_NoDup).
  unfold result. rewrite filter_In. unfold table. rewrite in_map_iff.
  unfold nonEmptyEntry. simpl. split.
  - intros [(k' & [= -> <-] & Hin) Hne]. repeat split; [exact Hin|].
    intros E. rewrite E in Hne. discriminate.
  - intros (Hin & -> & Hne). split.
    + now exists k.
    + destruct (bucket sectionOf k routes); [now elim Hne | reflexivity].
Qed.

(** Every route is in the section that is its own. *)
Lemma route_in_own_section r :
  In r routes ->
  exists l, JsMap.get (sectionOf r) result = Some l /\ In r l.
Proof.
  intros Hin. exists (bucket sectionOf (sectionOf r) routes).
  assert (In r (bucket sectionOf (sectionOf r) routes)) as Hb.
  { apply filter_In. split; [exact Hin | apply String.eqb_refl]. }
  split; [|exact Hb].
  apply result_get. repeat split; [apply keys_all|].
  intros E. rewrite E in Hb. contradiction.
Qed.

(** And in no other. *)
Lemma route_in_one_section r k l :
  JsMap.get k result = Some l -> In r l -> In r routes /\ k = sectionOf r.
Proof.
  intros Hget Hin. apply result_get in Hget as (_ & -> & _).
  apply filter_In in Hin as [Hin E].
  split; [exact Hin|]. symmetry. now apply String.eqb_eq.
Qed.

Lemma sections_not_empty k l : JsMap.get k result = Some l -> l <> [].
Proof. intros Hget. now apply result_get in Hget. Qed.

End Membership.

(** C4.  Both grouping functions, the one of the scanner (matching by
    [minimatch]) and the one of the generator (matching by inclusion), put
    every route in exactly one section, the section of the first source it
    matches or ["Pages"], keep the order of the routes inside a section, and
    return no empty section. *)
Theorem C4_sections :
  forall minimatch cwd routes options,
    let scanned := Scanner.groupRoutesBySection minimatch cwd routes options in
    let ofScanner := sectionBy (scannerMatches minimatch cwd) options in
    let generated := Generator.groupBySection routes options in
    let ofGenerator := sectionBy generatorMatches options in
    (NoDup (map fst scanned) /\
     (forall r, In r routes ->
        exists l, JsMap.get (ofScanner r) scanned = Some l /\ In r l) /\
     (forall r k l, JsMap.get k scanned = Some l -> In r l ->
        In r routes /\ k = ofScanner r) /\
     (forall k l, JsMap.get k scanned = Some l ->
        l <> [] /\ l = bucket ofScanner k routes)) /\
    (NoDup (map fst generated) /\
     (forall r, In r routes ->
        exists l, JsMap.get (ofGenerator r) generated = Some l /\ In r l) /\
     (forall r k l, JsMap.get k generated = Some l -> In r l ->
        In r routes /\ k = ofGenerator r) /\
     (forall k l, JsMap.get k generated = Some l ->
        l <> [] /\ l = bucket ofGenerator k routes)).
Proof.
  intros minimatch cwd routes options scanned ofScanner generated ofGenerator.
  unfold scanned, generated.
  rewrite groupRoutesBySection_table, groupBySection_table.
  fold ofScanner ofGenerator.
  pose proof (scannerKeys_NoDup options) as NS.
  pose proof (scanner_sectionOf_key minimatch cwd options) as KS.
  pose proof (generatorKeys_NoDup options) as NG.
  pose proof (generator_sectionOf_key options) as KG.
  split; (split; [now apply result_NoDup|]);
    (split; [intros r; now apply route_in_own_section|]);
    (split; [intros r k l; now apply route_in_one_section|]);
    intros k l Hget; (split; [now apply sections_not_empty in Hget|]).
  - now apply (result_get ofScanner _ NS) in Hget.
  - now apply (result_get ofGenerator _ NG) in Hget.
Qed.

(** The theorem on the three routes of the priority test: the products
    page is in the section of the products source. *)
Lemma C4_sections_witness :
  exists l,
    JsMap.get "Products"
      (Scanner.groupRoutesBySection Examples.directoryGlob ""
         [Examples.blog; Examples.products; Examples.docs] Examples.tiers)
    = Some l /\ In Examples.products l.
Proof.
  exact (proj1 (proj2 (proj1
    (C4_sections Examples.directoryGlob ""
       [Examples.blog; Examples.products; Examples.docs] Examples.tiers)))
    Examples.products (or_intror (or_introl eq_refl))).
Defined.

End GroupingFacts.

(* ================================================================== *)
(** * Sorting by priority *)
(* ================================================================== *)

Module SortFacts.
Import Grouping.

Section Sort.
Context {A : Type}.
Variable compare : A -> A -> Z.
Let le (a b : A) : Prop := (compare a b <= 0)%Z.
Hypothesis le_total : forall a b, le a b \/ le b a.
Hypothesis le_trans : forall a b c, le a b -> le b c -> le a c.

Lemma insert_perm x l : Permutation (x :: l) (JsArray.insert compare x l).
Proof.
  induction l as [|y l IH]; simpl; [reflexivity|].
  destruct (compare x y <=? 0)%Z; [reflexivity|].
  rewrite perm_swap. now constructor.
Qed.

Lemma sort_perm l : Permutation l (JsArray.sort compare l).
Proof.
  unfold JsArray.sort. induction l as [|x l IH]; simpl; [constructor|].
  rewrite <- insert_perm. now constructor.
Qed.

Lemma insert_sorted x l :
  StronglySorted le l -> StronglySorted le (JsArray.insert compare x l).
Proof.
  induction 1 as [|y l Hs IH Hy]; simpl.
  - repeat constructor.
  - destruct (compare x y <=? 0)%Z eqn:E.
    + apply Z.leb_le in E. constructor; [now constructor|].
      constructor; [exact E|].
      revert Hy. apply Forall_impl. intros z. now apply le_trans.
    + apply Z.leb_gt in E. constructor; [exact IH|].
      apply (Permutation_Forall (insert_perm x l)).
      constructor; [|exact Hy].
      destruct (le_total x y) as [H|H]; [unfold le in H; lia | exact H].
Qed.

Lemma sort_sorted l : StronglySorted le (JsArray.sort compare l).
Proof.
  unfold JsArray.sort. induction l as [|x l IH]; simpl; [constructor|].
  now apply insert_sorted.
Qed.

End Sort.

(** The order of code units is a total preorder. *)
Lemma compareCodeUnits_total a : forall b,
  (Js.compareCodeUnits a b <= 0 \/ Js.compareCodeUnits b a <= 0)%Z.
Proof.
  induction a as [|c a IH]; intros [|d b]; simpl; try lia.
  rewrite (Nat.compare_antisym (nat_of_ascii c) (nat_of_ascii d)).
  destruct (Nat.compare (nat_of_ascii c) (nat_of_ascii d)); simpl;
    [apply IH | lia | lia].
Qed.

Lemma compareCodeUnits_trans a : forall b c,
  (Js.compareCodeUnits a b <= 0 -> Js.compareCodeUnits b c <= 0 ->
   Js.compareCodeUnits a c <= 0)%Z.
Proof.
  induction a as [|x a IH]; intros [|y b] [|z c]; simpl; try lia.
  destruct (Nat.compare_spec (nat_of_ascii x) (nat_of_ascii y)) as [E1|L1|G1];
    destruct (Nat.compare_spec (nat_of_ascii y) (nat_of_ascii z)) as [E2|L2|G2];
    destruct (Nat.compare_spec (nat_of_ascii x) (nat_of_ascii z)) as [E3|L3|G3];
    try lia.
  apply IH.
Qed.

Section Priority.
Variable minimatch : string -> string -> bool.
Variable cwd : string.
Variable localeCompare : string -> string -> Z.
Variable options : PluginOptions.

Hypothesis localeCompare_total :
  forall a b, (localeCompare a b <= 0 \/ localeCompare b a <= 0)%Z.
Hypothesis localeCompare_trans :
  forall a b c, (localeCompare a b <= 0 -> localeCompare b c <= 0 ->
                 localeCompare a c <= 0)%Z.

Lemma find_snoc {X} (f : X -> bool) l x :
  find f (l ++ [x]) = match find f l with
                      | Some y => Some y
                      | None => if f x then Some x else None
                      end.
Proof.
  induction l as [|y l IH]; simpl; [reflexivity|].
  now destruct (f y).
Qed.

Lemma sourceRank_tier source :
  Scanner.sourceRank source
  = match priority source with
    | Some high => 3
    | Some medium => 2
    | Some low => 1
    | None => 2
    end%Z.
Proof. unfold Scanner.sourceRank. now destruct (priority source) as [[]|]. Qed.

(** The loop over the sources leaves the rank of the last match. *)
Lemma rank_loop r srcs : forall start,
  fold_left
    (fun acc source =>
       if scannerMatches minimatch cwd r source
       then Scanner.sourceRank source else acc)
    srcs start
  = match find (scannerMatches minimatch cwd r) (rev srcs) with
    | Some source => Scanner.sourceRank source
    | None => start
    end.
Proof.
  induction srcs as [|s srcs IH]; intros start; [reflexivity|].
  simpl. rewrite IH, find_snoc.
  destruct (find _ (rev srcs)); [reflexivity|].
  now destruct (scannerMatches minimatch cwd r s).
Qed.

Lemma pair_loop a b srcs : forall x y,
  fold_left
    (fun '(aP, bP) source =>
       let aRelPath := Scanner.relativePath cwd (filePath a) in
       let bRelPath := Scanner.relativePath cwd (filePath b) in
       let aP' := if Scanner.matchesPattern minimatch aRelPath (pattern source)
                  then Scanner.sourceRank source else aP in
       let bP' := if Scanner.matchesPattern minimatch bRelPath (pattern source)
                  then Scanner.sourceRank source else bP in
       (aP', bP'))
    srcs (x, y)
  = (fold_left
       (fun acc source =>
          if scannerMatches minimatch cwd a source
          then Scanner.sourceRank source else acc) srcs x,
     fold_left
       (fun acc source =>
          if scannerMatches minimatch cwd b source
          then Scanner.sourceRank source else acc) srcs y).
Proof.
  induction srcs as [|s srcs IH]; intros x y; [reflexivity|].
  simpl. now rewrite IH.
Qed.

Lemma compareRoutes_rank a b :
  Scanner.compareRoutes minimatch cwd localeCompare options a b
  = if negb (rank minimatch cwd options a =? rank minimatch cwd options b)%Z
    then (rank minimatch cwd options b - rank minimatch cwd options a)%Z
    else localeCompare (urlPath a) (urlPath b).
Proof.
  unfold Scanner.compareRoutes, rank.
  destruct (sources options) as [srcs|]; [|reflexivity].
  rewrite pair_loop, !rank_loop.
  destruct (find _ (rev srcs)) as [sa|], (find _ (rev srcs)) as [sb|];
    rewrite <- ?sourceRank_tier; reflexivity.
Qed.

Lemma compareRoutes_inOrder a b :
  (Scanner.compareRoutes minimatch cwd localeCompare options a b <= 0)%Z
  <-> inOrder minimatch cwd localeCompare options a b.
Proof.
  rewrite compareRoutes_rank. unfold inOrder.
  destruct (rank minimatch cwd options a =? rank minimatch cwd options b)%Z eqn:E;
    simpl.
  - apply Z.eqb_eq in E. rewrite E. intuition lia.
  - apply Z.eqb_neq in E. intuition lia.
Qed.

Lemma compareRoutes_total a b :
  (Scanner.compareRoutes minimatch cwd localeCompare options a b <= 0 \/
   Scanner.compareRoutes minimatch cwd localeCompare options b a <= 0)%Z.
Proof.
  rewrite !compareRoutes_inOrder. unfold inOrder.
  destruct (localeCompare_total (urlPath a) (urlPath b)); lia.
Qed.

Lemma compareRoutes_trans a b c :
  (Scanner.compareRoutes minimatch cwd localeCompare options a b <= 0 ->
   Scanner.compareRoutes minimatch cwd localeCompare options b c <= 0 ->
   Scanner.compareRoutes minimatch cwd localeCompare options a c <= 0)%Z.
Proof.
  rewrite !compareRoutes_inOrder. unfold inOrder.
  intros [H1|[E1 L1]] [H2|[E2 L2]]; try lia.
  right. split; [lia|]. now apply (localeCompare_trans _ (urlPath b)).
Qed.

Lemma rank_tiers r :
  (rank minimatch cwd options r = 3 \/ rank minimatch cwd options r = 2 \/
   rank minimatch cwd options r = 1)%Z.
Proof.
  unfold rank. destruct (sources options) as [srcs|]; [|lia].
  destruct (find _ (rev srcs)) as [s|]; [|lia].
  destruct (priority s) as [[]|]; lia.
Qed.

Lemma rank_default r :
  (forall srcs source, sources options = Some srcs -> In source srcs ->
     scannerMatches minimatch cwd r source = false) ->
  rank minimatch cwd options r = 2%Z.
Proof.
  intros H. unfold rank. destruct (sources options) as [srcs|]; [|reflexivity].
  destruct (find _ (rev srcs)) as [s|] eqn:F; [|reflexivity].
  apply find_some in F as [Hin Hm].
  rewrite (H srcs s eq_refl) in Hm; [discriminate|].
  now apply in_rev.
Qed.

(** With a [localeCompare] that is a total preorder, sorting returns the
    routes it was given, in the order of the comparison function: by
    [rank], 3 before 2 before 1, and inside a rank in ascending order of
    URL path. *)
Lemma sortRoutesByPriority_ordered routes :
  let sorted :=
    Scanner.sortRoutesByPriority minimatch cwd localeCompare routes options in
  Permutation routes sorted /\
  StronglySorted (inOrder minimatch cwd localeCompare options) sorted.
Proof.
  intros sorted. unfold sorted, Scanner.sortRoutesByPriority.
  split; [apply sort_perm|].
  pose proof (sort_sorted _ compareRoutes_total compareRoutes_trans routes) as S.
  induction S as [|x l S IH Hx]; constructor; [exact IH|].
  revert Hx. apply Forall_impl. intros y. apply compareRoutes_inOrder.
Qed.

Lemma find_rev_none {X} (f : X -> bool) l :
  find f (rev l) = None <-> find f l = None.
Proof.
  split; intros H.
  - destruct (find f l) as [x|] eqn:E; [|reflexivity].
    apply find_some in E as [Hin Hx]. apply in_rev in Hin.
    pose proof (find_none _ _ H x Hin). congruence.
  - destruct (find f (rev l)) as [x|] eqn:E; [|reflexivity].
    apply find_some in E as [Hin Hx]. apply in_rev in Hin.
    pose proof (find_none _ _ H x Hin). congruence.
Qed.

(** Where the sources a route matches all name one tier, the last match
    and the first rank the route alike. *)
Lemma rank_matchedRank r :
  (forall srcs s s',
     sources options = Some srcs -> In s srcs -> In s' srcs ->
     scannerMatches minimatch cwd r s = true ->
     scannerMatches minimatch cwd r s' = true ->
     priority s = priority s') ->
  rank minimatch cwd options r = matchedRank minimatch cwd options r.
Proof.
  intros H. unfold rank, matchedRank.
  destruct (sources options) as [srcs|]; [|reflexivity].
  destruct (find _ (rev srcs)) as [s|] eqn:L.
  - destruct (find _ srcs) as [s'|] eqn:F.
    + apply find_some in L as [Ls Lm], F as [Fs Fm]. apply in_rev in Ls.
      now rewrite (H srcs s s' eq_refl Ls Fs Lm Fm).
    + apply (proj2 (find_rev_none _ _)) in F. congruence.
  - apply (proj1 (find_rev_none _ _)) in L. now rewrite L.
Qed.

End Priority.

(** C2, on [sortRoutesByPriority].  The page under [docs/api] matches the
    high source [docs/**] and, behind it, the low source [docs/api/**].
    The first match gives it its section, Docs, and its matched tier is
    high, rank 3; the comparison function ranks it 1, by the last match,
    and sorts it behind a page that matches no source and ranks 2.  In
    general the sort orders by the rank of the last match, which is the
    matched rank wherever the sources a route matches name one tier. *)
Theorem C2_sortRoutesByPriority_last_match :
  (Scanner.sortRoutesByPriority Examples.directoryGlob "/" Js.compareCodeUnits
     [Examples.docsApi; Examples.about] Examples.overlapping
   = [Examples.about; Examples.docsApi] /\
   Scanner.groupRoutesBySection Examples.directoryGlob "/"
     [Examples.docsApi; Examples.about] Examples.overlapping
   = [("Pages", [Examples.about]); ("Docs", [Examples.docsApi])] /\
   matchedRank Examples.directoryGlob "/" Examples.overlapping Examples.docsApi
   = 3%Z /\
   matchedRank Examples.directoryGlob "/" Examples.overlapping Examples.about
   = 2%Z /\
   rank Examples.directoryGlob "/" Examples.overlapping Examples.docsApi
   = 1%Z) /\
  (forall minimatch cwd localeCompare options routes,
     (forall a b, (localeCompare a b <= 0 \/ localeCompare b a <= 0)%Z) ->
     (forall a b c, (localeCompare a b <= 0 -> localeCompare b c <= 0 ->
                     localeCompare a c <= 0)%Z) ->
     let sorted :=
       Scanner.sortRoutesByPriority minimatch cwd localeCompare routes options
     in
     Permutation routes sorted /\
     StronglySorted (inOrder minimatch cwd localeCompare options) sorted) /\
  (forall minimatch cwd options r,
     (forall srcs s s',
        sources options = Some srcs -> In s srcs -> In s' srcs ->
        scannerMatches minimatch cwd r s = true ->
        scannerMatches minimatch cwd r s' = true ->
        priority s = priority s') ->
     rank minimatch cwd options r = matchedRank minimatch cwd options r).
Proof.
  split; [repeat split; reflexivity|].
  split.
  - intros minimatch cwd localeCompare options routes total trans.
    now apply sortRoutesByPriority_ordered.
  - intros minimatch cwd options r. apply rank_matchedRank.
Qed.

(** The general part on the three routes of the priority test. *)
Lemma C2_sortRoutesByPriority_last_match_witness :
  Scanner.sortRoutesByPriority Examples.directoryGlob "" Js.compareCodeUnits
    [Examples.blog; Examples.products; Examples.docs] Examples.tiers
  = [Examples.products; Examples.docs; Examples.blog] /\
  StronglySorted
    (inOrder Examples.directoryGlob "" Js.compareCodeUnits Examples.tiers)
    [Examples.products; Examples.docs; Examples.blog].
Proof.
  split; [reflexivity|].
  exact (proj2 (proj1 (proj2 C2_sortRoutesByPriority_last_match)
    Examples.directoryGlob "" Js.compareCodeUnits Examples.tiers
    [Examples.blog; Examples.products; Examples.docs]
    compareCodeUnits_total compareCodeUnits_trans)).
Defined.

End SortFacts.

(* ================================================================== *)
(** * URL resolution *)
(* ================================================================== *)

Module UrlFacts.
Import Wording MetadataExtractor.

Lemma buildUrl_same urlPath siteUrl :
  Generator.buildUrl urlPath siteUrl = PerPage.buildUrl urlPath siteUrl.
Proof. reflexivity. Qed.

Lemma withLeadingSlash_starts path :
  Js.startsWith (withLeadingSlash path) "/" = true.
Proof.
  unfold withLeadingSlash. destruct (Js.startsWith path "/") eqn:E; [exact E|].
  reflexivity.
Qed.

Lemma withLeadingSlash_single path :
  Js.startsWith path "//" = false ->
  Js.startsWith (withLeadingSlash path) "//" = false.
Proof.
  intros H. unfold withLeadingSlash.
  destruct (Js.startsWith path "/") eqn:E; [exact H|].
  unfold Js.startsWith in *. simpl in *.
  destruct path as [|c path]; [reflexivity|].
  simpl in E. now destruct (Js.ch "/" c).
Qed.

Lemma stripTrailingSlash_clean base :
  endsWithTwoSlashes base = false ->
  Js.endsWithChar (stripTrailingSlash base) "/" = false.
Proof.
  unfold endsWithTwoSlashes, stripTrailingSlash.
  destruct (Js.endsWithChar base "/") eqn:E; simpl; intros H; assumption.
Qed.

(** C5 (amended).  Without a base the URL is the path as it is.  With one
    it is the base less one trailing slash, followed by the path with a
    leading slash; the two versions of the function agree.  When the base
    does not end with two slashes and the path does not start with two, the
    join has exactly one slash. *)
Theorem C5_buildUrl urlPath siteUrl :
  Generator.buildUrl urlPath siteUrl = PerPage.buildUrl urlPath siteUrl /\
  (truthy siteUrl = None -> Generator.buildUrl urlPath siteUrl = urlPath) /\
  (forall base, truthy siteUrl = Some base ->
     Generator.buildUrl urlPath siteUrl
     = stripTrailingSlash base ++ withLeadingSlash urlPath /\
     Js.startsWith (withLeadingSlash urlPath) "/" = true /\
     (endsWithTwoSlashes base = false ->
      Js.endsWithChar (stripTrailingSlash base) "/" = false) /\
     (Js.startsWith urlPath "//" = false ->
      Js.startsWith (withLeadingSlash urlPath) "//" = false)).
Proof.
  split; [reflexivity|]. split.
  - intros H. unfold Generator.buildUrl. now rewrite H.
  - intros base H. unfold Generator.buildUrl. rewrite H.
    split; [reflexivity|].
    split; [apply withLeadingSlash_starts|].
    split; [apply stripTrailingSlash_clean | apply withLeadingSlash_single].
Qed.

(** The theorem on the base of the trailing-slash test. *)
Lemma C5_buildUrl_witness :
  Generator.buildUrl "/products" (Some "https://turbodocx.com/")
  = "https://turbodocx.com/products" /\
  Js.endsWithChar (stripTrailingSlash "https://turbodocx.com/") "/" = false /\
  Js.startsWith (withLeadingSlash "/products") "//" = false.
Proof.
  pose proof (proj2 (proj2 (C5_buildUrl "/products" (Some "https://turbodocx.com/")))
                "https://turbodocx.com/" eq_refl) as (E & _ & B & P).
  split; [exact E|]. split; [exact (B eq_refl) | exact (P eq_refl)].
Defined.

(** C5 as stated fails for a base with two trailing slashes: one is
    stripped and the other meets the slash of the path. *)
Lemma C5_double_slash_counterexample :
  Generator.buildUrl "/products" (Some "https://example.com//")
  = "https://example.com//products" /\
  PerPage.buildUrl "/products" (Some "https://example.com//")
  = "https://example.com//products" /\
  Js.includes (Generator.buildUrl "/products" (Some "https://example.com//"))
              "com//products" = true.
Proof. repeat split; reflexivity. Qed.

End UrlFacts.

(* ================================================================== *)
(** * Escaping the body of an endpoint *)
(* ================================================================== *)

Module EscapeFacts.
Import Js JsFacts Wording.

(** One pass that replaces a single character [x] by [repl]. *)
Section OneChar.
Variable m : matcher.
Variable x : ascii.
Variable repl : string.
Hypothesis m_def : forall p c t,
  m p (String c t) = if ch x c then Some (repl, 1%nat) else None.

Lemma pass_char c t p :
  replaceG m p 0 (String c t)
  = (if ch x c then repl else String c "") ++ replaceG m (Some c) 0 t.
Proof.
  cbn [replaceG]. rewrite m_def. now destruct (ch x c).
Qed.

End OneChar.

Lemma reEscapeBackslash_def p c t :
  PerPage.reEscapeBackslash p (String c t) = if ch "\" c then Some ("\\", 1%nat) else None.
Proof. unfold PerPage.reEscapeBackslash. simpl. now destruct (ch "\" c). Qed.
Lemma reEscapeBacktick_def p c t :
  PerPage.reEscapeBacktick p (String c t) = if ch "`" c then Some ("\`", 1%nat) else None.
Proof. unfold PerPage.reEscapeBacktick. simpl. now destruct (ch "`" c). Qed.
Lemma reEscapeDollar_def p c t :
  PerPage.reEscapeDollar p (String c t) = if ch "$" c then Some ("\$", 1%nat) else None.
Proof. unfold PerPage.reEscapeDollar. simpl. now destruct (ch "$" c). Qed.

Lemma ch_sym c d : ch c d = ch d c.
Proof. apply Ascii.eqb_sym. Qed.

(** The three passes escape each character once. *)
Lemma escapedContent_escape s : PerPage.escapedContent s = escape s.
Proof.
  unfold PerPage.escapedContent, replaceAll.
  generalize (@None ascii) at 1 as p1.
  generalize (@None ascii) at 1 as p2.
  generalize (@None ascii) as p3.
  induction s as [|c s IH]; intros p3 p2 p1; [reflexivity|].
  rewrite (pass_char _ _ _ reEscapeBackslash_def).
  cbn [escape]. unfold escapeChar. rewrite !(ch_sym c).
  destruct (ch "\" c) eqn:E1.
  - apply ch_eq in E1. subst c.
    change ("\\" ++ replaceG PerPage.reEscapeBackslash (Some "\"%char) 0 s)
      with (String "\" (String "\" (replaceG PerPage.reEscapeBackslash (Some "\"%char) 0 s))).
    rewrite !(pass_char _ _ _ reEscapeBacktick_def). ch_lit.
    cbn [append].
    rewrite !(pass_char _ _ _ reEscapeDollar_def). ch_lit.
    cbn [append orb]. now rewrite IH.
  - cbn [append].
    rewrite (pass_char _ _ _ reEscapeBacktick_def).
    destruct (ch "`" c) eqn:E2.
    + apply ch_eq in E2. subst c.
      change ("\`" ++ ?t) with (String "\" (String "`" t)).
      cbn [append].
      rewrite !(pass_char _ _ _ reEscapeDollar_def). ch_lit.
      cbn [append orb]. now rewrite IH.
    + cbn [append].
      rewrite (pass_char _ _ _ reEscapeDollar_def).
      destruct (ch "$" c) eqn:E3; cbn [append orb]; rewrite IH;
        [apply ch_eq in E3; now subst c | reflexivity].
Qed.

Lemma unescape_escape s : Template.unescape (escape s) = Some s.
Proof.
  induction s as [|c s IH]; [reflexivity|].
  cbn [escape]. unfold escapeChar.
  destruct (ch c "\" || ch c "`" || ch c "$") eqn:E.
  - cbn [append Template.unescape]. ch_lit.
    unfold Template.escapeOf. rewrite E, IH. reflexivity.
  - apply orb_false_iff in E as [E E3]. apply orb_false_iff in E as [E1 E2].
    cbn [append Template.unescape]. now rewrite E1, E2, E3, IH.
Qed.

(** The per-page wrapper escapes backslash, backtick and dollar sign, and
    reading its body back gives the text again. *)
Lemma createRouteHandlerContent_round_trip markdownContent :
  PerPage.escapedContent markdownContent = escape markdownContent /\
  Template.unescape (PerPage.escapedContent markdownContent)
  = Some markdownContent.
Proof.
  rewrite escapedContent_escape. split; [reflexivity | apply unescape_escape].
Qed.

(** C6, on [generateRouteHandlerFile], which wraps the link index, the full
    digest and the custom documents: only backticks are escaped.  The body
    of a document with a backslash and a dollar sign is the document itself,
    which is not its escaped form and does not read back as the document;
    [createRouteHandlerContent] escapes the same document and reads back. *)
Theorem C6_generateRouteHandlerFile_escapes_backticks_only :
  let priceNote := Examples.priceNote in
  Generator.handlerBody priceNote = priceNote /\
  Generator.handlerBody priceNote <> escape priceNote /\
  Template.unescape (Generator.handlerBody priceNote) <> Some priceNote /\
  Template.unescape (Generator.handlerBody "C:\new") = Some "C:
ew" /\
  Template.unescape (Generator.handlerBody "${price}") = None /\
  Generator.handlerBody "Line 1
Line 2
Line 3" = "Line 1
Line 2
Line 3" /\
  PerPage.escapedContent priceNote = "C:\\new costs \${price}" /\
  Template.unescape (PerPage.escapedContent priceNote) = Some priceNote.
Proof. repeat split; try reflexivity; discriminate. Qed.

End EscapeFacts.

(* ================================================================== *)
(** * Filtering the routes of a custom document *)
(* ================================================================== *)

Module FilterFacts.

(** Only the include patterns decide. *)
Lemma filterRoutesForCustomFile_ignores_excludes routes customFile excludes :
  Generator.filterRoutesForCustomFile routes customFile
  = Generator.filterRoutesForCustomFile routes
      {| filename := filename customFile;
         cf_title := cf_title customFile;
         cf_description := cf_description customFile;
         cf_includePatterns := cf_includePatterns customFile;
         fullContent := fullContent customFile;
         cf_excludePatterns := excludes |}.
Proof. reflexivity. Qed.

(** The sibling filter of the per-page generator keeps no route that
    matches an exclude pattern, literally or behind [**/]. *)
Lemma filterRoutes_excluded minimatch cwd routes options pp excludes r :
  perPageOptions options = Some pp ->
  pp_excludePatterns pp = Some excludes ->
  In r (PerPage.filterRoutes minimatch cwd routes options) ->
  PerPage.matchesAny minimatch (Scanner.relativePath cwd (filePath r)) excludes
  = false.
Proof.
  intros Hpp Hex Hin. unfold PerPage.filterRoutes in Hin.
  rewrite Hpp, Hex in Hin. apply filter_In in Hin as [_ H].
  destruct excludes as [|e excludes]; [reflexivity|].
  destruct ((0 <? _)%nat && negb _); [discriminate|].
  simpl (0 <? _)%nat in H. cbn [andb] in H.
  now destruct (PerPage.matchesAny _ _ (e :: excludes)).
Qed.

(** C7, on [filterRoutesForCustomFile]: the sales file of the repository's
    example excludes [**/developers/**], and the page under
    [products/developers] is kept all the same; the filter tests whether the
    absolute path includes the pattern less its first [**], with no glob
    match and no look at the exclude patterns.  The per-page filter drops
    the same page under the same patterns. *)
Theorem C7_filterRoutesForCustomFile_keeps_excluded :
  Generator.filterRoutesForCustomFile [Examples.developersPage] Examples.salesFile
  = [Examples.developersPage] /\
  cf_excludePatterns Examples.salesFile = Some ["**/developers/**"] /\
  Examples.directoryGlob "app/products/developers/page.tsx" "**/developers/**"
  = true /\
  PerPage.filterRoutes Examples.directoryGlob "/site" [Examples.developersPage]
    {| generatePerPageMarkdown := None;
       perPageOptions :=
         Some {| pp_includeMetadata := None;
                 pp_includePatterns := Some (cf_includePatterns Examples.salesFile);
                 pp_excludePatterns := cf_excludePatterns Examples.salesFile |};
       opt_title := None; opt_description := None; siteUrl := None;
       appDir := None; excludePatterns := None; sources := None;
       customSections := None; contentOptions := None; customFiles := None |}
  = [].
Proof. repeat split; reflexivity. Qed.

End FilterFacts.

(* ================================================================== *)
(** * The path of a per-page handler *)
(* ================================================================== *)

Module HandlerPathFacts.

(** The paths of the tests of the per-page generator. *)
Lemma getRouteHandlerPath_tests :
  PerPage.getRouteHandlerPath
    (Examples.pageAt "/test-app/app/products/page.tsx" "/products") "/test-app/app"
  = "/test-app/app/products.html.md/route.ts" /\
  PerPage.getRouteHandlerPath
    (Examples.pageAt "/test-app/app/blog/posts/2024/page.tsx" "/blog/posts/2024")
    "/test-app/app"
  = "/test-app/app/blog/posts/2024.html.md/route.ts" /\
  PerPage.getRouteHandlerPath
    (Examples.pageAt "/test-app/app/products/[id]/page.tsx" "/products/:id")
    "/test-app/app"
  = "/test-app/app/products/[id].html.md/route.ts" /\
  PerPage.getRouteHandlerPath
    (Examples.pageAt "/test-app/app/docs/[...slug]/page.tsx" "/docs/*")
    "/test-app/app"
  = "/test-app/app/docs/[...slug].html.md/route.ts" /\
  PerPage.getRouteHandlerPath
    (Examples.pageAt "/test-app/app/page.tsx" "/") "/test-app/app"
  = "/test-app/app/index.html.md/route.ts" /\
  PerPage.getRouteHandlerPath
    (Examples.pageAt "/test-app/app/(marketing)/products/page.tsx" "/products")
    "/test-app/app"
  = "/test-app/app/products.html.md/route.ts".
Proof. repeat split; reflexivity. Qed.

(** C9, on a page whose directory ends with a group: the group goes and the
    slash in front of it stays, so the last segment is empty and the handler
    lands in a directory named [.html.md] inside [dashboard], where the page
    of [dashboard] itself has [dashboard.html.md]. *)
Theorem C9_getRouteHandlerPath_trailing_group :
  PerPage.getRouteHandlerPath Examples.overviewPage "/test-app/app"
  = "/test-app/app/dashboard/.html.md/route.ts" /\
  Js.replaceAll Scanner.reRouteGroup "dashboard/(overview)" = "dashboard/" /\
  PerPage.getRouteHandlerPath
    (Examples.pageAt "/test-app/app/dashboard/page.tsx" "/dashboard")
    "/test-app/app"
  = "/test-app/app/dashboard.html.md/route.ts".
Proof. repeat split; reflexivity. Qed.

End HandlerPathFacts.

(* ================================================================== *)
(** * Content extraction: truncation and missing files *)
(* ================================================================== *)

Module ContentFacts.
Import ContentProcessor.

Lemma take_length n s :
  (n <= String.length s)%nat -> String.length (Js.take n s) = n.
Proof.
  revert s. induction n as [|n IH]; intros s H; [reflexivity|].
  destruct s as [|c s]; simpl in *; [lia|].
  f_equal. apply IH. lia.
Qed.

Lemma take_drop n s : Js.take n s ++ Js.drop n s = s.
Proof.
  revert s. induction n as [|n IH]; intros s; [reflexivity|].
  destruct s as [|c s]; simpl; [reflexivity | now rewrite IH].
Qed.

(** The rule of truncation. *)
Lemma truncate_long max s :
  (Js.len s > max)%Z ->
  truncate max s = Js.take (Z.to_nat max) s ++ "...".
Proof.
  intros H. unfold truncate, Js.substring0.
  now rewrite (proj2 (Z.gtb_gt _ _) H).
Qed.

Lemma truncate_short max s : (Js.len s <= max)%Z -> truncate max s = s.
Proof.
  intros H. unfold truncate.
  destruct (Js.len s >? max)%Z eqn:E; [|reflexivity].
  apply Z.gtb_gt in E. lia.
Qed.

Lemma truncate_cut max s :
  (0 <= max < Js.len s)%Z ->
  Js.len (Js.take (Z.to_nat max) s) = max /\
  s = Js.take (Z.to_nat max) s ++ Js.drop (Z.to_nat max) s.
Proof.
  intros H. unfold Js.len in *. split; [|now rewrite take_drop].
  rewrite take_length; lia.
Qed.

(** C3, on [processContent].  On the primary path, and in the fallback
    extraction taken by itself, a text longer than the maximum is returned
    as its first [max] characters followed by [...], and a text no longer
    than the maximum as it is; the maximum is 50000 when none is
    configured.  But a page that does not parse does not get the fallback
    extraction: the handler of the parse failure reads [routeInfo], a name
    [processContent] does not have, and the call ends in that error in
    place of the truncated fallback text.  (Only where the name is bound
    globally does the handler go on to the fallback.) *)
Theorem C3_truncation_fallback_not_reached :
  forall (parse : string -> option Node) (fs : Fs.FileSystem)
         (r : RouteInfo) (content : string) (options : ContentOptions),
    let max := maxLength options in
    (forall ast routeInfoBound, parse content = Some ast ->
       let text := processedContent ast in
       ((Js.len text > max)%Z ->
          processContent parse routeInfoBound content options
          = Ok (Js.take (Z.to_nat max) text ++ "...")) /\
       ((Js.len text <= max)%Z ->
          processContent parse routeInfoBound content options = Ok text) /\
       (Fs.files fs (filePath r) = Some content ->
          extractPageContent parse fs routeInfoBound r options
          = do t <- processContent parse routeInfoBound content options;
            Ok (Some t))) /\
    (let text := fallbackText content in
     ((Js.len text > max)%Z ->
        fallbackContentExtraction content options
        = Js.take (Z.to_nat max) text ++ "...") /\
     ((Js.len text <= max)%Z ->
        fallbackContentExtraction content options = text)) /\
    (parse content = None ->
       processContent parse false content options
       = Throw "ReferenceError: routeInfo is not defined" /\
       (Fs.files fs (filePath r) = Some content ->
        extractPageContent parse fs false r options
        = Throw "ReferenceError: routeInfo is not defined") /\
       processContent parse true content options
       = Ok (fallbackContentExtraction content options)) /\
    (forall text, (0 <= max < Js.len text)%Z ->
       Js.len (Js.take (Z.to_nat max) text) = max /\
       text = Js.take (Z.to_nat max) text ++ Js.drop (Z.to_nat max) text) /\
    (maxContentLength options = None -> max = 50000%Z).
Proof.
  intros parse fs r content options max.
  split; [|split; [|split; [|split]]].
  - intros ast routeInfoBound Hparse text. split; [|split].
    + intros H. unfold processContent. rewrite Hparse.
      fold text. fold max. now rewrite truncate_long.
    + intros H. unfold processContent. rewrite Hparse.
      fold text. fold max. now rewrite truncate_short.
    + intros Hfile. unfold extractPageContent, Fs.existsSync, Fs.readFileSync.
      rewrite Hfile.
      now destruct (Fs.directories fs (filePath r)).
  - unfold fallbackContentExtraction. fold max. split.
    + apply truncate_long.
    + apply truncate_short.
  - intros Hparse. unfold processContent. rewrite Hparse.
    split; [reflexivity|]. split; [|reflexivity].
    intros Hfile. unfold extractPageContent, Fs.existsSync, Fs.readFileSync.
    rewrite Hfile.
    destruct (Fs.directories fs (filePath r)); cbn [negb bind];
      unfold processContent; now rewrite Hparse.
  - intros text. apply truncate_cut.
  - unfold max, maxLength. now intros ->.
Qed.

(** The theorem on a page that does not parse, with a string of eleven
    letters in it and a maximum of five: the fallback extraction would
    give the first five letters and the dots, and the page gets the
    error. *)
Lemma C3_truncation_fallback_not_reached_witness :
  processContent (fun _ => None) false Examples.brokenPage
    {| maxContentLength := Some 5%Z |}
  = Throw "ReferenceError: routeInfo is not defined" /\
  fallbackContentExtraction Examples.brokenPage
    {| maxContentLength := Some 5%Z |}
  = "Hello...".
Proof.
  pose proof (C3_truncation_fallback_not_reached (fun _ => None)
                Examples.emptyFs (Examples.pageAt "/app/page.tsx" "/")
                Examples.brokenPage {| maxContentLength := Some 5%Z |})
    as (_ & (Long & _) & Broken & _).
  split; [exact (proj1 (Broken eq_refl)) | exact (Long eq_refl)].
Defined.

(** Extraction on the tree of a small page. *)
Example processContent_productsTree :
  processContent (fun _ => Some Examples.productsTree) false "<div>...</div>"
    {| maxContentLength := None |}
  = Ok "Our Products We offer amazing products." /\
  parseHeadings (fun _ => Some Examples.productsTree) "<div>...</div>"
  = [ {| level := 1; text := "Our Products" |} ].
Proof. split; reflexivity. Qed.

(** A route whose page file is absent gets no content and no headings. *)
Lemma extract_missing parse fs routeInfoBound r options :
  Fs.existsSync fs (filePath r) = false ->
  extractPageContent parse fs routeInfoBound r options = Ok None /\
  extractHeadings parse fs r = Ok [].
Proof.
  intros H. unfold extractPageContent, extractHeadings. now rewrite H.
Qed.

(** C8.  An app directory that does not exist gives no routes and no
    error; a route whose page file does not exist gets no content and an
    empty list of headings, without an error, and the enrichment goes on with
    the routes behind it. *)
Theorem C8_missing_input :
  (forall minimatch cwd fs appDir options,
     Fs.existsSync fs (Path.resolve cwd appDir) = false ->
     Scanner.scanAppDirectory minimatch cwd fs appDir options = Ok []) /\
  (forall parse fs routeInfoBound r options,
     Fs.existsSync fs (filePath r) = false ->
     extractPageContent parse fs routeInfoBound r options = Ok None /\
     extractHeadings parse fs r = Ok []) /\
  (forall parse fs routeInfoBound r rest options,
     Fs.existsSync fs (filePath r) = false ->
     enrichRoutesWithContent parse fs routeInfoBound (r :: rest) options
     = do enriched <-
            enrichRoutesWithContent parse fs routeInfoBound rest options;
       Ok ({| filePath := filePath r; urlPath := urlPath r; type := type r;
              metadata := metadata r; content := None;
              headings := Some [] |} :: enriched)) /\
  (forall parse fs routeInfoBound routes options,
     Forall (fun r => Fs.existsSync fs (filePath r) = false) routes ->
     exists enriched,
       enrichRoutesWithContent parse fs routeInfoBound routes options
       = Ok enriched /\
       List.length enriched = List.length routes /\
       Forall (fun r => content r = None /\ headings r = Some []) enriched).
Proof.
  split; [|split; [|split]].
  - intros minimatch cwd fs dir options H.
    unfold Scanner.scanAppDirectory. now rewrite H.
  - intros parse fs bound r options. apply extract_missing.
  - intros parse fs bound r rest options H.
    cbn [enrichRoutesWithContent].
    destruct (extract_missing parse fs bound r options H) as [-> ->]. reflexivity.
  - intros parse fs bound routes options H.
    induction H as [|r rest Hr Hrest (enriched & E & L & F)].
    + exists []. repeat split; constructor.
    + eexists. cbn [enrichRoutesWithContent].
      destruct (extract_missing parse fs bound r options Hr) as [-> ->].
      cbn [bind]. rewrite E. cbn [bind].
      split; [reflexivity|]. split; [simpl; now rewrite L|].
      constructor; [now split | exact F].
Qed.

(** The theorem on a file system with nothing in it. *)
Lemma C8_missing_input_witness :
  Scanner.scanAppDirectory Examples.directoryGlob "/project" Examples.emptyFs
    "app" noOptions = Ok [] /\
  extractPageContent (fun _ => None) Examples.emptyFs false
    (Examples.pageAt "/app/non-existent/page.tsx" "/non-existent")
    {| maxContentLength := None |} = Ok None /\
  extractHeadings (fun _ => None) Examples.emptyFs
    (Examples.pageAt "/app/non-existent/page.tsx" "/non-existent") = Ok [].
Proof.
  split.
  - exact (proj1 C8_missing_input Examples.directoryGlob "/project"
             Examples.emptyFs "app" noOptions eq_refl).
  - exact (proj1 (proj2 C8_missing_input) (fun _ => None) Examples.emptyFs
             false (Examples.pageAt "/app/non-existent/page.tsx" "/non-existent")
             {| maxContentLength := None |} eq_refl).
Defined.

End ContentFacts.

(* ================================================================== *)
(** * The full digest and the headings of routes without content *)
(* ================================================================== *)

Module DigestFacts.
Import Grouping GroupingFacts Wording MetadataExtractor.

Section OtherHeadings.
Variable h : RouteInfo -> option (list Heading).
Let g := replaceHeadings h.

Lemma replace_filePath r : filePath (g r) = filePath r.
Proof. unfold g, replaceHeadings. now destruct (truthy (content r)). Qed.

Lemma replace_content r : content (g r) = content r.
Proof. unfold g, replaceHeadings. now destruct (truthy (content r)). Qed.

Lemma replace_title r : getBestTitle (g r) = getBestTitle r.
Proof. unfold g, replaceHeadings. now destruct (truthy (content r)). Qed.

Lemma replace_description r : getBestDescription (g r) = getBestDescription r.
Proof. unfold g, replaceHeadings. now destruct (truthy (content r)). Qed.

Lemma replace_urlPath r : urlPath (g r) = urlPath r.
Proof. unfold g, replaceHeadings. now destruct (truthy (content r)). Qed.

Lemma replace_section options r :
  sectionBy generatorMatches options (g r) = sectionBy generatorMatches options r.
Proof.
  unfold sectionBy, generatorMatches. now rewrite replace_filePath.
Qed.

(** The lines of a route do not change with the headings of a route
    without content. *)
Lemma replace_fullRouteParts options r :
  Generator.fullRouteParts options (g r) = Generator.fullRouteParts options r.
Proof.
  unfold Generator.fullRouteParts.
  rewrite replace_title, replace_description, replace_urlPath, replace_content.
  destruct (truthy (content r)) eqn:E; [|reflexivity].
  unfold g, replaceHeadings. now rewrite E.
Qed.

Lemma flat_map_map {X Y Z} (f : Y -> list Z) (k : X -> Y) l :
  flat_map f (map k l) = flat_map (fun x => f (k x)) l.
Proof.
  induction l as [|x l IH]; [reflexivity|]. simpl. now rewrite IH.
Qed.

Lemma replace_bucket options k routes :
  bucket (sectionBy generatorMatches options) k (map g routes)
  = map g (bucket (sectionBy generatorMatches options) k routes).
Proof.
  unfold bucket. rewrite filter_map_swap. f_equal.
  apply filter_ext. intros r. now rewrite replace_section.
Qed.

Lemma replace_sections options keys routes :
  flat_map (Generator.fullSectionParts options)
    (filter nonEmptyEntry
       (table (sectionBy generatorMatches options) keys (map g routes)))
  = flat_map (Generator.fullSectionParts options)
      (filter nonEmptyEntry
         (table (sectionBy generatorMatches options) keys routes)).
Proof.
  induction keys as [|k keys IH]; [reflexivity|].
  set (S := sectionBy generatorMatches options) in *.
  change (table S (k :: keys) (map g routes))
    with ((k, bucket S k (map g routes)) :: table S keys (map g routes)).
  change (table S (k :: keys) routes)
    with ((k, bucket S k routes) :: table S keys routes).
  cbn [filter]. unfold S at 1 3. rewrite replace_bucket. fold S.
  replace (nonEmptyEntry (k, map g (bucket S k routes)))
    with (nonEmptyEntry (k, bucket S k routes))
    by (unfold nonEmptyEntry; cbn [snd]; now rewrite length_map).
  destruct (nonEmptyEntry (k, bucket S k routes)); [|exact IH].
  cbn [flat_map]. rewrite IH. f_equal.
  unfold Generator.fullSectionParts. cbn [fst snd]. f_equal.
  unfold S. rewrite replace_bucket.
  rewrite flat_map_map. apply flat_map_ext. intros r.
  apply replace_fullRouteParts.
Qed.

Lemma replace_digest routes options :
  Generator.generateLLMsFullTxt (map g routes) options
  = Generator.generateLLMsFullTxt routes options.
Proof.
  unfold Generator.generateLLMsFullTxt.
  rewrite !groupBySection_table, replace_sections. reflexivity.
Qed.

End OtherHeadings.

Lemma fullRouteParts_no_content options r :
  truthy (content r) = None ->
  Generator.fullRouteParts options r
  = (["### " ++ getBestTitle r; "";
      "URL: " ++ Generator.buildUrl (urlPath r) (siteUrl options); ""]%string
     ++ match getBestDescription r with
        | Some d => [d; ""]
        | None => []
        end
     ++ ["---"; ""])%list.
Proof.
  intros H. unfold Generator.fullRouteParts. rewrite H.
  now destruct (getBestDescription r).
Qed.

Lemma formatContentForLLM_no_content r :
  truthy (content r) = None ->
  ContentProcessor.formatContentForLLM r
  = Js.join ContentProcessor.blankLine
      (map headingLine match headings r with Some hs => hs | None => [] end).
Proof.
  intros H. unfold ContentProcessor.formatContentForLLM. rewrite H.
  now destruct (headings r).
Qed.

(** C10.  The full digest of a list of routes is the same whatever the
    headings of its routes without content are: such a route contributes
    its title, URL, description and separator only, while the formatter
    alone gives the block of its headings. *)
Theorem C10_headings_of_contentless_routes :
  (forall h routes options,
     Generator.generateLLMsFullTxt (map (replaceHeadings h) routes) options
     = Generator.generateLLMsFullTxt routes options) /\
  (forall options r,
     truthy (content r) = None ->
     Generator.fullRouteParts options r
     = (["### " ++ getBestTitle r; "";
         "URL: " ++ Generator.buildUrl (urlPath r) (siteUrl options); ""]%string
        ++ match getBestDescription r with
           | Some d => [d; ""]
           | None => []
           end
        ++ ["---"; ""])%list) /\
  (forall r,
     truthy (content r) = None ->
     ContentProcessor.formatContentForLLM r
     = Js.join ContentProcessor.blankLine
         (map headingLine match headings r with Some hs => hs | None => [] end)).
Proof.
  split; [exact replace_digest|].
  split; [exact fullRouteParts_no_content | exact formatContentForLLM_no_content].
Qed.

(** The theorem on the route without content of the formatter's test. *)
Lemma C10_headings_of_contentless_routes_witness :
  ContentProcessor.formatContentForLLM Examples.headingsOnly = "# Products" /\
  Generator.fullRouteParts noOptions Examples.headingsOnly
  = ["### Products"; ""; "URL: /products"; ""; "---"; ""] /\
  Generator.generateLLMsFullTxt [Examples.headingsOnly] noOptions
  = Generator.generateLLMsFullTxt
      [Examples.pageAt "/app/products/page.tsx" "/products"] noOptions.
Proof.
  split; [|split].
  - exact (proj2 (proj2 C10_headings_of_contentless_routes)
             Examples.headingsOnly eq_refl).
  - exact (proj1 (proj2 C10_headings_of_contentless_routes)
             noOptions Examples.headingsOnly eq_refl).
  - symmetry.
    exact (proj1 C10_headings_of_contentless_routes (fun _ => None)
             [Examples.headingsOnly] noOptions).
Defined.

End DigestFacts.


(* ================================================================== *)
(** * More on URL derivation and discovery *)
(* ================================================================== *)

Module DiscoveryFacts.
Import Js JsFacts Segments Scanner ScannerFacts Properties.

(** A path of well-formed segments that ends in a group behind a page
    segment derives to the URL of its segments with a slash at the end: the
    group goes and the slash in front of it stays. *)
Theorem trailing_group_keeps_slash segs :
  Forall (fun s => wfSegment s = true) segs ->
  endsWithGroup segs = true ->
  filePathToUrlPath (renderPath segs) = urlOfSegments segs ++ "/".
Proof.
  intros H E. now rewrite (filePathToUrlPath_renderPath _ H), E.
Qed.

Lemma trailing_group_keeps_slash_witness :
  filePathToUrlPath "dashboard/(overview)" = "/dashboard/".
Proof.
  exact (trailing_group_keeps_slash [Static "dashboard"; Group "overview"]
           ltac:(repeat constructor) eq_refl).
Defined.

Lemma urlChar_split c :
  urlChar c = true ->
  isNot "\" c = true /\ isNot "(" c = true /\ isNot "[" c = true.
Proof.
  unfold urlChar. intros H.
  apply andb_true_iff in H as [H H3]. apply andb_true_iff in H as [H1 H2].
  auto.
Qed.

Lemma passes_identity u :
  Js.all urlChar u = true ->
  replaceAll reDynamic
    (replaceAll reCatchAll
       (replaceAll reOptionalCatchAll
          (replaceAll reRouteGroup (replaceAll reBackslash u)))) = u.
Proof.
  intros H. unfold replaceAll.
  rewrite (replaceG_inert_end _ reBackslash_prev (isNot "\")
             u (fun c t p => reBackslash_inert c t p)).
  2:{ revert H. apply all_impl. intros c Hc. now apply urlChar_split in Hc. }
  rewrite (replaceG_inert_end _ reRouteGroup_prev (isNot "(")
             u (fun c t p => reRouteGroup_inert c t p)).
  2:{ revert H. apply all_impl. intros c Hc. now apply urlChar_split in Hc. }
  assert (Hb : Js.all (isNot "[") u = true).
  { revert H. apply all_impl. intros c Hc. now apply urlChar_split in Hc. }
  rewrite (replaceG_inert_end _ reOptionalCatchAll_prev (isNot "[")
             u (fun c t p => reOptionalCatchAll_inert c t p) Hb).
  rewrite (replaceG_inert_end _ reCatchAll_prev (isNot "[")
             u (fun c t p => reCatchAll_inert c t p) Hb).
  now rewrite (replaceG_inert_end _ reDynamic_prev (isNot "[")
             u (fun c t p => reDynamic_inert c t p) Hb).
Qed.

(** A text that starts with a slash and has no backslash, parenthesis or
    bracket in it is its own URL. *)
Lemma filePathToUrlPath_fixed u :
  Js.all urlChar u = true -> startsWith u "/" = true ->
  filePathToUrlPath u = u.
Proof.
  intros H S. unfold filePathToUrlPath.
  rewrite (passes_identity u H), S. cbn [negb].
  destruct (String.eqb u "/") eqn:E1; cbn [orb].
  - apply String.eqb_eq in E1. now subst.
  - destruct (String.eqb u "") eqn:E2; [|reflexivity].
    apply String.eqb_eq in E2. subst. discriminate.
Qed.

Lemma word_urlChar c : isWord c = true -> urlChar c = true.
Proof.
  intros H. unfold urlChar.
  now rewrite (isWord_not c "\"%char eq_refl H),
    (isWord_not c "("%char eq_refl H), (isWord_not c "["%char eq_refl H).
Qed.

Lemma plain_urlChar c : plainChar c = true -> urlChar c = true.
Proof.
  intros H. unfold urlChar.
  now rewrite (plain_not_backslash _ H), (plain_not_paren _ H),
    (plain_not_bracket _ H).
Qed.

Lemma urlSegment_urlChar s :
  wfSegment s = true -> isGroup s = false ->
  Js.all urlChar (urlSegment s) = true.
Proof.
  intros H G. destruct s as [n|n|n|n|n]; try discriminate;
    [split_wf H | apply wf_dynamic in H as (Hne & Hall & _)
     | split_wf H | split_wf H]; simpl.
  - revert Hall. apply all_impl, plain_urlChar.
  - revert Hall. apply all_impl. intros c Hc.
    now apply plain_urlChar, dynamic_plain.
  - reflexivity.
  - revert Hall. apply all_impl, word_urlChar.
Qed.

Lemma renderNoGroups_urlChar segs :
  Forall (fun s => wfSegment s = true) segs ->
  Js.all urlChar (renderNoGroups urlSegment segs) = true.
Proof.
  induction 1 as [|s rest Hs Hrest IH]; [reflexivity|].
  cbn [renderNoGroups]. destruct (isGroup s) eqn:G; [exact IH|].
  rewrite all_app, (urlSegment_urlChar s Hs G).
  destruct rest; [reflexivity|]. simpl. exact IH.
Qed.

(** Deriving again from a derived URL changes nothing: on the paths of
    well-formed segments, URL derivation is idempotent. *)
Theorem filePathToUrlPath_idempotent segs :
  Forall (fun s => wfSegment s = true) segs ->
  filePathToUrlPath (filePathToUrlPath (renderPath segs))
  = filePathToUrlPath (renderPath segs).
Proof.
  intros H. apply filePathToUrlPath_fixed.
  - unfold filePathToUrlPath. rewrite (passes_renderPath _ H).
    rewrite (renderNoGroups_no_slash _ H). cbn [negb].
    pose proof (renderNoGroups_urlChar _ H) as U.
    destruct (String.eqb _ "/" || String.eqb _ ""); [reflexivity|].
    simpl. exact U.
  - apply filePathToUrlPath_leading_slash.
Qed.

Lemma filePathToUrlPath_idempotent_witness :
  filePathToUrlPath (filePathToUrlPath "(shop)/products/[id]/[...rest]")
  = filePathToUrlPath "(shop)/products/[id]/[...rest]".
Proof.
  exact (filePathToUrlPath_idempotent
           [Group "shop"; Static "products"; Dynamic "id"; CatchAll "rest"]
           ltac:(repeat constructor)).
Defined.

(** ** What discovery returns *)

Lemma Dirent_nested_ind (P : Fs.Dirent -> Prop) :
  (forall name, P (Fs.File name)) ->
  (forall name, P (Fs.Other name)) ->
  (forall name error, P (Fs.Unreadable name error)) ->
  (forall name entries, Forall P entries -> P (Fs.Directory name entries)) ->
  forall e, P e.
Proof.
  intros file_case other_case unreadable_case directory_case.
  fix IH 1. intros [name|name entries|name|name error].
  - apply file_case.
  - apply directory_case.
    induction entries as [|x xs IHxs]; constructor; [apply IH | exact IHxs].
  - apply other_case.
  - apply unreadable_case.
Qed.

Lemma Forall_flat_map_each {A B} (Q : B -> Prop) (f : A -> list B) l :
  Forall (fun a => Forall Q (f a)) l -> Forall Q (flat_map f l).
Proof.
  induction 1 as [|a l Ha Hl IH]; simpl; [constructor|].
  apply Forall_app. now split.
Qed.

(** What holds of the routes of every turn holds of the routes of the
    loop. *)
Lemma scanEntries_each {A} (Q : RouteInfo -> Prop)
  (turn : A -> result (list RouteInfo)) entries :
  Forall (fun e => forall found, turn e = Ok found -> Forall Q found) entries ->
  forall found, scanEntries turn entries = Ok found -> Forall Q found.
Proof.
  induction 1 as [|e later He _ IH]; intros found; cbn [scanEntries].
  - intros [= <-]. constructor.
  - destruct (turn e) as [here|] eqn:T; cbn [bind]; [|discriminate].
    destruct (scanEntries turn later) as [more|]; cbn [bind]; [|discriminate].
    intros [= <-]. apply Forall_app. split; [now apply He | now apply IH].
Qed.

Lemma isRouteFile_page name :
  isRouteFile name = true -> startsWith name "page." = true ->
  name = "page.tsx" \/ name = "page.ts".
Proof.
  unfold isRouteFile. intros H S.
  repeat (apply orb_true_iff in H as [H|H]);
    apply String.eqb_eq in H; subst; auto; discriminate.
Qed.

Section Discovered.
Variable minimatch : string -> string -> bool.
Variable cwd : string.
Variable fs : Fs.FileSystem.

Lemma scanEntry_discovered options appDir entry :
  forall dir found,
    scanEntry minimatch options appDir dir entry = Ok found ->
    Forall (discovered minimatch options appDir) found.
Proof.
  induction entry as [name|name|name error|name entries IH]
    using Dirent_nested_ind; intros dir found; cbn [scanEntry].
  - destruct (shouldExclude _ _ _) eqn:X; [intros [= <-]; constructor|].
    destruct (isRouteFile name) eqn:R; [|intros [= <-]; constructor].
    destruct (startsWith name "page.") eqn:S; intros [= <-]; [|constructor].
    constructor; [|constructor].
    destruct (isRouteFile_page name R S) as [-> | ->];
      (repeat split; try reflexivity;
       [ eexists _, _; split; [reflexivity | auto]
       | apply filePathToUrlPath_leading_slash
       | exact X ]).
  - intros [= <-]. constructor.
  - destruct (shouldExclude _ _ _); [intros [= <-]; constructor | discriminate].
  - destruct (shouldExclude _ _ _); [intros [= <-]; constructor|].
    apply scanEntries_each.
    revert IH. apply Forall_impl. intros e He. apply He.
Qed.

Lemma scanDirectory_found options dir appDir routes :
  scanDirectory minimatch fs options dir appDir = Ok routes ->
  Forall (discovered minimatch options appDir) routes.
Proof.
  unfold scanDirectory.
  destruct (Fs.readdirSync fs dir) as [entries|e]; cbn [bind]; [|discriminate].
  apply scanEntries_each, Forall_forall.
  intros e _ found. apply scanEntry_discovered.
Qed.

(** The routes of discovery are pages with a URL path that starts with a
    slash. *)
Lemma scanAppDirectory_pages appDir options routes :
  scanAppDirectory minimatch cwd fs appDir options = Ok routes ->
  Forall (fun r => type r = page /\ startsWith (urlPath r) "/" = true) routes.
Proof.
  unfold scanAppDirectory.
  destruct (negb (Fs.existsSync fs _)); [intros [= <-]; constructor|].
  destruct (scanDirectory _ _ _ _ _) as [found|] eqn:S; simpl;
    [|discriminate].
  intros [= <-]. apply scanDirectory_found in S.
  revert S. apply Forall_impl. intros r (_ & T & _ & U & _). now split.
Qed.

(** Whatever the directory tree, discovery returns page files only
    (page.tsx or page.ts, never a layout or a route handler), each typed
    as a page, with the URL derived from its directory and starting with a
    slash, matched by none of the built-in or configured exclusions, and
    with no metadata, content or headings yet. *)
Theorem scanAppDirectory_discovered appDir options routes :
  scanAppDirectory minimatch cwd fs appDir options = Ok routes ->
  Forall (discovered minimatch options (Path.resolve cwd appDir)) routes.
Proof.
  unfold scanAppDirectory.
  destruct (negb (Fs.existsSync fs _)); [intros [= <-]; constructor|].
  destruct (scanDirectory _ _ _ _ _) as [found|] eqn:S; simpl;
    [|discriminate].
  intros [= <-]. now apply scanDirectory_found in S.
Qed.

(** ** More exclusions, fewer routes *)

Lemma shouldExclude_more rel (few many : list string) :
  incl few many ->
  shouldExclude minimatch rel few = true ->
  shouldExclude minimatch rel many = true.
Proof.
  unfold shouldExclude. intros I H.
  apply existsb_exists in H as (pat & Hin & Hm).
  apply existsb_exists. exists pat. split; [|exact Hm].
  apply in_app_iff in Hin as [Hin|Hin]; apply in_app_iff; auto.
Qed.

(** A loop whose turns each find less, where they return, finds less. *)
Lemma scanEntries_fewer {A} (turn turn' : A -> result (list RouteInfo))
  entries :
  Forall (fun e => forall found, turn e = Ok found ->
                   exists found', turn' e = Ok found' /\ incl found' found)
         entries ->
  forall found, scanEntries turn entries = Ok found ->
  exists found', scanEntries turn' entries = Ok found' /\ incl found' found.
Proof.
  induction 1 as [|e later He _ IH]; intros found; cbn [scanEntries].
  - intros [= <-]. exists []. split; [reflexivity | apply incl_refl].
  - destruct (turn e) as [here|] eqn:T; cbn [bind]; [|discriminate].
    destruct (scanEntries turn later) as [more|]; cbn [bind]; [|discriminate].
    intros [= <-].
    destruct (He here eq_refl) as (here' & -> & Ih).
    destruct (IH more eq_refl) as (more' & -> & Im).
    cbn [bind]. eexists. split; [reflexivity|]. now apply incl_app_app.
Qed.

Lemma scanEntry_more fewer more appDir entry :
  incl (excludesOf fewer) (excludesOf more) ->
  forall dir found,
    scanEntry minimatch fewer appDir dir entry = Ok found ->
    exists found',
      scanEntry minimatch more appDir dir entry = Ok found' /\
      incl found' found.
Proof.
  intros I.
  assert (Skip : forall found : list RouteInfo,
            exists found', Ok (A := list RouteInfo) [] = Ok found' /\
                           incl found' found).
  { intros found. exists []. split; [reflexivity | easy]. }
  induction entry as [name|name|name error|name entries IH]
    using Dirent_nested_ind;
    intros dir found; cbn [scanEntry]; fold (excludesOf fewer) (excludesOf more).
  - destruct (shouldExclude _ _ (excludesOf more)) eqn:M; [intros _; apply Skip|].
    destruct (shouldExclude _ _ (excludesOf fewer)) eqn:F.
    + now rewrite (shouldExclude_more _ _ _ I F) in M.
    + intros H. exists found. split; [exact H | apply incl_refl].
  - intros H. exists found. split; [exact H | apply incl_refl].
  - destruct (shouldExclude _ _ (excludesOf more)) eqn:M; [intros _; apply Skip|].
    destruct (shouldExclude _ _ (excludesOf fewer)) eqn:F; [|discriminate].
    now rewrite (shouldExclude_more _ _ _ I F) in M.
  - destruct (shouldExclude _ _ (excludesOf more)) eqn:M; [intros _; apply Skip|].
    destruct (shouldExclude _ _ (excludesOf fewer)) eqn:F.
    + now rewrite (shouldExclude_more _ _ _ I F) in M.
    + apply scanEntries_fewer.
      revert IH. apply Forall_impl. intros e He. apply He.
Qed.

(** Exclusion patterns only ever remove routes, and errors: when discovery
    returns under one configuration, it returns under every configuration
    that has all its exclude patterns and more, and finds no route there
    that the first does not find.  (The converse fails: a directory that
    cannot be read stops the scan unless a pattern excludes it.) *)
Theorem scanAppDirectory_more_exclusions appDir fewer more found :
  incl (excludesOf fewer) (excludesOf more) ->
  scanAppDirectory minimatch cwd fs appDir fewer = Ok found ->
  exists found',
    scanAppDirectory minimatch cwd fs appDir more = Ok found' /\
    incl found' found.
Proof.
  intros I. unfold scanAppDirectory, scanDirectory.
  destruct (negb (Fs.existsSync fs _)).
  - intros [= <-]. exists []. split; [reflexivity | apply incl_refl].
  - destruct (Fs.readdirSync fs _) as [entries|e]; cbn [bind]; [|discriminate].
    destruct (scanEntries _ entries) as [here|] eqn:S; cbn [bind];
      [|discriminate].
    intros [= <-].
    assert (Each : Forall
              (fun e => forall f,
                 scanEntry minimatch fewer (Path.resolve cwd appDir)
                   (Path.resolve cwd appDir) e = Ok f ->
                 exists f',
                   scanEntry minimatch more (Path.resolve cwd appDir)
                     (Path.resolve cwd appDir) e = Ok f' /\ incl f' f)
              entries).
    { apply Forall_forall. intros e _ f. now apply scanEntry_more. }
    destruct (scanEntries_fewer _ _ entries Each here S) as (here' & E & Ih).
    rewrite E. cbn [bind]. eexists. split; [reflexivity | exact Ih].
Qed.

End Discovered.

Lemma scanAppDirectory_more_exclusions_witness :
  exists found',
    Scanner.scanAppDirectory Examples.directoryGlob "/" Examples.lockedFs
      "/test-app/app" (Examples.withExcludes ["private/**"; "about/**"])
    = Ok found' /\
    incl found' [ mkRoute "/test-app/app/page.tsx" "/" page;
                  mkRoute "/test-app/app/about/page.tsx" "/about" page ].
Proof.
  exact (scanAppDirectory_more_exclusions Examples.directoryGlob "/"
           Examples.lockedFs "/test-app/app"
           (Examples.withExcludes ["private/**"])
           (Examples.withExcludes ["private/**"; "about/**"]) _
           ltac:(unfold incl; simpl; intros x [<-|[]]; now left) eq_refl).
Defined.

Lemma scanAppDirectory_discovered_witness :
  Forall (discovered Examples.directoryGlob noOptions "/test-app/app")
    [ mkRoute "/test-app/app/page.tsx" "/" page;
      mkRoute "/test-app/app/about/page.tsx" "/about" page;
      mkRoute "/test-app/app/(marketing)/contact/page.tsx" "/contact" page ].
Proof.
  exact (scanAppDirectory_discovered Examples.directoryGlob "/"
           Examples.appFs "/test-app/app" noOptions _ eq_refl).
Defined.

End DiscoveryFacts.

(* ================================================================== *)
(** * More on sections: what they hold together, and their order *)
(* ================================================================== *)

Module SectionOrderFacts.
Import Grouping GroupingFacts.

Section Buckets.
Variable sectionOf : RouteInfo -> string.

Lemma flat_map_nonEmpty (m : JsMap.t (list RouteInfo)) :
  flat_map snd (filter nonEmptyEntry m) = flat_map snd m.
Proof.
  induction m as [|[k l] m IH]; [reflexivity|].
  destruct l as [|r l]; simpl; [exact IH | now rewrite IH].
Qed.

Lemma flat_map_table keys routes :
  flat_map snd (table sectionOf keys routes)
  = flat_map (fun k => bucket sectionOf k routes) keys.
Proof.
  induction keys as [|k keys IH]; [reflexivity|]. simpl. now rewrite IH.
Qed.

Lemma buckets_nil keys : flat_map (fun k => bucket sectionOf k []) keys = [].
Proof. induction keys as [|k keys IH]; [reflexivity | exact IH]. Qed.

Lemma bucket_cons k r rs :
  bucket sectionOf k (r :: rs)
  = if String.eqb (sectionOf r) k then r :: bucket sectionOf k rs
    else bucket sectionOf k rs.
Proof. reflexivity. Qed.

Lemma buckets_skip r rs keys :
  ~ In (sectionOf r) keys ->
  flat_map (fun k => bucket sectionOf k (r :: rs)) keys
  = flat_map (fun k => bucket sectionOf k rs) keys.
Proof.
  induction keys as [|k keys IH]; intros H; [reflexivity|].
  cbn [flat_map]. rewrite bucket_cons.
  destruct (String.eqb (sectionOf r) k) eqn:E.
  - apply String.eqb_eq in E. elim H. now left.
  - f_equal. apply IH. intros Hin. apply H. now right.
Qed.

Lemma buckets_cons r rs keys :
  NoDup keys -> In (sectionOf r) keys ->
  Permutation (flat_map (fun k => bucket sectionOf k (r :: rs)) keys)
              (r :: flat_map (fun k => bucket sectionOf k rs) keys).
Proof.
  induction keys as [|k keys IH]; intros ND Hin; [contradiction|].
  inversion ND as [|? ? Hk ND']; subst.
  cbn [flat_map]. rewrite bucket_cons.
  destruct (String.eqb (sectionOf r) k) eqn:E.
  - apply String.eqb_eq in E. subst k.
    rewrite (buckets_skip r rs keys Hk). reflexivity.
  - destruct Hin as [->|Hin]; [now rewrite String.eqb_refl in E|].
    rewrite (IH ND' Hin). symmetry. apply Permutation_middle.
Qed.

Lemma buckets_perm keys routes :
  NoDup keys -> (forall r, In (sectionOf r) keys) ->
  Permutation (flat_map (fun k => bucket sectionOf k routes) keys) routes.
Proof.
  intros ND All. induction routes as [|r rs IH].
  - rewrite buckets_nil. constructor.
  - rewrite (buckets_cons r rs keys ND (All r)). now constructor.
Qed.

Lemma result_perm keys routes :
  NoDup keys -> (forall r, In (sectionOf r) keys) ->
  Permutation
    (flat_map snd (filter nonEmptyEntry (table sectionOf keys routes)))
    routes.
Proof.
  intros ND All. rewrite flat_map_nonEmpty, flat_map_table.
  now apply buckets_perm.
Qed.

Lemma table_app keys keys' routes :
  table sectionOf (keys ++ keys') routes
  = (table sectionOf keys routes ++ table sectionOf keys' routes)%list.
Proof. apply map_app. Qed.

End Buckets.

Lemma sections_perm_generator routes options :
  Permutation (flat_map snd (Generator.groupBySection routes options)) routes.
Proof.
  rewrite groupBySection_table.
  apply result_perm; [apply generatorKeys_NoDup | apply generator_sectionOf_key].
Qed.

(** The sections of either grouping function, one after the other, hold
    the given routes and nothing else: no route is lost and none is
    listed twice, also when the same route is given more than once. *)
Theorem sections_hold_the_routes minimatch cwd routes options :
  Permutation
    (flat_map snd (Scanner.groupRoutesBySection minimatch cwd routes options))
    routes /\
  Permutation (flat_map snd (Generator.groupBySection routes options)) routes.
Proof.
  rewrite groupRoutesBySection_table, groupBySection_table. split.
  - apply result_perm;
      [apply scannerKeys_NoDup | apply scanner_sectionOf_key].
  - apply result_perm;
      [apply generatorKeys_NoDup | apply generator_sectionOf_key].
Qed.

Lemma addKey_prefix keys k : exists rest, addKey keys k = (keys ++ rest)%list.
Proof.
  unfold addKey. destruct (existsb _ keys).
  - exists []. now rewrite app_nil_r.
  - now exists [k].
Qed.

Lemma keysAfter_prefix srcs : forall keys,
  exists rest, keysAfter keys srcs = (keys ++ rest)%list.
Proof.
  induction srcs as [|s srcs IH]; intros keys.
  - exists []. simpl. now rewrite app_nil_r.
  - destruct (addKey_prefix keys (section s)) as [r1 E1].
    destruct (IH (addKey keys (section s))) as [r2 E2].
    exists (r1 ++ r2)%list. unfold keysAfter in *. simpl.
    now rewrite E2, E1, <- app_assoc.
Qed.

Lemma scannerKeys_head options :
  exists rest, scannerKeys options = "Pages" :: rest.
Proof.
  unfold scannerKeys. destruct (sources options) as [srcs|].
  - destruct (keysAfter_prefix srcs ["Pages"]) as [rest E]. now exists rest.
  - now exists [].
Qed.

Lemma generatorKeys_last options :
  (forall srcs, sources options = Some srcs ->
     ~ In "Pages" (map section srcs)) ->
  exists front, generatorKeys options = (front ++ ["Pages"])%list.
Proof.
  intros H. unfold generatorKeys.
  destruct (sources options) as [srcs|].
  - exists (keysAfter [] srcs). unfold addKey.
    destruct (existsb _ _) eqn:E; [|reflexivity].
    apply existsb_eqb_In, keysAfter_In in E as [[]|E].
    now elim (H srcs eq_refl).
  - now exists [].
Qed.

(** The two grouping functions order the sections differently.  The
    scanner's puts the Pages section first whenever there is one.  The
    generator's, the one both documents are rendered from, puts it last,
    behind the sections of the sources, unless a source is itself named
    Pages. *)
Theorem pages_section_position minimatch cwd routes options l :
  (JsMap.get "Pages"
     (Scanner.groupRoutesBySection minimatch cwd routes options) = Some l ->
   hd_error (Scanner.groupRoutesBySection minimatch cwd routes options)
   = Some ("Pages", l)) /\
  ((forall srcs, sources options = Some srcs ->
      ~ In "Pages" (map section srcs)) ->
   JsMap.get "Pages" (Generator.groupBySection routes options) = Some l ->
   last (Generator.groupBySection routes options) ("", [])
   = ("Pages", l)).
Proof.
  split.
  - rewrite groupRoutesBySection_table.
    set (sectionOf := sectionBy (scannerMatches minimatch cwd) options).
    intros G.
    apply (result_get sectionOf _ (scannerKeys_NoDup options)) in G
      as (_ & -> & Hne).
    destruct (scannerKeys_head options) as [rest ->]. simpl.
    unfold nonEmptyEntry at 1. simpl.
    destruct (bucket sectionOf "Pages" routes); [now elim Hne | reflexivity].
  - intros NoPages. rewrite groupBySection_table.
    set (sectionOf := sectionBy generatorMatches options).
    intros G.
    apply (result_get sectionOf _ (generatorKeys_NoDup options)) in G
      as (_ & -> & Hne).
    destruct (generatorKeys_last options NoPages) as [front ->].
    rewrite table_app, filter_app. simpl.
    unfold nonEmptyEntry at 2. simpl.
    destruct (bucket sectionOf "Pages" routes) as [|r rs];
      [now elim Hne|]. simpl.
    apply last_last.
Qed.

Lemma pages_section_position_witness :
  last (Generator.groupBySection
          [Examples.pageAt "/app/page.tsx" "/"; Examples.blog]
          (Examples.withSources
             [ {| section := "Blog"; pattern := "blog/**";
                  priority := None |} ])) ("", [])
  = ("Pages", [Examples.pageAt "/app/page.tsx" "/"]).
Proof.
  refine (proj2 (pages_section_position Examples.directoryGlob ""
           [Examples.pageAt "/app/page.tsx" "/"; Examples.blog]
           (Examples.withSources
              [ {| section := "Blog"; pattern := "blog/**";
                   priority := None |} ])
           [Examples.pageAt "/app/page.tsx" "/"]) _ eq_refl).
  intros srcs [= <-]. simpl. intros [H|[]]. discriminate H.
Defined.

End SectionOrderFacts.

(* ================================================================== *)
(** * More on sorting: a sorted list stays as it is *)
(* ================================================================== *)

Module SortAgainFacts.
Import Grouping SortFacts.

Lemma sort_of_sorted {A} (compare : A -> A -> Z) l :
  StronglySorted (fun a b => (compare a b <= 0)%Z) l ->
  JsArray.sort compare l = l.
Proof.
  unfold JsArray.sort.
  induction 1 as [|x l Hs IH Hx]; [reflexivity|].
  simpl. rewrite IH.
  destruct l as [|y l]; [reflexivity|]. simpl.
  inversion Hx as [|? ? Hxy _]; subst.
  apply Z.leb_le in Hxy. now rewrite Hxy.
Qed.

Lemma sorted_iff {A} (P Q : A -> A -> Prop) l :
  (forall a b, P a b <-> Q a b) -> StronglySorted P l -> StronglySorted Q l.
Proof.
  intros E. induction 1 as [|x l Hs IH Hx]; constructor; [exact IH|].
  revert Hx. apply Forall_impl. intros b. apply E.
Qed.

(** Routes that are already in order (by tier, then by URL path) come back
    from the sort exactly as they were given; so sorting twice is sorting
    once, whenever the comparison of URL paths is a total preorder. *)
Theorem sortRoutesByPriority_settles minimatch cwd localeCompare options :
  (forall routes,
     StronglySorted (inOrder minimatch cwd localeCompare options) routes ->
     Scanner.sortRoutesByPriority minimatch cwd localeCompare routes options
     = routes) /\
  ((forall a b, (localeCompare a b <= 0 \/ localeCompare b a <= 0)%Z) ->
   (forall a b c, (localeCompare a b <= 0 -> localeCompare b c <= 0 ->
                   localeCompare a c <= 0)%Z) ->
   forall routes,
     Scanner.sortRoutesByPriority minimatch cwd localeCompare
       (Scanner.sortRoutesByPriority minimatch cwd localeCompare routes options)
       options
     = Scanner.sortRoutesByPriority minimatch cwd localeCompare routes options).
Proof.
  split.
  - intros routes H. unfold Scanner.sortRoutesByPriority.
    apply sort_of_sorted. revert H. apply sorted_iff.
    intros a b. symmetry. apply compareRoutes_inOrder.
  - intros total trans routes.
    unfold Scanner.sortRoutesByPriority at 1.
    apply sort_of_sorted. unfold Scanner.sortRoutesByPriority.
    apply sort_sorted.
    + intros a b. now apply compareRoutes_total.
    + intros a b c. now apply compareRoutes_trans.
Qed.

Lemma sortRoutesByPriority_settles_witness :
  Scanner.sortRoutesByPriority Examples.directoryGlob "" Js.compareCodeUnits
    (Scanner.sortRoutesByPriority Examples.directoryGlob "" Js.compareCodeUnits
       [Examples.blog; Examples.products; Examples.docs] Examples.tiers)
    Examples.tiers
  = Scanner.sortRoutesByPriority Examples.directoryGlob "" Js.compareCodeUnits
      [Examples.blog; Examples.products; Examples.docs] Examples.tiers.
Proof.
  exact (proj2 (sortRoutesByPriority_settles Examples.directoryGlob ""
                  Js.compareCodeUnits Examples.tiers)
           compareCodeUnits_total compareCodeUnits_trans
           [Examples.blog; Examples.products; Examples.docs]).
Defined.

End SortAgainFacts.

(* ================================================================== *)
(** * More on URLs: slashes at the join *)
(* ================================================================== *)

Module JoinFacts.
Import Js MetadataExtractor.

Lemma endsWithChar_snoc s c : endsWithChar (s ++ String c "") c = true.
Proof.
  induction s as [|d s IH]; simpl.
  - apply Ascii.eqb_refl.
  - destruct (s ++ String c "") eqn:E; [|exact IH].
    destruct s; discriminate.
Qed.

Lemma dropLast_snoc s c : dropLast (s ++ String c "") = s.
Proof.
  induction s as [|d s IH]; [reflexivity|]. simpl.
  destruct (s ++ String c "") eqn:E; [destruct s; discriminate|].
  now rewrite IH.
Qed.

Lemma truthy_nonempty s : s <> "" -> truthy (Some s) = Some s.
Proof.
  intros H. unfold truthy. destruct (String.eqb s "") eqn:E; [|reflexivity].
  now apply String.eqb_eq in E.
Qed.

Lemma snoc_nonempty s c : s ++ String c "" <> "".
Proof. destruct s; discriminate. Qed.

(** With a base that is not empty, a slash at the end of the base and a
    slash at the start of the path make no difference: the four ways of
    writing them give the same URL, with one slash at the join. *)
Theorem buildUrl_slash_variants base path :
  base <> "" -> endsWithChar base "/" = false ->
  startsWith path "/" = false ->
  Generator.buildUrl path (Some base) = base ++ "/" ++ path /\
  Generator.buildUrl ("/" ++ path) (Some base) = base ++ "/" ++ path /\
  Generator.buildUrl path (Some (base ++ "/")) = base ++ "/" ++ path /\
  Generator.buildUrl ("/" ++ path) (Some (base ++ "/")) = base ++ "/" ++ path /\
  PerPage.buildUrl path (Some (base ++ "/"))
  = PerPage.buildUrl ("/" ++ path) (Some base).
Proof.
  intros Hne Hb Hp.
  unfold Generator.buildUrl, PerPage.buildUrl, Generator.removeTrailingSlash.
  rewrite (truthy_nonempty base Hne),
    (truthy_nonempty _ (snoc_nonempty base "/")).
  rewrite Hb, Hp, endsWithChar_snoc, dropLast_snoc.
  change (startsWith ("/" ++ path) "/") with true. cbv iota.
  repeat split.
Qed.

Lemma buildUrl_slash_variants_witness :
  Generator.buildUrl "products" (Some "https://turbodocx.com/")
  = "https://turbodocx.com/products".
Proof.
  exact (proj1 (proj2 (proj2
    (buildUrl_slash_variants "https://turbodocx.com" "products"
       ltac:(discriminate) eq_refl eq_refl)))).
Defined.

End JoinFacts.

(* ================================================================== *)
(** * More on the route handlers: what reads back *)
(* ================================================================== *)

Module ReadBackFacts.
Import Js JsFacts Wording EscapeFacts.

Lemma reBacktick_def p c t :
  Generator.reBacktick p (String c t)
  = if ch "`" c then Some ("\`", 1%nat) else None.
Proof. unfold Generator.reBacktick. simpl. now destruct (ch "`" c). Qed.

(** The pass over a text starts with a brace when the text does. *)
Lemma handlerBody_brace s p :
  startsWith (replaceG Generator.reBacktick p 0 s) "{" = startsWith s "{".
Proof.
  destruct s as [|c s]; [reflexivity|].
  rewrite (pass_char _ _ _ reBacktick_def).
  destruct (ch "`" c) eqn:E.
  - apply ch_eq in E. subst c. reflexivity.
  - unfold startsWith. cbn [append stripPrefix].
    now destruct (ch "{" c).
Qed.

Lemma includes_tail c s sub :
  includes (String c s) sub = false ->
  startsWith (String c s) sub = false /\ includes s sub = false.
Proof. cbn [includes]. intros H. now apply orb_false_iff in H. Qed.

Lemma handlerBody_reads_back s : forall p,
  all (isNot "\") s = true -> includes s "${" = false ->
  Template.unescape (replaceG Generator.reBacktick p 0 s) = Some s.
Proof.
  induction s as [|c s IH]; intros p Hb Hd; [reflexivity|].
  simpl in Hb. apply andb_true_iff in Hb as [Hc Hb].
  apply includes_tail in Hd as [Hd1 Hd].
  rewrite (pass_char _ _ _ reBacktick_def).
  destruct (ch "`" c) eqn:E.
  - apply ch_eq in E. subst c.
    change ("\`" ++ ?t) with (String "\" (String "`" t)).
    cbn [Template.unescape]. ch_lit.
    change (Template.escapeOf "`") with (Some "`"%char).
    now rewrite (IH _ Hb Hd).
  - cbn [append Template.unescape].
    unfold isNot in Hc. apply negb_true_iff in Hc. rewrite Hc.
    rewrite (ch_sym c), E.
    rewrite handlerBody_brace.
    assert (D : ch c "$" && startsWith s "{" = false).
    { unfold startsWith in Hd1. cbn [stripPrefix] in Hd1.
      rewrite (ch_sym c). destruct (ch "$" c); [|reflexivity].
      cbn [andb]. unfold startsWith. cbn [stripPrefix]. exact Hd1. }
    rewrite D, (IH _ Hb Hd). reflexivity.
Qed.

(** The wrapper of the three documents, which escapes the backticks only,
    reads back as the document when the document has no backslash and no
    dollar sign in front of a brace.  (Carriage returns are left aside: a
    template literal reads them as line feeds.) *)
Theorem generateRouteHandlerFile_reads_back content :
  all (isNot "\") content = true ->
  includes content "${" = false ->
  all (isNot "013") content = true ->
  Template.unescape (Generator.handlerBody content) = Some content.
Proof.
  intros Hb Hd _. now apply handlerBody_reads_back.
Qed.

Lemma generateRouteHandlerFile_reads_back_witness :
  Template.unescape (Generator.handlerBody "Use `code` for $5")
  = Some "Use `code` for $5".
Proof.
  exact (generateRouteHandlerFile_reads_back "Use `code` for $5"
           eq_refl eq_refl eq_refl).
Defined.

(** The wrapper of the per-page documents escapes backslashes, backticks
    and dollar signs, each once, and its body reads back as the document,
    whatever the document holds.  (Carriage returns are left aside: a
    template literal reads them as line feeds.) *)
Theorem createRouteHandlerContent_reads_back markdownContent :
  all (isNot "013") markdownContent = true ->
  PerPage.escapedContent markdownContent = escape markdownContent /\
  Template.unescape (PerPage.escapedContent markdownContent)
  = Some markdownContent.
Proof.
  intros _. rewrite escapedContent_escape.
  split; [reflexivity | apply unescape_escape].
Qed.

Lemma createRouteHandlerContent_reads_back_witness :
  Template.unescape (PerPage.escapedContent Examples.priceNote)
  = Some Examples.priceNote.
Proof.
  exact (proj2 (createRouteHandlerContent_reads_back Examples.priceNote
                  eq_refl)).
Defined.

End ReadBackFacts.

(* ================================================================== *)
(** * More on the two route filters *)
(* ================================================================== *)

Module PatternFacts.
Import Js JsFacts Properties.

Lemma stripPrefix_split pre s rest :
  stripPrefix pre s = Some rest -> s = pre ++ rest.
Proof.
  revert s. induction pre as [|a pre IH]; intros s; simpl.
  - now intros [= ->].
  - destruct s as [|b s]; [discriminate|].
    destruct (ch a b) eqn:E; [|discriminate].
    apply ch_eq in E. subst b. intros H. now rewrite (IH _ H).
Qed.

(** A text that includes another holds every character of it. *)
Lemma includes_all P s sub :
  includes s sub = true -> all P s = true -> all P sub = true.
Proof.
  induction s as [|c s IH]; cbn [includes]; intros H Hs.
  - rewrite orb_false_r in H. unfold startsWith in H.
    destruct (stripPrefix sub "") as [rest|] eqn:E; [|discriminate].
    apply stripPrefix_split in E. destruct sub; [reflexivity | discriminate].
  - apply orb_true_iff in H as [H|H].
    + unfold startsWith in H.
      destruct (stripPrefix sub (String c s)) as [rest|] eqn:E;
        [|discriminate].
      apply stripPrefix_split in E. rewrite E, all_app in Hs.
      now apply andb_true_iff in Hs as [Hs _].
    + simpl in Hs. apply andb_true_iff in Hs as [_ Hs]. now apply IH.
Qed.

Lemma all_not_includes d s :
  all (isNot d) s = true -> includes s (String d "") = false.
Proof.
  induction s as [|c s IH]; [reflexivity|]. simpl. intros H.
  apply andb_true_iff in H as [Hc Hs].
  unfold startsWith. cbn [stripPrefix].
  unfold isNot in Hc. apply negb_true_iff in Hc.
  rewrite Ascii.eqb_sym in Hc. unfold ch at 1. rewrite Hc.
  now apply IH.
Qed.

(** A pattern of a custom document is no glob: the first [**] is cut out
    of it and the rest is looked for in the file path, letter by letter.
    So a pattern that still has a star after that, such as [**/docs/**] or
    [docs/*.tsx], selects no route whose path has no star in it. *)
Theorem filterRoutesForCustomFile_star_left routes customFile :
  Forall (fun pat => includes (removeFirst pat "**") "*" = true)
         (cf_includePatterns customFile) ->
  Forall (fun r => all (isNot "*") (filePath r) = true) routes ->
  Generator.filterRoutesForCustomFile routes customFile = [].
Proof.
  intros Hp Hr. unfold Generator.filterRoutesForCustomFile.
  induction Hr as [|r routes Hr _ IH]; [reflexivity|].
  simpl. rewrite IH.
  destruct (existsb _ (cf_includePatterns customFile)) eqn:E; [|reflexivity].
  apply existsb_exists in E as (pat & Hin & Hinc).
  rewrite Forall_forall in Hp. specialize (Hp pat Hin).
  pose proof (includes_all (isNot "*") _ _ Hinc Hr) as Hall.
  apply all_not_includes in Hall. congruence.
Qed.

Lemma filterRoutesForCustomFile_star_left_witness :
  Generator.filterRoutesForCustomFile [Examples.developersPage]
    {| filename := "llms-docs.txt"; cf_title := "Docs";
       cf_description := "Documentation";
       cf_includePatterns := ["**/developers/**"];
       fullContent := None; cf_excludePatterns := None |}
  = [].
Proof.
  exact (filterRoutesForCustomFile_star_left [Examples.developersPage]
           {| filename := "llms-docs.txt"; cf_title := "Docs";
              cf_description := "Documentation";
              cf_includePatterns := ["**/developers/**"];
              fullContent := None; cf_excludePatterns := None |}
           ltac:(repeat constructor) ltac:(repeat constructor)).
Defined.

Lemma keep_test (minimatch : string -> string -> bool) rel
  (wanted unwanted : list string) :
  (if (0 <? List.length wanted)%nat
      && negb (PerPage.matchesAny minimatch rel wanted) then false
   else if (0 <? List.length unwanted)%nat
           && PerPage.matchesAny minimatch rel unwanted then false
   else true)
  = (match wanted with
     | [] => true
     | _ => PerPage.matchesAny minimatch rel wanted
     end)
    && negb (PerPage.matchesAny minimatch rel unwanted).
Proof.
  destruct wanted as [|i wanted], unwanted as [|e unwanted];
    cbn [List.length Nat.ltb Nat.leb andb negb]; try reflexivity.
  - now destruct (PerPage.matchesAny _ _ (i :: wanted)).
  - destruct (PerPage.matchesAny _ _ (i :: wanted)); [|reflexivity].
    now destruct (PerPage.matchesAny _ _ (e :: unwanted)).
Qed.

Lemma matchesAny_spec (minimatch : string -> string -> bool) rel patterns :
  PerPage.matchesAny minimatch rel patterns = true <->
  exists pat, In pat patterns /\ matchesGlob minimatch rel pat.
Proof.
  unfold PerPage.matchesAny, matchesGlob. rewrite existsb_exists.
  split; intros (pat & Hin & H); exists pat; (split; [exact Hin|]).
  - now apply orb_true_iff in H.
  - now apply orb_true_iff.
Qed.

Lemma filter_same {A} (f : A -> bool) l : filter f (filter f l) = filter f l.
Proof.
  induction l as [|x l IH]; [reflexivity|]. simpl.
  destruct (f x) eqn:E; [|exact IH]. simpl. now rewrite E, IH.
Qed.

(** The filter of the per-page documents judges each route on its own: a
    route is kept exactly when some include pattern matches its path, as
    written or behind any directories, or there is no include pattern, and
    no exclude pattern matches it, so that exclusion wins over inclusion.
    Filtering again changes nothing, and the routes of two lists filtered
    together are those of each filtered apart, in their order. *)
Theorem filterRoutes_selects minimatch cwd routes options :
  let wanted :=
    match perPageOptions options with
    | Some pp => match pp_includePatterns pp with Some l => l | None => [] end
    | None => []
    end in
  let unwanted :=
    match perPageOptions options with
    | Some pp => match pp_excludePatterns pp with Some l => l | None => [] end
    | None => []
    end in
  (forall r,
     In r (PerPage.filterRoutes minimatch cwd routes options) <->
     In r routes /\
     (wanted = [] \/
      exists pat, In pat wanted /\
        matchesGlob minimatch (Scanner.relativePath cwd (filePath r)) pat) /\
     (forall pat, In pat unwanted ->
        ~ matchesGlob minimatch (Scanner.relativePath cwd (filePath r)) pat)) /\
  PerPage.filterRoutes minimatch cwd
    (PerPage.filterRoutes minimatch cwd routes options) options
  = PerPage.filterRoutes minimatch cwd routes options /\
  (forall more,
     PerPage.filterRoutes minimatch cwd (routes ++ more) options
     = (PerPage.filterRoutes minimatch cwd routes options
        ++ PerPage.filterRoutes minimatch cwd more options)%list).
Proof.
  intros wanted unwanted. split; [|split].
  - intros r. unfold PerPage.filterRoutes. fold wanted unwanted.
    rewrite filter_In, keep_test, andb_true_iff, negb_true_iff.
    assert (W : (match wanted with
                 | [] => true
                 | _ => PerPage.matchesAny minimatch
                          (Scanner.relativePath cwd (filePath r)) wanted
                 end) = true <->
                wanted = [] \/
                exists pat, In pat wanted /\
                  matchesGlob minimatch
                    (Scanner.relativePath cwd (filePath r)) pat).
    { destruct wanted as [|w ws] eqn:E; [split; auto|].
      rewrite matchesAny_spec. split; [now right|].
      intros [H|H]; [discriminate | exact H]. }
    assert (U : PerPage.matchesAny minimatch
                  (Scanner.relativePath cwd (filePath r)) unwanted = false <->
                forall pat, In pat unwanted ->
                  ~ matchesGlob minimatch
                      (Scanner.relativePath cwd (filePath r)) pat).
    { rewrite <- not_true_iff_false, matchesAny_spec. split.
      - intros N pat Hin M. apply N. now exists pat.
      - intros N (pat & Hin & M). exact (N pat Hin M). }
    rewrite W, U. reflexivity.
  - unfold PerPage.filterRoutes. apply filter_same.
  - intros more. unfold PerPage.filterRoutes. apply filter_app.
Qed.

Lemma filterRoutes_selects_witness :
  ~ In Examples.developersPage
      (PerPage.filterRoutes Examples.directoryGlob "/site"
         [Examples.developersPage] Examples.salesPerPage).
Proof.
  intros Hin.
  apply (proj1 (proj1 (filterRoutes_selects Examples.directoryGlob "/site"
                         [Examples.developersPage] Examples.salesPerPage)
                  Examples.developersPage)) in Hin.
  destruct Hin as (_ & _ & Out).
  apply (Out "**/developers/**"); [now left | left; reflexivity].
Defined.

End PatternFacts.

(* ================================================================== *)
(** * The title of a route *)
(* ================================================================== *)

Module TitleFacts.
Import Js JsFacts MetadataExtractor.

(** ** The template suffix *)

Lemma span_space_bar u rest :
  all (isNot "|") u = true -> all isSpace u = false ->
  reTemplateSuffix (u ++ rest) = false.
Proof.
  unfold reTemplateSuffix.
  induction u as [|c u IH]; intros Hbar Hsp; [discriminate|].
  simpl in Hbar. apply andb_true_iff in Hbar as [Hc Hbar].
  cbn [append span]. destruct (isSpace c) eqn:S.
  - simpl in Hsp. rewrite S in Hsp. cbn [andb] in Hsp.
    specialize (IH Hbar Hsp).
    destruct (span isSpace (u ++ rest)) as [a b]. exact IH.
  - cbn [stripPrefix].
    unfold isNot in Hc. apply negb_true_iff in Hc.
    rewrite Ascii.eqb_sym in Hc. unfold ch at 1. now rewrite Hc.
Qed.

Lemma trimEnd_spaces u : all isSpace u = true -> trimEnd u = "".
Proof. destruct u as [|c u]; [reflexivity|]. cbn [trimEnd]. now intros ->. Qed.

Lemma trimEnd_cons c u :
  all isSpace (String c u) = false ->
  trimEnd (String c u) = String c (trimEnd u).
Proof. cbn [trimEnd]. now intros ->. Qed.

Lemma removeTemplateSuffix_unfold t :
  removeTemplateSuffix t
  = if reTemplateSuffix t then ""
    else match t with
         | EmptyString => EmptyString
         | String c rest => String c (removeTemplateSuffix rest)
         end.
Proof. now destruct t. Qed.

(** What stands in front of the first bar stays, less the white space at
    its end. *)
Lemma removeTemplateSuffix_bar u tail :
  all (isNot "|") u = true ->
  all (fun c => negb (isLineTerminator c)) tail = true ->
  removeTemplateSuffix (u ++ String "|" tail) = trimEnd u.
Proof.
  intros Hbar Htail. induction u as [|c u IH].
  - simpl. unfold reTemplateSuffix. simpl. now rewrite Htail.
  - pose proof Hbar as Hbar'. simpl in Hbar'.
    apply andb_true_iff in Hbar' as [Hc Hu].
    rewrite removeTemplateSuffix_unfold.
    destruct (all isSpace (String c u)) eqn:S.
    + rewrite (trimEnd_spaces _ S).
      unfold reTemplateSuffix.
      rewrite (span_all isSpace (String c u) "|" tail S eq_refl).
      change (stripPrefix "|" (String "|" tail)) with (Some tail).
      cbv beta iota. now rewrite Htail.
    + rewrite (span_space_bar _ _ Hbar S), (trimEnd_cons _ _ S).
      cbn [append]. now rewrite (IH Hu).
Qed.

Lemma span_app p s : fst (span p s) ++ snd (span p s) = s.
Proof.
  induction s as [|c s IH]; [reflexivity|]. simpl.
  destruct (p c); [|reflexivity].
  destruct (span p s) as [a b]. simpl in *. now rewrite IH.
Qed.

Lemma removeTemplateSuffix_no_bar t :
  all (isNot "|") t = true -> removeTemplateSuffix t = t.
Proof.
  induction t as [|c t IH]; intros Hbar; [reflexivity|].
  rewrite removeTemplateSuffix_unfold.
  assert (R : reTemplateSuffix (String c t) = false).
  { unfold reTemplateSuffix.
    destruct (span isSpace (String c t)) as [a b] eqn:E.
    destruct (stripPrefix "|" b) as [tail|] eqn:P; [|reflexivity].
    apply PatternFacts.stripPrefix_split in P. subst b.
    assert (A : all (isNot "|") (a ++ String "|" tail) = true).
    { pose proof (span_app isSpace (String c t)) as X.
      rewrite E in X. cbn [fst snd append] in X. now rewrite X. }
    rewrite all_app in A. apply andb_true_iff in A as [_ A]. discriminate. }
  rewrite R. simpl in Hbar. apply andb_true_iff in Hbar as [_ Hbar].
  now rewrite (IH Hbar).
Qed.

(** ** Trimming *)

Lemma trimStart_cons_space c u :
  isSpace c = true -> trimStart (String c u) = trimStart u.
Proof.
  unfold trimStart. simpl. intros ->. now destruct (span isSpace u).
Qed.

Lemma trimStart_cons_other c u :
  isSpace c = false -> trimStart (String c u) = String c u.
Proof. unfold trimStart. simpl. now intros ->. Qed.

Lemma trimStart_spaces u : all isSpace u = true -> trimStart u = "".
Proof. intros H. unfold trimStart. now rewrite (span_all_end _ _ H). Qed.

Lemma trimEnd_trimStart u : trimStart (trimEnd u) = trimEnd (trimStart u).
Proof.
  induction u as [|c u IH]; [reflexivity|].
  destruct (all isSpace (String c u)) eqn:S.
  - now rewrite (trimEnd_spaces _ S), (trimStart_spaces _ S).
  - rewrite (trimEnd_cons _ _ S). destruct (isSpace c) eqn:C.
    + rewrite !(trimStart_cons_space _ _ C). exact IH.
    + rewrite !(trimStart_cons_other _ _ C). now rewrite (trimEnd_cons _ _ S).
Qed.

Lemma trimEnd_twice u : trimEnd (trimEnd u) = trimEnd u.
Proof.
  induction u as [|c u IH]; [reflexivity|].
  destruct (all isSpace (String c u)) eqn:S.
  - now rewrite (trimEnd_spaces _ S).
  - rewrite (trimEnd_cons _ _ S).
    assert (S' : all isSpace (String c (trimEnd u)) = false).
    { simpl in *. destruct (isSpace c); [|reflexivity]. simpl in *.
      clear IH. induction u as [|d u IHu]; [discriminate|].
      destruct (all isSpace (String d u)) eqn:D; [congruence|].
      rewrite (trimEnd_cons _ _ D). simpl in *.
      destruct (isSpace d); [|reflexivity]. simpl in *. now apply IHu. }
    now rewrite (trimEnd_cons _ _ S'), IH.
Qed.

Lemma trim_trimEnd u : trim (trimEnd u) = trim u.
Proof. unfold trim. now rewrite trimEnd_trimStart, trimEnd_twice. Qed.

(** A title set by the metadata is shown as it is, trimmed, when it has no
    bar in it; when it has one, what stands in front of the first bar is
    shown, trimmed, and the site name behind the bar is dropped. *)
Theorem getBestTitle_of_title r m t :
  metadata r = Some m -> title m = Some t -> t <> "" ->
  (all (isNot "|") t = true -> getBestTitle r = trim t) /\
  (forall u tail,
     t = u ++ String "|" tail ->
     all (isNot "|") u = true ->
     all (fun c => negb (isLineTerminator c)) tail = true ->
     getBestTitle r = trim u).
Proof.
  intros Hm Ht Hne. unfold getBestTitle. rewrite Hm, Ht.
  rewrite (JoinFacts.truthy_nonempty t Hne). split.
  - intros H. now rewrite (removeTemplateSuffix_no_bar t H).
  - intros u tail -> Hu Htail.
    rewrite (removeTemplateSuffix_bar u tail Hu Htail). apply trim_trimEnd.
Qed.

Lemma getBestTitle_of_title_witness :
  getBestTitle
    {| filePath := "/app/products/page.tsx"; urlPath := "/products";
       type := page;
       metadata := Some {| title := Some "Products | TurboDocx";
                           description := None; keywords := None;
                           openGraph := None |};
       content := None; headings := None |}
  = "Products".
Proof.
  exact (proj2 (getBestTitle_of_title
                  {| filePath := "/app/products/page.tsx";
                     urlPath := "/products"; type := page;
                     metadata := Some {| title := Some "Products | TurboDocx";
                                         description := None; keywords := None;
                                         openGraph := None |};
                     content := None; headings := None |}
                  _ "Products | TurboDocx" eq_refl eq_refl
                  ltac:(discriminate))
           "Products " " TurboDocx" eq_refl eq_refl eq_refl).
Defined.

(** ** A title derived from the URL path *)

Lemma split_not_nil sep s : split sep s <> [].
Proof.
  destruct s as [|c s]; [discriminate|]. simpl.
  destruct (ch c sep); [discriminate|].
  destruct (split sep s); discriminate.
Qed.

Lemma split_app_sep sep a b :
  split sep (a ++ String sep b) = (split sep a ++ split sep b)%list.
Proof.
  induction a as [|c a IH]; simpl.
  - now rewrite ch_refl.
  - destruct (ch c sep); [now rewrite IH|].
    rewrite IH. pose proof (split_not_nil sep a) as N.
    destruct (split sep a); [now elim N | reflexivity].
Qed.

Lemma split_no_sep sep s : all (isNot sep) s = true -> split sep s = [s].
Proof.
  induction s as [|c s IH]; [reflexivity|]. simpl. intros H.
  apply andb_true_iff in H as [Hc Hs].
  unfold isNot in Hc. apply negb_true_iff in Hc.
  now rewrite Hc, (IH Hs).
Qed.

Lemma split_only_sep sep s :
  all (fun c => ch c sep) s = true ->
  filter (fun seg => negb (String.eqb seg "")) (split sep s) = [].
Proof.
  induction s as [|c s IH]; [reflexivity|]. simpl. intros H.
  apply andb_true_iff in H as [Hc Hs]. rewrite Hc. simpl. now apply IH.
Qed.

(** A route without metadata is titled from its URL path: Home when the
    path has nothing but slashes, and otherwise the last segment alone,
    its words, which hyphens separate, each with a capital first letter and
    joined by spaces.  The segments in front of the last play no part.
    (The capital is that of JavaScript on ASCII and Latin-1 letters, the
    sharp s becoming two letters; a word that starts with the micro sign
    or the y with diaeresis, whose capitals lie outside Latin-1, is left
    aside.) *)
Theorem getBestTitle_of_urlPath r :
  metadata r = None ->
  (all (fun c => ch c "/") (urlPath r) = true -> getBestTitle r = "Home") /\
  (forall front seg,
     urlPath r = front ++ String "/" seg ->
     seg <> "" -> all (isNot "/") seg = true ->
     forallb Properties.capitalizable (split "-" seg) = true ->
     getBestTitle r = join " " (map capitalize (split "-" seg))).
Proof.
  intros Hm. unfold getBestTitle. rewrite Hm. cbn [truthy]. split.
  - intros H. now rewrite (split_only_sep "/" _ H).
  - intros front seg -> Hne Hseg _.
    rewrite split_app_sep, filter_app, (split_no_sep "/" seg Hseg).
    cbn [filter].
    destruct (String.eqb seg "") eqn:E;
      [now apply String.eqb_eq in E|]. cbn [negb].
    set (before := filter _ (split "/" front)).
    rewrite last_last.
    destruct (before ++ [seg])%list eqn:B; [|reflexivity].
    now destruct before.
Qed.

Lemma getBestTitle_of_urlPath_witness :
  getBestTitle (Examples.pageAt "/app/docs/getting-started/page.tsx"
                  "/docs/getting-started")
  = "Getting Started".
Proof.
  exact (proj2 (getBestTitle_of_urlPath
                  (Examples.pageAt "/app/docs/getting-started/page.tsx"
                     "/docs/getting-started") eq_refl)
           "/docs" "getting-started" eq_refl ltac:(discriminate) eq_refl
           eq_refl).
Defined.

End TitleFacts.

(* ================================================================== *)
(** * More on the content of a page *)
(* ================================================================== *)

Module WhiteSpaceFacts.
Import Js JsFacts ContentProcessor Properties.

Lemma reSpaces_prev p q s : reSpaces p s = reSpaces q s.
Proof. reflexivity. Qed.

Lemma span_snd_head p s : 
  match snd (span p s) with
  | EmptyString => True
  | String c _ => p c = false
  end.
Proof.
  induction s as [|c s IH]; [exact I|]. simpl.
  destruct (p c) eqn:E; [|exact E].
  destruct (span p s) as [a b]. exact IH.
Qed.

Lemma headSpace_span s : headSpace (snd (span isSpace s)) = false.
Proof.
  pose proof (span_snd_head isSpace s) as H.
  destruct (snd (span isSpace s)); [reflexivity | exact H].
Qed.

Lemma span_length p s :
  (String.length (fst (span p s)) <= String.length s)%nat.
Proof.
  induction s as [|c s IH]; simpl; [lia|].
  destruct (p c); simpl; [|lia].
  destruct (span p s) as [a b]. simpl in *. lia.
Qed.

(** The pass leaves a text that starts with no white space starting with
    none. *)
Lemma reSpaces_head s p :
  headSpace s = false -> headSpace (replaceG reSpaces p 0 s) = false.
Proof.
  destruct s as [|c s]; [reflexivity|]. cbn [headSpace]. intros H.
  cbn [replaceG]. unfold reSpaces. cbn [span]. rewrite H. simpl. exact H.
Qed.

Lemma reSpaces_noSpaceRun n : forall s p,
  (String.length s <= n)%nat ->
  noSpaceRun (replaceG reSpaces p 0 s) = true.
Proof.
  induction n as [|n IH]; intros s p Hlen.
  - destruct s; [reflexivity | simpl in Hlen; lia].
  - destruct s as [|c s]; [reflexivity|].
    simpl in Hlen.
    destruct (reSpaces p (String c s)) as [[repl k]|] eqn:M.
    + unfold reSpaces in M.
      pose proof (TitleFacts.span_app isSpace (String c s)) as A.
      pose proof (headSpace_span (String c s)) as Hd.
      pose proof (span_length isSpace (String c s)) as L.
      destruct (span isSpace (String c s)) as [run after] eqn:E.
      cbn [fst snd] in A, Hd, L.
      destruct (2 <=? String.length run)%nat eqn:Two; [|discriminate].
      injection M as <- <-.
      destruct run as [|c' run]; [discriminate|].
      rewrite <- A.
      rewrite (replaceG_match reSpaces reSpaces_prev c' run " " p None after).
      * cbn [append noSpaceRun].
        rewrite (reSpaces_head after None Hd). rewrite andb_false_r.
        cbn [negb andb]. apply IH.
        apply (f_equal String.length) in A.
        rewrite length_app in A. simpl in A. simpl in L.
        apply Nat.leb_le in Two. simpl in Two. lia.
      * unfold reSpaces. rewrite A, E, Two. reflexivity.
    + rewrite (replaceG_none reSpaces p c s M). cbn [noSpaceRun].
      rewrite (IH s (Some c)) by lia. rewrite andb_true_r.
      destruct (isSpace c) eqn:C; [|reflexivity]. cbn [andb].
      apply negb_true_iff. apply reSpaces_head.
      unfold reSpaces in M. cbn [span] in M. rewrite C in M.
      destruct s as [|d s]; [reflexivity|]. cbn [headSpace].
      destruct (isSpace d) eqn:D; [|reflexivity].
      cbn [span] in M. rewrite D in M.
      destruct (span isSpace s) as [a b]. discriminate.
Qed.

Lemma noSpaceRun_take n : forall s,
  noSpaceRun s = true -> noSpaceRun (take n s ++ "...") = true.
Proof.
  induction n as [|n IH]; intros s H; [reflexivity|].
  destruct s as [|c s]; [reflexivity|].
  cbn [noSpaceRun] in H. apply andb_true_iff in H as [Hc Hs].
  cbn [take append noSpaceRun]. rewrite (IH s Hs), andb_true_r.
  destruct (isSpace c); [|reflexivity]. cbn [andb] in *.
  apply negb_true_iff in Hc. apply negb_true_iff.
  destruct n; [reflexivity|]. destruct s; [reflexivity | exact Hc].
Qed.

Lemma noSpaceRun_truncate max s :
  noSpaceRun s = true -> noSpaceRun (truncate max s) = true.
Proof.
  intros H. unfold truncate, substring0.
  destruct (len s >? max)%Z; [now apply noSpaceRun_take | exact H].
Qed.

Lemma noSpaceRun_no_blank_line s :
  noSpaceRun s = true -> includes s blankLine = false.
Proof.
  induction s as [|c s IH]; [reflexivity|].
  cbn [noSpaceRun includes]. intros H.
  apply andb_true_iff in H as [Hc Hs]. rewrite (IH Hs), orb_false_r.
  unfold startsWith, blankLine. cbn [stripPrefix].
  destruct (ch LF c) eqn:E1; [|reflexivity].
  apply ch_eq in E1. subst c.
  destruct s as [|d s]; [reflexivity|].
  destruct (ch LF d) eqn:E2; [|reflexivity].
  apply ch_eq in E2. subst d. discriminate.
Qed.

(** The text of a page that parses has no two white-space characters side
    by side, whatever the page and the maximum.  In particular the blank
    lines the collected texts are joined with do not survive: each of them
    ends up as one space. *)
Theorem processContent_single_spaces parse routeInfoBound content options ast :
  parse content = Some ast ->
  exists text,
    processContent parse routeInfoBound content options = Ok text /\
    noSpaceRun text = true /\
    includes text blankLine = false.
Proof.
  intros H. unfold processContent. rewrite H.
  eexists. split; [reflexivity|].
  assert (N : noSpaceRun (truncate (maxLength options) (processedContent ast))
              = true).
  { apply noSpaceRun_truncate. unfold processedContent, replaceAll.
    now apply (reSpaces_noSpaceRun _ _ None (Nat.le_refl _)). }
  split; [exact N | now apply noSpaceRun_no_blank_line].
Qed.

Lemma processContent_single_spaces_witness :
  exists text,
    processContent (fun _ => Some Examples.productsTree) false
      "<div>...</div>" {| maxContentLength := None |} = Ok text /\
    noSpaceRun text = true /\
    includes text blankLine = false.
Proof.
  exact (processContent_single_spaces (fun _ => Some Examples.productsTree)
           false "<div>...</div>" {| maxContentLength := None |}
           Examples.productsTree eq_refl).
Defined.

End WhiteSpaceFacts.

(* ================================================================== *)
(** * Headings, enrichment and the routes that are rendered *)
(* ================================================================== *)

Module EnrichmentFacts.
Import Js JsFacts MetadataExtractor ContentProcessor Properties.

Lemma Node_nested_ind (P : Node -> Prop) :
  (forall value, P (StringLiteral value)) ->
  (forall quasis expressions,
     Forall P expressions -> P (TemplateLiteral quasis expressions)) ->
  (forall value, P (JSXText value)) ->
  (forall name attributes children,
     Forall P attributes -> Forall P children ->
     P (JSXElement name attributes children)) ->
  (forall children, Forall P children -> P (OtherNode children)) ->
  forall n, P n.
Proof.
  intros HS HT HX HE HO. fix IH 1.
  assert (All : forall l, Forall P l).
  { intros l. induction l as [|x xs IHxs]; constructor;
      [apply IH | exact IHxs]. }
  intros [value|quasis expressions|value|name attributes children|children].
  - apply HS.
  - apply HT, All.
  - apply HX.
  - apply HE; apply All.
  - apply HO, All.
Qed.

Lemma headingLevel_range tag lvl :
  headingLevel tag = Some lvl -> (1 <= lvl <= 6)%nat.
Proof.
  unfold headingLevel.
  destruct tag as [|h [|d [|? ?]]]; try discriminate.
  destruct (ch h "h" && (49 <=? nat_of_ascii d)%nat
            && (nat_of_ascii d <=? 54)%nat) eqn:E; [|discriminate].
  intros [= <-].
  apply andb_true_iff in E as [E E2]. apply andb_true_iff in E as [_ E1].
  apply Nat.leb_le in E1, E2. lia.
Qed.

Lemma collectHeadings_wellFormed n :
  Forall wellFormedHeading (collectHeadings n).
Proof.
  induction n as [value|quasis expressions IH|value
                 |name attributes children IHa IHc|children IH]
    using Node_nested_ind; cbn [collectHeadings]; try constructor.
  - apply DiscoveryFacts.Forall_flat_map_each, IH.
  - apply Forall_app. split; [|apply Forall_app; split].
    + destruct name as [tag|]; [|constructor].
      destruct (headingLevel tag) as [lvl|] eqn:L; [|constructor].
      destruct (String.eqb _ "") eqn:E; constructor; [|constructor].
      split; cbn [level text].
      * now apply headingLevel_range in L.
      * intros H. rewrite H in E. discriminate.
    + apply DiscoveryFacts.Forall_flat_map_each, IHa.
    + apply DiscoveryFacts.Forall_flat_map_each, IHc.
  - apply DiscoveryFacts.Forall_flat_map_each, IH.
Qed.

Lemma extractHeadings_parsed parse fs r hs :
  extractHeadings parse fs r = Ok hs -> Forall wellFormedHeading hs.
Proof.
  unfold extractHeadings, Fs.readFileSync, parseHeadings.
  destruct (negb (Fs.existsSync fs (filePath r)));
    [intros [= <-]; constructor|].
  destruct (Fs.files fs (filePath r)) as [text|]; cbn [bind]; [|discriminate].
  intros [= <-].
  destruct (parse text); [apply collectHeadings_wellFormed | constructor].
Qed.

(** Every heading taken from a page has a level from 1 to 6 and a text
    that is not empty, whatever the parser returns; a page that does not
    parse has no headings, and that is no error. *)
Theorem extractHeadings_wellFormed parse fs r hs :
  extractHeadings parse fs r = Ok hs ->
  Forall wellFormedHeading hs /\
  (forall content,
     Fs.files fs (filePath r) = Some content -> parse content = None ->
     hs = []).
Proof.
  unfold extractHeadings, Fs.readFileSync, Fs.existsSync, parseHeadings.
  destruct (Fs.files fs (filePath r)) as [text|] eqn:F.
  - replace (negb _) with false by now destruct (Fs.directories fs _).
    cbn [bind]. intros [= <-]. split.
    + destruct (parse text); [apply collectHeadings_wellFormed | constructor].
    + intros content [= <-] H. now rewrite H.
  - destruct (Fs.directories fs (filePath r)); cbn [negb bind];
      [discriminate|].
    intros [= <-]. split; [constructor | discriminate].
Qed.


Lemma extractHeadings_wellFormed_witness :
  Forall wellFormedHeading [ {| level := 1; text := "Our Products" |} ].
Proof.
  exact (proj1 (extractHeadings_wellFormed
                  (fun _ => Some Examples.productsTree)
                  {| Fs.directories := fun _ => None;
                     Fs.files := fun _ => Some "<div>...</div>" |}
                  (Examples.pageAt "/app/products/page.tsx" "/products")
                  _ eq_refl)).
Defined.

(** ** Enrichment *)

Lemma Forall2_weaken {A B} (P Q : A -> B -> Prop) l l' :
  (forall a b, P a b -> Q a b) -> Forall2 P l l' -> Forall2 Q l l'.
Proof. intros H. induction 1; constructor; auto. Qed.

Section Enrichment.
Variable parse : string -> option Node.
Variable fs : Fs.FileSystem.
Variable routeInfoBound : bool.

Lemma enrichRoutesWithMetadata_each routes : forall enriched,
  enrichRoutesWithMetadata fs routes = Ok enriched ->
  Forall2 (fun r e => sameButMetadata r e /\
                      extractMetadata fs r = Ok (metadata e))
          routes enriched.
Proof.
  induction routes as [|r routes IH]; intros enriched; cbn [enrichRoutesWithMetadata].
  - intros [= <-]. constructor.
  - destruct (extractMetadata fs r) as [m|] eqn:M; cbn [bind]; [|discriminate].
    destruct (enrichRoutesWithMetadata fs routes) as [rest|]; cbn [bind];
      [|discriminate].
    intros [= <-]. constructor; [|now apply IH].
    repeat split. exact M.
Qed.

Lemma enrichRoutesWithContent_each options routes : forall enriched,
  enrichRoutesWithContent parse fs routeInfoBound routes options = Ok enriched ->
  Forall2 (fun r e =>
             sameButContent r e /\
             extractPageContent parse fs routeInfoBound r options
             = Ok (content e) /\
             exists hs, extractHeadings parse fs r = Ok hs /\
                        headings e = Some hs)
          routes enriched.
Proof.
  induction routes as [|r routes IH]; intros enriched;
    cbn [enrichRoutesWithContent].
  - intros [= <-]. constructor.
  - destruct (extractPageContent parse fs routeInfoBound r options)
      as [c|] eqn:C; cbn [bind]; [|discriminate].
    destruct (extractHeadings parse fs r) as [hs|] eqn:H; cbn [bind];
      [|discriminate].
    destruct (enrichRoutesWithContent parse fs routeInfoBound routes options)
      as [rest|]; cbn [bind]; [|discriminate].
    intros [= <-]. constructor; [|now apply IH].
    split; [now repeat split|]. split; [exact C|]. now exists hs.
Qed.

Lemma extractMetadata_layout r :
  let dir := Path.dirname (filePath r) in
  let layoutTsx := Path.join [dir; "layout.tsx"] in
  let layoutTs := Path.join [dir; "layout.ts"] in
  (forall text, Fs.files fs layoutTsx = Some text ->
     extractMetadata fs r = Ok (Some (parseMetadataFromContent text))) /\
  (forall text, Fs.existsSync fs layoutTsx = false ->
     Fs.files fs layoutTs = Some text ->
     extractMetadata fs r = Ok (Some (parseMetadataFromContent text))) /\
  (Fs.existsSync fs layoutTsx = false -> Fs.existsSync fs layoutTs = false ->
   extractMetadata fs r = Ok None).
Proof.
  intros dir layoutTsx layoutTs.
  unfold extractMetadata, findLayoutFile. fold dir layoutTsx layoutTs.
  repeat split.
  - intros text F.
    assert (E : Fs.existsSync fs layoutTsx = true).
    { unfold Fs.existsSync. rewrite F.
      now destruct (Fs.directories fs layoutTsx). }
    rewrite E. cbn [negb]. rewrite E. cbn [negb].
    unfold Fs.readFileSync. now rewrite F.
  - intros text N F. rewrite N.
    assert (E : Fs.existsSync fs layoutTs = true).
    { unfold Fs.existsSync. rewrite F.
      now destruct (Fs.directories fs layoutTs). }
    rewrite E. cbn [negb]. rewrite E. cbn [negb].
    unfold Fs.readFileSync. now rewrite F.
  - intros N1 N2. now rewrite N1, N2.
Qed.

(** The enrichment with metadata returns the routes one for one and in
    their order, changed in their metadata only.  The metadata come from
    the layout file in the directory of the page itself, layout.tsx before
    layout.ts; with neither there the route has no metadata afterwards,
    whatever it had before. *)
Theorem enrichRoutesWithMetadata_layouts routes enriched :
  enrichRoutesWithMetadata fs routes = Ok enriched ->
  Forall2
    (fun r e =>
       let dir := Path.dirname (filePath r) in
       let layoutTsx := Path.join [dir; "layout.tsx"] in
       let layoutTs := Path.join [dir; "layout.ts"] in
       sameButMetadata r e /\
       (forall text, Fs.files fs layoutTsx = Some text ->
          metadata e = Some (parseMetadataFromContent text)) /\
       (forall text, Fs.existsSync fs layoutTsx = false ->
          Fs.files fs layoutTs = Some text ->
          metadata e = Some (parseMetadataFromContent text)) /\
       (Fs.existsSync fs layoutTsx = false ->
        Fs.existsSync fs layoutTs = false -> metadata e = None))
    routes enriched.
Proof.
  intros H. apply enrichRoutesWithMetadata_each in H.
  revert H. apply Forall2_weaken. intros r e [Same M].
  destruct (extractMetadata_layout r) as (A & B & C).
  split; [exact Same|]. repeat split.
  - intros text F. specialize (A text F). congruence.
  - intros text N F. specialize (B text N F). congruence.
  - intros N1 N2. specialize (C N1 N2). congruence.
Qed.

Lemma enrichRoutesWithContent_headings options routes enriched :
  enrichRoutesWithContent parse fs routeInfoBound routes options = Ok enriched ->
  Forall2
    (fun r e =>
       sameButContent r e /\
       exists hs, headings e = Some hs /\ Forall wellFormedHeading hs)
    routes enriched.
Proof.
  intros H. apply enrichRoutesWithContent_each in H.
  revert H. apply Forall2_weaken. intros r e (Same & _ & hs & Hh & Eh).
  split; [exact Same|]. exists hs. split; [exact Eh|].
  now apply (extractHeadings_parsed parse fs r hs).
Qed.

(** The enrichment with content returns the routes one for one and in
    their order, changed in their content and headings only: the content
    is what the page file gives, and the headings are always set, to the
    list taken from the page file, each of them well formed. *)
Theorem enrichRoutesWithContent_each_route options routes enriched :
  enrichRoutesWithContent parse fs routeInfoBound routes options = Ok enriched ->
  Forall2
    (fun r e =>
       sameButContent r e /\
       extractPageContent parse fs routeInfoBound r options = Ok (content e) /\
       exists hs, headings e = Some hs /\ Forall wellFormedHeading hs)
    routes enriched.
Proof.
  intros H. apply enrichRoutesWithContent_each in H.
  revert H. apply Forall2_weaken. intros r e (Same & C & hs & Hh & Eh).
  split; [exact Same|]. split; [exact C|].
  exists hs. split; [exact Eh|].
  now apply (extractHeadings_parsed parse fs r hs).
Qed.


End Enrichment.

Lemma enrichRoutesWithMetadata_layouts_witness :
  exists e,
    enrichRoutesWithMetadata Examples.layoutFs [Examples.products] = Ok [e] /\
    metadata e = Some (parseMetadataFromContent Examples.productsLayout).
Proof.
  eexists. split; [reflexivity|].
  pose proof (enrichRoutesWithMetadata_layouts Examples.layoutFs
                [Examples.products] _ eq_refl) as H.
  inversion H as [|r e l l' (_ & A & _) _]; subst.
  exact (A _ eq_refl).
Defined.

Lemma enrichRoutesWithContent_each_route_witness :
  exists e,
    enrichRoutesWithContent (fun _ => Some Examples.productsTree)
      Examples.layoutFs false [Examples.products]
      {| maxContentLength := None |} = Ok [e] /\
    exists hs, headings e = Some hs /\ Forall wellFormedHeading hs.
Proof.
  eexists. split; [reflexivity|].
  pose proof (enrichRoutesWithContent_each_route
                (fun _ => Some Examples.productsTree) Examples.layoutFs false
                {| maxContentLength := None |} [Examples.products] _ eq_refl)
    as H.
  inversion H as [|r e l l' (_ & _ & A) _]; subst.
  exact A.
Defined.

(** ** The routes that are rendered *)

Lemma Forall2_compose {A B C} (P : A -> B -> Prop) (Q : B -> C -> Prop)
  (R : A -> C -> Prop) l1 : forall l2 l3,
  (forall a b c, P a b -> Q b c -> R a c) ->
  Forall2 P l1 l2 -> Forall2 Q l2 l3 -> Forall2 R l1 l3.
Proof.
  induction l1 as [|a l1 IH]; intros l2 l3 H H1 H2.
  - inversion H1; subst. inversion H2; subst. constructor.
  - inversion H1; subst. inversion H2; subst.
    constructor; [eauto | eapply IH; eauto].
Qed.

Lemma Forall2_Forall_r {A B} (P : A -> Prop) (R : A -> B -> Prop)
  (Q : B -> Prop) l l' :
  (forall a b, P a -> R a b -> Q b) ->
  Forall P l -> Forall2 R l l' -> Forall Q l'.
Proof.
  intros H HP HR. induction HR as [|a b l l' Hab _ IH]; constructor.
  - inversion HP; subst. eauto.
  - inversion HP; subst. auto.
Qed.

(** The routes handed to the generators are the pages that discovery
    found, one for one: the same files, URL paths and types, reordered by
    the sort and nothing else.  Each is a page with a URL path that starts
    with a slash and with its headings set, each heading well formed.  When
    discovery finds nothing, nothing is generated. *)
Theorem preparedRoutes_are_the_pages
  minimatch cwd localeCompare fs parse routeInfoBound options :
  let dir := match truthy (appDir options) with
             | Some d => d
             | None => "app"
             end in
  (forall routes,
     Plugin.preparedRoutes minimatch cwd localeCompare fs parse routeInfoBound
       options = Ok (Some routes) ->
     exists found enriched,
       Scanner.scanAppDirectory minimatch cwd fs dir options = Ok found /\
       found <> [] /\
       Forall2 samePage found enriched /\
       Permutation enriched routes /\
       Forall (fun r =>
                 type r = page /\ startsWith (urlPath r) "/" = true /\
                 exists hs, headings r = Some hs /\
                            Forall wellFormedHeading hs)
              routes) /\
  (Scanner.scanAppDirectory minimatch cwd fs dir options = Ok [] ->
   Plugin.preparedRoutes minimatch cwd localeCompare fs parse routeInfoBound
     options = Ok None).
Proof.
  intros dir. unfold Plugin.preparedRoutes. fold dir. split.
  - intros routes.
    destruct (Scanner.scanAppDirectory minimatch cwd fs dir options)
      as [found|] eqn:S; cbn [bind]; [|discriminate].
    destruct (List.length found =? 0)%nat eqn:L; [discriminate|].
    destruct (enrichRoutesWithMetadata fs found) as [withMeta|] eqn:M;
      cbn [bind]; [|discriminate].
    destruct (enrichRoutesWithContent parse fs routeInfoBound withMeta _)
      as [enriched|] eqn:C; cbn [bind]; [|discriminate].
    intros [= <-]. exists found, enriched.
    apply enrichRoutesWithMetadata_each in M.
    apply enrichRoutesWithContent_headings in C.
    apply DiscoveryFacts.scanAppDirectory_pages in S.
    assert (Same : Forall2 samePage found enriched).
    { eapply Forall2_compose; [|exact M|exact C].
      intros a b c Hab Hbc.
      destruct Hab as [(F1 & U1 & T1 & _) _].
      destruct Hbc as [(F2 & U2 & T2 & _) _].
      unfold samePage. repeat split; congruence. }
    split; [reflexivity|].
    split; [intros ->; discriminate|].
    split; [exact Same|].
    split; [apply SortFacts.sort_perm|].
    apply (Permutation_Forall (SortFacts.sort_perm _ enriched)).
    assert (Pages : Forall (fun e => type e = page /\
                                     startsWith (urlPath e) "/" = true)
                           enriched).
    { eapply Forall2_Forall_r; [|exact S|exact Same].
      intros a b Ha Hab.
      destruct Ha as (T & U). destruct Hab as (_ & U' & T').
      split; congruence. }
    clear - Pages C. induction C as [|r e l l' (_ & H) _ IH];
      [constructor|].
    inversion Pages as [|? ? [T U] Pages']; subst.
    constructor; [|now apply IH].
    split; [exact T|]. split; [exact U | exact H].
  - intros ->. reflexivity.
Qed.

Lemma preparedRoutes_are_the_pages_witness :
  exists found,
    Scanner.scanAppDirectory Examples.directoryGlob "/" Examples.layoutFs
      "app" noOptions = Ok found /\
    found <> [].
Proof.
  destruct (proj1 (preparedRoutes_are_the_pages Examples.directoryGlob "/"
                     Js.compareCodeUnits Examples.layoutFs
                     (fun _ => Some Examples.productsTree) false noOptions)
              _ eq_refl)
    as (found & enriched & S & N & _).
  exists found. split; [exact S | exact N].
Defined.

End EnrichmentFacts.

(* ================================================================== *)
(** * What the parser of metadata returns *)
(* ================================================================== *)

Module MetadataFacts.
Import Js JsFacts MetadataExtractor Properties.

Lemma span_fst_holds p s : all p (fst (span p s)) = true.
Proof.
  induction s as [|c s IH]; [reflexivity|]. simpl.
  destruct (p c) eqn:E; [|reflexivity].
  destruct (span p s) as [a b]. simpl in *. now rewrite E.
Qed.

Lemma quoted_plain s v : quoted s = Some v -> plainValue v = true.
Proof.
  unfold quoted, plainValue. destruct s as [|q rest]; [discriminate|].
  destruct (isQuote q); [|discriminate].
  pose proof (span_fst_holds
                (fun c => negb (isQuote c) && negb (isLineTerminator c)) rest)
    as H.
  destruct (span _ rest) as [inner after]. simpl in H.
  destruct after as [|c after]; [discriminate|].
  destruct (isQuote c); [|discriminate]. now intros [= <-].
Qed.

Lemma fieldAt_plain key s v : fieldAt key s = Some v -> plainValue v = true.
Proof.
  unfold fieldAt. destruct (stripPrefix key s); [|discriminate].
  apply quoted_plain.
Qed.

(** What holds of every match holds of the first. *)
Lemma search_holds {A} (P : A -> Prop) (m : string -> option A) s a :
  (forall x b, m x = Some b -> P b) -> search m s = Some a -> P a.
Proof.
  intros H. induction s as [|c s IH]; simpl.
  - destruct (m "") eqn:E; [|discriminate]. intros [= <-]. eauto.
  - destruct (m (String c s)) eqn:E; [intros [= <-]; eauto | exact IH].
Qed.

Lemma openGraphFieldAt_plain key s v :
  openGraphFieldAt key s = Some v -> plainValue v = true.
Proof.
  unfold openGraphFieldAt. destruct (stripPrefix "openGraph:" s); [|discriminate].
  destruct (stripPrefix "{" _); [|discriminate].
  apply (search_holds (fun b => plainValue b = true)).
  intros x b. apply fieldAt_plain.
Qed.

Lemma search_whenSet (m : string -> option string) s :
  (forall x b, m x = Some b -> plainValue b = true) ->
  whenSet plainValue (search m s) = true.
Proof.
  intros H. destruct (search m s) as [v|] eqn:E; [|reflexivity].
  simpl. revert E. now apply (search_holds (fun b => plainValue b = true)).
Qed.

(** ** Keywords *)

Lemma split_pieces sep s : Forall (fun w => all (isNot sep) w = true) (split sep s).
Proof.
  induction s as [|c s IH]; simpl; [repeat constructor|].
  destruct (ch c sep) eqn:E; [constructor; [reflexivity | exact IH]|].
  destruct (split sep s) as [|w ws]; [repeat constructor; simpl|].
  - unfold isNot. now rewrite E.
  - inversion IH; subst. constructor; [|assumption].
    simpl. unfold isNot at 1. now rewrite E.
Qed.

Lemma all_span_snd P p s : all P s = true -> all P (snd (span p s)) = true.
Proof.
  induction s as [|c s IH]; [reflexivity|]. simpl. intros H.
  destruct (p c); [|exact H].
  apply andb_true_iff in H as [_ H]. specialize (IH H).
  now destruct (span p s).
Qed.

Lemma all_trimEnd P s : all P s = true -> all P (trimEnd s) = true.
Proof.
  induction s as [|c s IH]; [reflexivity|]. intros H.
  cbn [trimEnd]. destruct (all isSpace (String c s)); [reflexivity|].
  simpl in *. apply andb_true_iff in H as [Hc H]. now rewrite Hc, IH.
Qed.

Lemma all_trim P s : all P s = true -> all P (trim s) = true.
Proof. intros H. unfold trim, trimStart. now apply all_trimEnd, all_span_snd. Qed.

Lemma all_removeQuotes P s : all P s = true -> all P (removeQuotes s) = true.
Proof.
  induction s as [|c s IH]; [reflexivity|]. simpl. intros H.
  apply andb_true_iff in H as [Hc H].
  destruct (isQuote c); [now apply IH|]. simpl. now rewrite Hc, IH.
Qed.

Lemma removeQuotes_none s :
  all (fun c => negb (isQuote c)) (removeQuotes s) = true.
Proof.
  induction s as [|c s IH]; [reflexivity|]. simpl.
  destruct (isQuote c) eqn:E; [exact IH|]. simpl. now rewrite E, IH.
Qed.

Lemma splitKeywords_clean keywordsStr :
  Forall cleanKeyword (splitKeywords keywordsStr).
Proof.
  unfold splitKeywords. apply Forall_forall. intros k Hin.
  apply filter_In in Hin as [Hin Hne].
  apply in_map_iff in Hin as (w & <- & Hw).
  pose proof (split_pieces "," keywordsStr) as Hp.
  rewrite Forall_forall in Hp. specialize (Hp w Hw).
  split; [|split].
  - intros E. rewrite E in Hne. discriminate.
  - apply removeQuotes_none.
  - now apply all_removeQuotes, all_trim.
Qed.

(** No title, description or Open Graph value the parser returns has a
    quote of either kind or a line break in it: a value is cut at the
    first quote, so one with an apostrophe inside comes out short.  Every
    keyword it returns is not empty and has no quote and no comma. *)
Theorem parseMetadataFromContent_values content :
  let m := parseMetadataFromContent content in
  whenSet plainValue (title m) = true /\
  whenSet plainValue (description m) = true /\
  match openGraph m with
  | Some og =>
      whenSet plainValue (og_title og) = true /\
      whenSet plainValue (og_description og) = true /\
      whenSet plainValue (og_url og) = true /\
      whenSet plainValue (og_type og) = true
  | None => True
  end /\
  match keywords m with
  | Some ks => Forall cleanKeyword ks
  | None => True
  end.
Proof.
  intros m. unfold m, parseMetadataFromContent. cbn [title description
    openGraph keywords].
  pose proof (fun key => search_whenSet (fieldAt key) content
                (fun x b => fieldAt_plain key x b)) as F.
  pose proof (fun key => search_whenSet (openGraphFieldAt key) content
                (fun x b => openGraphFieldAt_plain key x b)) as G.
  split; [|split; [|split]].
  - pose proof (F "title:") as T. pose proof (F "default:") as D.
    now destruct (search (fieldAt "title:") content).
  - apply F.
  - pose proof (G "title:") as G1. pose proof (G "description:") as G2.
    pose proof (G "url:") as G3. pose proof (G "type:") as G4.
    destruct (search (openGraphFieldAt "title:") content),
      (search (openGraphFieldAt "description:") content),
      (search (openGraphFieldAt "url:") content),
      (search (openGraphFieldAt "type:") content);
      cbn [og_title og_description og_url og_type]; auto.
  - destruct (search keywordsAt content); [|exact I].
    apply splitKeywords_clean.
Qed.

(** ** The Open Graph title and the title *)

(** The expression has a match somewhere in the text. *)
Lemma found_cons {A} (m : string -> option A) c s :
  search m s <> None -> search m (String c s) <> None.
Proof.
  intros H. cbn [search]. now destruct (m (String c s)).
Qed.

Lemma found_app {A} (m : string -> option A) pre s :
  search m s <> None -> search m (pre ++ s) <> None.
Proof.
  intros H. induction pre as [|c pre IH]; [exact H|].
  now apply found_cons.
Qed.

Lemma found_here {A} (m : string -> option A) s a :
  m s = Some a -> search m s <> None.
Proof. intros H. destruct s; simpl; now rewrite H. Qed.

Lemma found_stripPrefix {A} (m : string -> option A) k s rest :
  stripPrefix k s = Some rest -> search m rest <> None -> search m s <> None.
Proof.
  intros E H. apply PatternFacts.stripPrefix_split in E. subst s.
  now apply found_app.
Qed.

Lemma found_span {A} (m : string -> option A) p s :
  search m (snd (span p s)) <> None -> search m s <> None.
Proof.
  intros H. rewrite <- (TitleFacts.span_app p s). now apply found_app.
Qed.

Lemma found_inside {A B} (m : string -> option A) (m' : string -> option B) s :
  (forall x b, m' x = Some b -> search m x <> None) ->
  search m' s <> None -> search m s <> None.
Proof.
  intros H. induction s as [|c s IH]; cbn [search].
  - destruct (m' "") eqn:E; [|congruence]. intros _.
    specialize (H _ _ E). exact H.
  - destruct (m' (String c s)) eqn:E.
    + intros _. exact (H _ _ E).
    + intros Hs. specialize (IH Hs). cbn [search] in *.
      now destruct (m (String c s)).
Qed.

Lemma openGraphFieldAt_found key x v :
  openGraphFieldAt key x = Some v -> search (fieldAt key) x <> None.
Proof.
  unfold openGraphFieldAt.
  destruct (stripPrefix "openGraph:" x) as [rest|] eqn:E1; [|discriminate].
  destruct (stripPrefix "{" _) as [body|] eqn:E2; [|discriminate].
  intros H.
  apply (found_stripPrefix _ _ _ _ E1), (found_span _ isSpace),
    (found_stripPrefix _ _ _ _ E2).
  now rewrite H.
Qed.

(** The expressions for the title and the description do not look at
    where they match: whenever the parser finds an Open Graph title it
    has a title as well, and whenever it finds an Open Graph description
    it has a description as well. *)
Theorem parseMetadataFromContent_openGraph_implies content og :
  openGraph (parseMetadataFromContent content) = Some og ->
  (og_title og <> None -> title (parseMetadataFromContent content) <> None) /\
  (og_description og <> None ->
   description (parseMetadataFromContent content) <> None).
Proof.
  unfold parseMetadataFromContent. cbn [title description openGraph].
  intros H.
  assert (T : search (openGraphFieldAt "title:") content <> None ->
              search (fieldAt "title:") content <> None).
  { apply found_inside. intros x b. apply openGraphFieldAt_found. }
  assert (D : search (openGraphFieldAt "description:") content <> None ->
              search (fieldAt "description:") content <> None).
  { apply found_inside. intros x b. apply openGraphFieldAt_found. }
  destruct (search (openGraphFieldAt "title:") content) as [t|],
    (search (openGraphFieldAt "description:") content) as [d|],
    (search (openGraphFieldAt "url:") content),
    (search (openGraphFieldAt "type:") content);
    try discriminate; injection H as <-;
    cbn [og_title og_description]; split; intros N;
    try (now elim N).
  all: try (destruct (search (fieldAt "title:") content);
            [discriminate | now elim T]).
  all: try (apply D; discriminate).
Qed.

Lemma parseMetadataFromContent_openGraph_implies_witness :
  title (parseMetadataFromContent "openGraph: { title: 'OG only' }") <> None.
Proof.
  exact (proj1 (parseMetadataFromContent_openGraph_implies
                  "openGraph: { title: 'OG only' }" _ eq_refl)
           ltac:(discriminate)).
Defined.

End MetadataFacts.

(* ================================================================== *)
(** * Every route is in both documents *)
(* ================================================================== *)

Module DocumentFacts.
Import Js JsFacts MetadataExtractor Grouping GroupingFacts.

Lemma includes_here x b : includes (x ++ b) x = true.
Proof.
  destruct (x ++ b) eqn:E; cbn [includes]; rewrite <- E;
    now rewrite startsWith_app.
Qed.

Lemma includes_behind a t x : includes t x = true -> includes (a ++ t) x = true.
Proof.
  intros H. induction a as [|c a IH]; [exact H|].
  cbn [append includes]. rewrite IH. apply orb_true_r.
Qed.

Lemma includes_before t b x : includes t x = true -> includes (t ++ b) x = true.
Proof.
  induction t as [|c t IH]; cbn [includes].
  - rewrite orb_false_r. unfold startsWith.
    destruct (stripPrefix x "") eqn:E; [|discriminate]. intros _.
    apply PatternFacts.stripPrefix_split in E.
    destruct x; [|discriminate].
    destruct b; reflexivity.
  - intros H. apply orb_true_iff in H as [H|H].
    + unfold startsWith in H.
      destruct (stripPrefix x (String c t)) as [rest|] eqn:E; [|discriminate].
      apply PatternFacts.stripPrefix_split in E.
      rewrite E, app_assoc. apply includes_here.
    + cbn [append includes]. rewrite (IH H). apply orb_true_r.
Qed.

Lemma includes_self x : includes x x = true.
Proof. rewrite <- (app_nil_r x) at 1. apply includes_here. Qed.

(** A line of a document is in the document. *)
Lemma join_includes sep l x : In x l -> includes (join sep l) x = true.
Proof.
  unfold join. induction l as [|y l IH]; [contradiction|].
  intros [->|Hin].
  - destruct l as [|z l]; [apply includes_self|].
    cbn [String.concat]. apply includes_here.
  - destruct l as [|z l]; [contradiction|].
    change (String.concat sep (y :: z :: l))
      with (y ++ sep ++ String.concat sep (z :: l)).
    apply includes_behind, includes_behind. now apply IH.
Qed.

Lemma join_starts sep x l : startsWith (join sep (x :: l)) x = true.
Proof.
  unfold join. destruct l as [|y l]; cbn [String.concat].
  - rewrite <- (app_nil_r x) at 1. apply startsWith_app.
  - apply startsWith_app.
Qed.

Lemma in_sections routes options r :
  In r routes ->
  exists entry,
    In entry (Generator.groupBySection routes options) /\ In r (snd entry).
Proof.
  intros Hin.
  pose proof (SectionOrderFacts.sections_perm_generator routes options) as P.
  apply (Permutation_in _ (Permutation_sym P)) in Hin.
  apply in_flat_map in Hin as (entry & He & Hr). now exists entry.
Qed.

Lemma app_head_cons {X} (x : X) l l' : ((x :: l) ++ l')%list = x :: (l ++ l')%list.
Proof. reflexivity. Qed.

(** Both documents open with the title line, and no route is left out of
    either: the link index has the link line of every given route, and
    the full digest has its title line and its URL line. *)
Theorem every_route_is_listed routes options r :
  let heading :=
    "# " ++ match truthy (opt_title options) with
            | Some t => t
            | None => "Documentation"
            end in
  let index := Generator.generateLLMsTxt routes options in
  let digest := Generator.generateLLMsFullTxt routes options in
  startsWith index heading = true /\
  startsWith digest heading = true /\
  (In r routes ->
   includes index (Generator.indexRouteLine options r) = true /\
   includes digest ("### " ++ getBestTitle r) = true /\
   includes digest
     ("URL: " ++ Generator.buildUrl (urlPath r) (siteUrl options)) = true).
Proof.
  intros heading index digest.
  split; [|split].
  - unfold index, Generator.generateLLMsTxt. fold heading.
    destruct (truthy (opt_description options)), (customSections options);
      rewrite ?app_head_cons; apply join_starts.
  - unfold digest, Generator.generateLLMsFullTxt. fold heading.
    destruct (truthy (opt_description options)), (customSections options);
      rewrite ?app_head_cons; apply join_starts.
  - intros Hin.
    destruct (in_sections routes options r Hin) as (entry & He & Hr).
    assert (I : In (Generator.indexRouteLine options r)
                   (flat_map (Generator.indexSectionParts options)
                      (Generator.groupBySection routes options))).
    { apply in_flat_map. exists entry. split; [exact He|].
      unfold Generator.indexSectionParts.
      apply in_or_app. right. apply in_or_app. left. now apply in_map. }
    assert (F : forall line,
                In line (Generator.fullRouteParts options r) ->
                In line (flat_map (Generator.fullSectionParts options)
                           (Generator.groupBySection routes options))).
    { intros line Hl. apply in_flat_map. exists entry. split; [exact He|].
      unfold Generator.fullSectionParts. apply in_or_app. right.
      apply in_flat_map. now exists r. }
    assert (P : forall line,
                In line ["### " ++ getBestTitle r;
                         "URL: " ++ Generator.buildUrl (urlPath r)
                                      (siteUrl options)]%string ->
                In line (Generator.fullRouteParts options r)).
    { intros line Hl. unfold Generator.fullRouteParts.
      apply in_or_app. left.
      destruct (truthy (content r)); [apply in_or_app; left|];
        (destruct (getBestDescription r); [apply in_or_app; left|]);
        simpl in *; intuition. }
    split; [|split].
    + apply join_includes. unfold Generator.generateLLMsTxt.
      destruct (customSections options);
        [apply in_or_app; left|]; apply in_or_app; right; exact I.
    + apply join_includes. unfold Generator.generateLLMsFullTxt.
      destruct (customSections options);
        [apply in_or_app; left|]; apply in_or_app; right;
        apply F, P; now left.
    + apply join_includes. unfold Generator.generateLLMsFullTxt.
      destruct (customSections options);
        [apply in_or_app; left|]; apply in_or_app; right;
        apply F, P; right; now left.
Qed.

Lemma every_route_is_listed_witness :
  includes (Generator.generateLLMsTxt [Examples.blog; Examples.products]
              Examples.tiers)
           "- [Products](/products)" = true.
Proof.
  exact (proj1 (proj2 (proj2
    (every_route_is_listed [Examples.blog; Examples.products] Examples.tiers
       Examples.products)) (or_intror (or_introl eq_refl)))).
Defined.

End DocumentFacts.

(* ================================================================== *)
(** * The build hook *)
(* ================================================================== *)

Module PluginFacts.
Import Plugin.

Lemma compilations_after dev skip outcomes :
  compilations dev skip outcomes true
  = (true, List.repeat Callback (List.length outcomes)).
Proof.
  induction outcomes as [|g later IH]; [reflexivity|].
  cbn [compilations beforeCompile]. now rewrite IH.
Qed.

Lemma callbacks_only n :
  filter isAttempt (List.repeat Callback n) = [] /\
  List.length (filter isCallback (List.repeat Callback n)) = n.
Proof.
  induction n as [|n [IH1 IH2]]; [split; reflexivity|].
  simpl. now rewrite IH1, IH2.
Qed.

(** Over any number of compilations of one build or watch session, the
    hook calls back once per compilation and generates at most once, at
    the first compilation: not at all in development with
    skipInDevelopment, and otherwise once, with no second attempt when the
    first one failed. *)
Theorem generation_runs_once dev skip first later :
  let events := snd (compilations dev skip (first :: later) false) in
  fst (compilations dev skip (first :: later) false) = true /\
  List.length (filter isCallback events) = S (List.length later) /\
  filter isAttempt events
  = if dev && skip then []
    else [match first with Ok _ => Generated | Throw _ => GenerationFailed end].
Proof.
  cbn [compilations beforeCompile].
  destruct (callbacks_only (List.length later)) as [A C].
  destruct (dev && skip).
  - rewrite compilations_after.
    cbn [fst snd app filter isCallback isAttempt List.length].
    now rewrite A, C.
  - rewrite compilations_after.
    destruct first;
      cbn [fst snd app filter isCallback isAttempt List.length];
      now rewrite A, C.
Qed.

End PluginFacts.

(* ================================================================== *)
(** * The per-page document *)
(* ================================================================== *)

Module PerPageFacts.
Import Js JsFacts MetadataExtractor ContentProcessor.

Lemma join_starts_two sep x y l :
  startsWith (join sep (x :: y :: l)) (x ++ sep ++ y) = true.
Proof.
  unfold join.
  change (String.concat sep (x :: y :: l))
    with (x ++ sep ++ String.concat sep (y :: l)).
  assert (E : forall rest, x ++ sep ++ y ++ rest = (x ++ sep ++ y) ++ rest)
    by (intros rest; now rewrite !app_assoc).
  destruct l as [|z l].
  - change (String.concat sep [y]) with y.
    rewrite <- (app_nil_r y) at 1. rewrite E. apply startsWith_app.
  - change (String.concat sep (y :: z :: l))
      with (y ++ sep ++ String.concat sep (z :: l)).
    rewrite E. apply startsWith_app.
Qed.

Lemma join_ends sep l x : exists pre, join sep (l ++ [x]) = pre ++ x.
Proof.
  unfold join. induction l as [|y l [pre IH]].
  - now exists "".
  - destruct (l ++ [x])%list as [|z t] eqn:E; [now destruct l|].
    exists (y ++ sep ++ pre).
    change (String.concat sep ((y :: l) ++ [x]))
      with (String.concat sep (y :: (l ++ [x])%list)).
    rewrite E.
    change (String.concat sep (y :: z :: t))
      with (y ++ sep ++ String.concat sep (z :: t)).
    now rewrite IH, !app_assoc.
Qed.

(** The document of a page always has its title line.  With the metadata
    switched off the title line comes first; with them on, for a page
    with a title, the document opens with the front matter and the title
    in it.  When the page has content the document ends with it, trimmed. *)
Theorem createMarkdownContent_layout r options :
  let doc := PerPage.createMarkdownContent r options in
  let titleLine := "# " ++ getBestTitle r in
  includes doc titleLine = true /\
  (PerPage.includeMetadata options = false ->
   startsWith doc titleLine = true) /\
  (PerPage.includeMetadata options = true -> getBestTitle r <> "" ->
   startsWith doc ("---" ++ Generator.newline ++ "title: " ++ getBestTitle r)
   = true) /\
  (forall c, truthy (content r) = Some c ->
     exists front, doc = front ++ trim c).
Proof.
  intros doc titleLine. unfold doc, PerPage.createMarkdownContent.
  fold titleLine.
  set (fm := if PerPage.includeMetadata options && _ then _ else []).
  split; [|split; [|split]].
  - apply DocumentFacts.join_includes.
    destruct (truthy (content r)); [apply in_or_app; left|];
      (destruct (getBestDescription r); [apply in_or_app; left|]);
      apply in_or_app; right; now left.
  - intros Off. unfold fm. rewrite Off. cbn [andb app].
    destruct (truthy (content r)), (getBestDescription r);
      rewrite ?DocumentFacts.app_head_cons; apply DocumentFacts.join_starts.
  - intros On Titled. unfold fm. rewrite On.
    destruct (String.eqb (getBestTitle r) "") eqn:E;
      [now apply String.eqb_eq in E|].
    cbn [negb andb orb app].
    destruct (truthy (content r)), (getBestDescription r);
      rewrite ?DocumentFacts.app_head_cons; apply join_starts_two.
  - intros c ->. apply join_ends.
Qed.

Lemma createMarkdownContent_layout_witness :
  startsWith
    (PerPage.createMarkdownContent
       (Examples.pageAt "/app/products/page.tsx" "/products") noOptions)
    ("---" ++ Generator.newline ++ "title: Products") = true.
Proof.
  exact (proj1 (proj2 (proj2
    (createMarkdownContent_layout
       (Examples.pageAt "/app/products/page.tsx" "/products") noOptions)))
    eq_refl ltac:(discriminate)).
Defined.

End PerPageFacts.

(* ================================================================== *)
(** * Pages that do not parse *)
(* ================================================================== *)

Module FailureFacts.
Import Js JsFacts MetadataExtractor ContentProcessor.

Section Unparsable.
Variable parse : string -> option Node.
Variable fs : Fs.FileSystem.

Lemma extractPageContent_throws r text options :
  Fs.files fs (filePath r) = Some text -> parse text = None ->
  exists e, extractPageContent parse fs false r options = Throw e.
Proof.
  intros F P. unfold extractPageContent, Fs.existsSync, Fs.readFileSync.
  rewrite F. replace (negb _) with false
    by now destruct (Fs.directories fs (filePath r)).
  cbn [bind]. unfold processContent. rewrite P. cbn [bind]. eauto.
Qed.

Lemma extractPageContent_returns r options :
  (Fs.directories fs (filePath r) <> None -> Fs.files fs (filePath r) <> None) ->
  exists c, extractPageContent parse fs true r options = Ok c.
Proof.
  intros H. unfold extractPageContent, Fs.existsSync, Fs.readFileSync.
  destruct (Fs.files fs (filePath r)) as [text|] eqn:F.
  - replace (negb _) with false
      by now destruct (Fs.directories fs (filePath r)).
    cbn [bind]. unfold processContent.
    destruct (parse text); cbn [bind]; eauto.
  - destruct (Fs.directories fs (filePath r)) eqn:D; cbn [negb]; [|eauto].
    elim H; congruence.
Qed.

Lemma extractHeadings_returns r :
  (Fs.directories fs (filePath r) <> None -> Fs.files fs (filePath r) <> None) ->
  exists hs, extractHeadings parse fs r = Ok hs.
Proof.
  intros H. unfold extractHeadings, Fs.existsSync, Fs.readFileSync.
  destruct (Fs.files fs (filePath r)) as [text|] eqn:F.
  - replace (negb _) with false
      by now destruct (Fs.directories fs (filePath r)).
    cbn [bind]. eauto.
  - destruct (Fs.directories fs (filePath r)) eqn:D; cbn [negb]; [|eauto].
    elim H; congruence.
Qed.

(** Where the name routeInfo is not bound globally, one page that does
    not parse makes the whole enrichment fail, wherever the page stands in
    the list: the fallback extraction is not reached and no route gets
    content.  Where the name is bound, enrichment cannot fail on pages
    that are files or are absent, whether they parse or not. *)
Theorem enrichRoutesWithContent_unparsable routes options :
  (forall r text,
     In r routes -> Fs.files fs (filePath r) = Some text -> parse text = None ->
     exists e, enrichRoutesWithContent parse fs false routes options = Throw e) /\
  ((forall r, In r routes ->
      Fs.directories fs (filePath r) <> None ->
      Fs.files fs (filePath r) <> None) ->
   exists enriched,
     enrichRoutesWithContent parse fs true routes options = Ok enriched).
Proof.
  split.
  - intros r text Hin F P.
    induction routes as [|r' rest IH]; [contradiction|].
    cbn [enrichRoutesWithContent].
    destruct (extractPageContent parse fs false r' options) as [c|e] eqn:C;
      cbn [bind]; [|eauto].
    destruct (extractHeadings parse fs r') as [hs|e]; cbn [bind]; [|eauto].
    destruct Hin as [->|Hin].
    + destruct (extractPageContent_throws r text options F P) as [e E].
      congruence.
    + destruct (IH Hin) as [e ->]. cbn [bind]. eauto.
  - induction routes as [|r' rest IH]; intros H; [now exists []|].
    cbn [enrichRoutesWithContent].
    destruct (extractPageContent_returns r' options
                (H r' (or_introl eq_refl))) as [c ->].
    destruct (extractHeadings_returns r' (H r' (or_introl eq_refl)))
      as [hs ->].
    destruct IH as [enriched ->]; [intros r Hin; apply H; now right|].
    cbn [bind]. eauto.
Qed.

End Unparsable.

Lemma enrichRoutesWithContent_unparsable_witness :
  exists e,
    enrichRoutesWithContent (fun _ => None) Examples.layoutFs false
      [Examples.blog; Examples.products] {| maxContentLength := None |}
    = Throw e.
Proof.
  exact (proj1 (enrichRoutesWithContent_unparsable (fun _ => None)
                  Examples.layoutFs [Examples.blog; Examples.products]
                  {| maxContentLength := None |})
           Examples.products "<div>...</div>"
           (or_intror (or_introl eq_refl)) eq_refl eq_refl).
Defined.

End FailureFacts.
